(** * Configinator: the env-file parser, the field containers and [Behold]

    A shallow embedding of the Go packages [env], [container] and
    [configinator], with the parts of the Go standard library they call
    ([strings], [strconv], [time], [bufio.Scanner], [flag], [reflect]),
    followed by the properties proved of them.

    Conventions.
    - A Go [string] is a sequence of bytes: Rocq's [string] (a list of [ascii]).
    - Go's [int] is the 64-bit one and is modelled by [Z] within its range.
    - Go's [float64] is Rocq's primitive binary64 [float]; the conversion
      of a text to a float ([strconv.ParseFloat]) is a parameter of every
      definition that needs it.
    - A Go function returning [(T, error)] returns a pair with an [option]
      error; a panic, or the exit of the process, is the [None] of an
      [option] result.
    - [map[string]string] is [gmap string string].
    - The struct behind the config pointer is a list of fields with their
      values; a container refers to its field by index, and the functions
      that write through a container take the struct and return it.
    - [flag.CommandLine] is a mapping from the names of the flags defined
      to their variables, with the mark that [flag.Parse] was called; the
      command line is [os.Args] without the name of the program.  A
      pointer to a flag variable is kept as the value the variable held
      when the pointer was handed out; [load] reads the variables anew
      once [flag.Parse] has run. *)

From Stdlib Require Import ZArith String Ascii List Bool Lia PrimFloat.
From stdpp Require Import gmap strings list fin_maps option.

Local Open Scope Z_scope.

(** ** Bytes *)

Module Chars.

Definition LF : ascii := "010"%char.
Definition CR : ascii := "013"%char.
Definition DQ : ascii := "034"%char.   (* the double quote *)
Definition SQ : ascii := "039"%char.   (* the single quote *)
Definition BS : ascii := "092"%char.   (* the backslash *)
Definition HASH : ascii := "035"%char.
Definition DOLLAR : ascii := "036"%char.
Definition EQUALS : ascii := "061"%char.
Definition SP : ascii := "032"%char.

Definition code (c : ascii) : Z := Z.of_N (N_of_ascii c).

Definition isDigit (c : ascii) : bool := (48 <=? code c) && (code c <=? 57).
Definition digit (c : ascii) : Z := code c - 48.
Definition isUpper (c : ascii) : bool := (65 <=? code c) && (code c <=? 90).

End Chars.

(** ** Package [strings] and the string primitives of the language *)

Module GoStrings.
Import Chars.

Definition len (s : string) : Z := Z.of_nat (String.length s).

Fixpoint Contains (s : string) (sep : ascii) : bool :=
  match s with
  | EmptyString => false
  | String c r => Ascii.eqb c sep || Contains r sep
  end.

(** [strings.Count(s, sep)] for a one-byte [sep]. *)
Fixpoint Count (s : string) (sep : ascii) : Z :=
  match s with
  | EmptyString => 0
  | String c r => (if Ascii.eqb c sep then 1 else 0) + Count r sep
  end.

(** [strings.Split(s, sep)] for a one-byte [sep]: the pieces between the
    separators, a single empty piece for the empty string. *)
Fixpoint Split (s : string) (sep : ascii) : list string :=
  match s with
  | EmptyString => [EmptyString]
  | String c r =>
      if Ascii.eqb c sep then EmptyString :: Split r sep
      else match Split r sep with
           | h :: t => String c h :: t
           | [] => [String c EmptyString]
           end
  end.

(** [strings.Join(elems, sep)] for a one-byte [sep]. *)
Fixpoint Join (elems : list string) (sep : ascii) : string :=
  match elems with
  | [] => EmptyString
  | [e] => e
  | e :: rest => e +:+ String sep (Join rest sep)
  end.

(** [strings.SplitN(s, sep, 2)] for a one-byte [sep]: cut at the first
    separator, or the whole string alone when there is none. *)
Fixpoint SplitN2 (s : string) (sep : ascii) : list string :=
  match s with
  | EmptyString => [EmptyString]
  | String c r =>
      if Ascii.eqb c sep then [EmptyString; r]
      else match SplitN2 r sep with
           | [h; t] => [String c h; t]
           | _ => [s]
           end
  end.

Fixpoint HasPrefix (s prefix : string) {struct prefix} : bool :=
  match prefix, s with
  | EmptyString, _ => true
  | String p ps, String c r => Ascii.eqb c p && HasPrefix r ps
  | String _ _, EmptyString => false
  end.

Fixpoint drop (n : nat) (s : string) : string :=
  match n, s with
  | O, _ => s
  | S n', String _ r => drop n' r
  | S _, EmptyString => EmptyString
  end.

Definition TrimPrefix (s prefix : string) : string :=
  if HasPrefix s prefix then drop (String.length prefix) s else s.

Fixpoint rev_onto (s acc : string) : string :=
  match s with
  | EmptyString => acc
  | String c r => rev_onto r (String c acc)
  end.

Definition rev (s : string) : string := rev_onto s EmptyString.

(** *** White space

    [unicode.IsSpace] holds of U+0009..U+000D, U+0020, U+0085, U+00A0,
    U+1680, U+2000..U+200A, U+2028, U+2029, U+202F, U+205F and U+3000.
    A rune decodes to one of them exactly when the bytes at hand are its
    UTF-8 encoding, so the test is made on the encoded bytes. *)

Definition asciiSpace (c : ascii) : bool :=
  let n := code c in (9 <=? n) && (n <=? 13) || (n =? 32).

Definition space2 (a b : ascii) : bool :=
  (code a =? 194) && ((code b =? 133) || (code b =? 160)).

Definition space3 (a b c : ascii) : bool :=
  let x := code a in let y := code b in let z := code c in
  (x =? 225) && (y =? 154) && (z =? 128)
  || (x =? 226) && (y =? 128)
     && ((128 <=? z) && (z <=? 138) || (z =? 168) || (z =? 169) || (z =? 175))
  || (x =? 226) && (y =? 129) && (z =? 159)
  || (x =? 227) && (y =? 128) && (z =? 128).

(** Width in bytes of the white-space rune [s] starts with, [0] when it
    starts with none; [fwd] tells whether the bytes come in reading order
    or, for a scan from the end of a string, reversed. *)
Definition spaceWidth (fwd : bool) (s : string) : nat :=
  match s with
  | String a r =>
      if asciiSpace a then 1%nat
      else match r with
           | String b r2 =>
               if (if fwd then space2 a b else space2 b a) then 2%nat
               else match r2 with
                    | String c _ =>
                        if (if fwd then space3 a b c else space3 c b a)
                        then 3%nat else 0%nat
                    | EmptyString => 0%nat
                    end
           | EmptyString => 0%nat
           end
  | EmptyString => 0%nat
  end.

Fixpoint trimSpaces (fwd : bool) (fuel : nat) (s : string) : string :=
  match fuel with
  | O => s
  | S fuel' =>
      match spaceWidth fwd s with
      | O => s
      | w => trimSpaces fwd fuel' (drop w s)
      end
  end.

(** [strings.TrimLeftFunc(s, unicode.IsSpace)] *)
Definition TrimLeftSpace (s : string) : string :=
  trimSpaces true (String.length s) s.

(** [strings.TrimRightFunc(s, unicode.IsSpace)] *)
Definition TrimRightSpace (s : string) : string :=
  rev (trimSpaces false (String.length s) (rev s)).

(** [strings.TrimSpace]: its ASCII fast path and its fall-back to
    [TrimFunc] compute the same string, the one below. *)
Definition TrimSpace (s : string) : string :=
  TrimRightSpace (TrimLeftSpace s).

Fixpoint trimLeftByte (s : string) (c : ascii) : string :=
  match s with
  | String a r => if Ascii.eqb a c then trimLeftByte r c else s
  | EmptyString => s
  end.

(** [strings.Trim(s, cutset)] for a one-byte [cutset]. *)
Definition Trim (s : string) (c : ascii) : string :=
  rev (trimLeftByte (rev (trimLeftByte s c)) c).

End GoStrings.

(** ** Package [strconv] *)

Module Strconv.
Import Chars GoStrings.

Definition ParseBool (str : string) : option bool :=
  if String.eqb str "1" || String.eqb str "t" || String.eqb str "T"
     || String.eqb str "true" || String.eqb str "TRUE" || String.eqb str "True"
  then Some true
  else if String.eqb str "0" || String.eqb str "f" || String.eqb str "F"
     || String.eqb str "false" || String.eqb str "FALSE" || String.eqb str "False"
  then Some false
  else None.

Fixpoint digits (s : string) (acc : Z) : option Z :=
  match s with
  | EmptyString => Some acc
  | String c r => if isDigit c then digits r (acc * 10 + digit c) else None
  end.

Definition minInt : Z := - 2 ^ 63.
Definition maxInt : Z := 2 ^ 63 - 1.

(** [strconv.Atoi]: an optional sign and at least one decimal digit, the
    value within the range of [int]; anything else is an error. *)
Definition Atoi (s : string) : option Z :=
  let '(neg, body) :=
    match s with
    | String c r =>
        if Ascii.eqb c "-" then (true, r)
        else if Ascii.eqb c "+" then (false, r)
        else (false, s)
    | EmptyString => (false, s)
    end in
  match body with
  | EmptyString => None
  | _ =>
      match digits body 0 with
      | Some n =>
          let v := if neg then - n else n in
          if (minInt <=? v) && (v <=? maxInt) then Some v else None
      | None => None
      end
  end.

(** [lower(c)] of package [strconv]: the byte with the bit of the lower case set. *)
Definition lower (c : ascii) : ascii := ascii_of_N (N.lor (N_of_ascii c) 32).

(** The value of a byte as a digit of [ParseUint]: a decimal digit or a letter. *)
Definition digitValue (c : ascii) : option Z :=
  if isDigit c then Some (digit c)
  else
    let l := code (lower c) in
    if (97 <=? l) && (l <=? 122) then Some (l - 97 + 10) else None.

Definition maxUint64 : Z := 2 ^ 64 - 1.

(** The loop of [ParseUint] with base prefixes allowed: underscores are
    skipped, a byte that is no digit of the base is a syntax error and a
    value past 64 bits a range error, both [None]. *)
Fixpoint uintDigits (base : Z) (s : string) (n : Z) : option Z :=
  match s with
  | EmptyString => Some n
  | String c r =>
      if Ascii.eqb c "_" then uintDigits base r n
      else
        match digitValue c with
        | None => None
        | Some d =>
            if base <=? d then None
            else if maxUint64 / base + 1 <=? n then None
            else
              let n1 := n * base + d in
              if maxUint64 <? n1 then None else uintDigits base r n1
        end
  end.

(** What [underscoreOK] last saw: the beginning of the number, a digit
    or base prefix, an underscore, or none of these. *)
Inductive saw := sawStart | sawDigit | sawUnderscore | sawOther.

Fixpoint underscoreScan (hex : bool) (s : string) (last : saw) : bool :=
  match s with
  | EmptyString => match last with sawUnderscore => false | _ => true end
  | String c r =>
      if isDigit c || hex && (97 <=? code (lower c)) && (code (lower c) <=? 102)
      then underscoreScan hex r sawDigit
      else if Ascii.eqb c "_" then
        match last with
        | sawDigit => underscoreScan hex r sawUnderscore
        | _ => false
        end
      else
        match last with
        | sawUnderscore => false
        | _ => underscoreScan hex r sawOther
        end
  end.

Definition isBasePrefix (c : ascii) : bool :=
  Ascii.eqb (lower c) "b" || Ascii.eqb (lower c) "o" || Ascii.eqb (lower c) "x".

(** [underscoreOK]: an underscore stands only between two digits, or
    between a base prefix and a digit. *)
Definition underscoreOK (s : string) : bool :=
  let s :=
    match s with
    | String c r => if Ascii.eqb c "-" || Ascii.eqb c "+" then r else s
    | EmptyString => s
    end in
  match s with
  | String z (String p r) =>
      if Ascii.eqb z "0" && isBasePrefix p
      then underscoreScan (Ascii.eqb (lower p) "x") r sawDigit
      else underscoreScan false s sawStart
  | _ => underscoreScan false s sawStart
  end.

(** [strconv.ParseUint(s, 0, 64)]: the base is read off the prefix. *)
Definition ParseUint (s : string) : option Z :=
  match s with
  | EmptyString => None
  | String z r =>
      let '(base, body) :=
        if Ascii.eqb z "0" then
          match r with
          | String p (String _ _ as r2) =>
              if Ascii.eqb (lower p) "b" then (2, r2)
              else if Ascii.eqb (lower p) "o" then (8, r2)
              else if Ascii.eqb (lower p) "x" then (16, r2)
              else (8, r)
          | _ => (8, r)
          end
        else (10, s) in
      n ← uintDigits base body 0;
      if Contains body "_" && negb (underscoreOK s) then None else Some n
  end.

(** [strconv.ParseInt(s, 0, 64)], which the int flags read their values
    with: an optional sign, a base prefix or none, digits with
    underscores between them, the value within the range of [int]. *)
Definition ParseInt (s : string) : option Z :=
  match s with
  | EmptyString => None
  | String c r =>
      let '(neg, body) :=
        if Ascii.eqb c "+" then (false, r)
        else if Ascii.eqb c "-" then (true, r)
        else (false, s) in
      un ← ParseUint body;
      if negb neg && (2 ^ 63 <=? un) then None
      else if neg && (2 ^ 63 <? un) then None
      else Some (if neg then - un else un)
  end.

End Strconv.

(** ** Package [time]: [time.Parse] on the layouts of [timeFormats]

    A time is kept as its civil date and clock together with its zone.
    A time parsed from a text has the date and clock the text spells out
    in the zone the text names; only for a zone written [GMT+N] does
    [time.Parse] read the clock as one of UTC and show it in a zone [N]
    hours east of UTC.  The local zone of the host is taken to have no
    abbreviation of that form.  The zero [time.Time] is January 1, year 1,
    00:00:00 UTC. *)

Module GoTime.
Import Chars GoStrings.

Inductive Location :=
| UTC
| Abbrev (name : string)     (* a zone abbreviation, resolved by the host *)
| Offset (seconds : Z)       (* a numeric offset east of UTC *)
| Fixed (name : string) (seconds : Z).
                             (* [FixedZone(name, seconds)], made for GMT+N *)

Record Time := mkTime {
  year : Z; month : Z; day : Z;
  hour : Z; minute : Z; second : Z; nsec : Z;
  loc : Location
}.

Definition zero : Time := mkTime 1 1 1 0 0 0 0 UTC.

(** The pieces [nextStdChunk] cuts a layout into. *)
Inductive Chunk :=
| Lit (text : string)
| stdLongYear      (* 2006 *)
| stdZeroMonth     (* 01 *)
| stdZeroDay       (* 02 *)
| stdHour          (* 15 *)
| stdZeroMinute    (* 04 *)
| stdZeroSecond    (* 05 *)
| stdTZ            (* MST *)
| stdNumTZ.        (* -0700 *)

Definition cutspace (s : string) : string := trimLeftByte s SP.

(** [skip]: the literal text of a layout against the value; a run of
    spaces in the layout stands for any run of spaces in the value. *)
Fixpoint skipFrom (inSpaces : bool) (value prefix : string) : option string :=
  match prefix with
  | EmptyString => Some value
  | String p ps =>
      if Ascii.eqb p SP then
        if inSpaces then skipFrom true value ps
        else match value with
             | String v _ =>
                 if Ascii.eqb v SP then skipFrom true (cutspace value) ps
                 else None
             | EmptyString => skipFrom true value ps
             end
      else match value with
           | String v vs => if Ascii.eqb v p then skipFrom false vs ps else None
           | EmptyString => None
           end
  end.

Definition skip (value prefix : string) : option string :=
  skipFrom false value prefix.

Definition getnum (s : string) (fixed : bool) : option (Z * string) :=
  match s with
  | String a r =>
      if isDigit a then
        match r with
        | String b r2 =>
            if isDigit b then Some (digit a * 10 + digit b, r2)
            else if fixed then None else Some (digit a, r)
        | EmptyString => if fixed then None else Some (digit a, r)
        end
      else None
  | EmptyString => None
  end.

Definition getyear (s : string) : option (Z * string) :=
  match s with
  | String a (String b (String c (String d r))) =>
      if isDigit a && isDigit b && isDigit c && isDigit d
      then Some (digit a * 1000 + digit b * 100 + digit c * 10 + digit d, r)
      else None
  | _ => None
  end.

Fixpoint digitRun (s : string) : string * string :=
  match s with
  | String c r =>
      if isDigit c then let '(ds, rest) := digitRun r in (String c ds, rest)
      else (EmptyString, s)
  | EmptyString => (EmptyString, EmptyString)
  end.

Fixpoint take (n : nat) (s : string) : string :=
  match n, s with
  | S n', String c r => String c (take n' r)
  | _, _ => EmptyString
  end.

Definition commaOrPeriod (c : ascii) : bool := Ascii.eqb c "." || Ascii.eqb c ",".

(** A fraction of a second in the value where the layout has none:
    [parseNanoseconds] reads at most nine digits of it. *)
Definition fraction (value : string) : Z * string :=
  match value with
  | String p (String d r) =>
      if commaOrPeriod p && isDigit d then
        let '(ds, rest) := digitRun (String d r) in
        let kept := take 9 ds in
        match Strconv.digits kept 0 with
        | Some ns => (ns * 10 ^ (9 - len kept), rest)
        | None => (0, rest)
        end
      else (0, value)
  | _ => (0, value)
  end.

Definition parseSignedOffset (value : string) : nat :=
  match value with
  | String sign r =>
      if Ascii.eqb sign "-" || Ascii.eqb sign "+" then
        let '(ds, rest) := digitRun r in
        match ds, Strconv.digits ds 0 with
        | String _ _, Some x =>
            if 23 <? x then 0%nat else S (String.length ds)
        | _, _ => 0%nat
        end
      else 0%nat
  | EmptyString => 0%nat
  end.

Fixpoint upperRun (n : nat) (s : string) : nat :=
  match n, s with
  | S n', String c r => if isUpper c then S (upperRun n' r) else 0%nat
  | _, _ => 0%nat
  end.

(** [parseTimeZone]: the length of the zone abbreviation [value] starts with. *)
Definition parseTimeZone (value : string) : option nat :=
  if len value <? 3 then None
  else if HasPrefix value "ChST" || HasPrefix value "MeST" then Some 4%nat
  else if HasPrefix value "GMT" then Some (3 + parseSignedOffset (drop 3 value))%nat
  else if HasPrefix value "+" || HasPrefix value "-" then
    match parseSignedOffset value with
    | O => None
    | n => Some n
    end
  else
    match upperRun 6 value with
    | 5%nat => if HasPrefix (drop 4 value) "T" then Some 5%nat else None
    | 4%nat =>
        if HasPrefix (drop 3 value) "T" || HasPrefix value "WITA"
        then Some 4%nat else None
    | 3%nat => Some 3%nat
    | _ => None
    end.

Definition isLeap (y : Z) : bool :=
  (y mod 4 =? 0) && (negb (y mod 100 =? 0) || (y mod 400 =? 0)).

Definition daysIn (m y : Z) : Z :=
  if m =? 2 then (if isLeap y then 29 else 28)
  else if (m =? 4) || (m =? 6) || (m =? 9) || (m =? 11) then 30
  else 31.

Definition inRange (lo v hi : Z) : bool := (lo <=? v) && (v <=? hi).

(** One chunk of the layout read off the front of the value. *)
Definition step (c : Chunk) (st : Time * string) : option (Time * string) :=
  let '(t, value) := st in
  match c with
  | Lit text => v ← skip value text; Some (t, v)
  | stdLongYear =>
      '(y, v) ← getyear value;
      Some (mkTime y (month t) (day t) (hour t) (minute t) (second t) (nsec t) (loc t), v)
  | stdZeroMonth =>
      '(m, v) ← getnum value true;
      if inRange 1 m 12
      then Some (mkTime (year t) m (day t) (hour t) (minute t) (second t) (nsec t) (loc t), v)
      else None
  | stdZeroDay =>
      '(d, v) ← getnum value true;
      Some (mkTime (year t) (month t) d (hour t) (minute t) (second t) (nsec t) (loc t), v)
  | stdHour =>
      '(h, v) ← getnum value false;
      if inRange 0 h 23
      then Some (mkTime (year t) (month t) (day t) h (minute t) (second t) (nsec t) (loc t), v)
      else None
  | stdZeroMinute =>
      '(m, v) ← getnum value true;
      if inRange 0 m 59
      then Some (mkTime (year t) (month t) (day t) (hour t) m (second t) (nsec t) (loc t), v)
      else None
  | stdZeroSecond =>
      '(s, v) ← getnum value true;
      if inRange 0 s 59
      then let '(ns, v') := fraction v in
           Some (mkTime (year t) (month t) (day t) (hour t) (minute t) s ns (loc t), v')
      else None
  | stdTZ =>
      if HasPrefix value "UTC"
      then Some (mkTime (year t) (month t) (day t) (hour t) (minute t) (second t) (nsec t) UTC,
                 drop 3 value)
      else
        n ← parseTimeZone value;
        Some (mkTime (year t) (month t) (day t) (hour t) (minute t) (second t) (nsec t)
                (Abbrev (take n value)), drop n value)
  | stdNumTZ =>
      match value with
      | String sign (String h1 (String h2 (String m1 (String m2 v)))) =>
          '(hr, _) ← getnum (String h1 (String h2 "")) true;
          '(mm, _) ← getnum (String m1 (String m2 "")) true;
          if (24 <? hr) || (60 <? mm) then None
          else
            let off := (hr * 60 + mm) * 60 in
            if Ascii.eqb sign "+"
            then Some (mkTime (year t) (month t) (day t) (hour t) (minute t) (second t)
                         (nsec t) (Offset off), v)
            else if Ascii.eqb sign "-"
            then Some (mkTime (year t) (month t) (day t) (hour t) (minute t) (second t)
                         (nsec t) (Offset (- off)), v)
            else None
      | _ => None
      end
  end.

Fixpoint steps (layout : list Chunk) (st : Time * string) : option (Time * string) :=
  match layout with
  | [] => Some st
  | c :: rest => st' ← step c st; steps rest st'
  end.

Definition tomorrow (t : Time) : Time :=
  if day t <? daysIn (month t) (year t)
  then mkTime (year t) (month t) (day t + 1) (hour t) (minute t) (second t) (nsec t) (loc t)
  else if month t <? 12
  then mkTime (year t) (month t + 1) 1 (hour t) (minute t) (second t) (nsec t) (loc t)
  else mkTime (year t + 1) 1 1 (hour t) (minute t) (second t) (nsec t) (loc t).

Definition yesterday (t : Time) : Time :=
  if 1 <? day t
  then mkTime (year t) (month t) (day t - 1) (hour t) (minute t) (second t) (nsec t) (loc t)
  else if 1 <? month t
  then mkTime (year t) (month t - 1) (daysIn (month t - 1) (year t))
         (hour t) (minute t) (second t) (nsec t) (loc t)
  else mkTime (year t - 1) 12 31 (hour t) (minute t) (second t) (nsec t) (loc t).

(** The date and clock [n] hours later, for [n] between -23 and 23. *)
Definition addHours (n : Z) (t : Time) : Time :=
  let h := hour t + n in
  if h <? 0 then
    let y := yesterday t in
    mkTime (year y) (month y) (day y) (h + 24) (minute t) (second t) (nsec t) (loc t)
  else if 23 <? h then
    let y := tomorrow t in
    mkTime (year y) (month y) (day y) (h - 24) (minute t) (second t) (nsec t) (loc t)
  else mkTime (year t) (month t) (day t) h (minute t) (second t) (nsec t) (loc t).

(** The end of [time.Parse] for a text with a zone abbreviation.  For a
    zone written [GMT+N] the date and clock of the text are those of the
    time in UTC, and the zone of the time is a fixed zone [N] hours east:
    its clock shows [N] hours more than the text. *)
Definition inZone (t : Time) : Time :=
  match loc t with
  | Abbrev zoneName =>
      if (3 <? len zoneName) && HasPrefix zoneName "GMT" then
        let offset := default 0 (Strconv.Atoi (drop 3 zoneName)) in
        let t' := addHours offset t in
        mkTime (year t') (month t') (day t') (hour t') (minute t') (second t') (nsec t')
          (Fixed zoneName (offset * 3600))
      else t
  | _ => t
  end.

(** [time.Parse]: every chunk must match, no text may be left over, and
    the day must exist in its month. *)
Definition Parse (layout : list Chunk) (value : string) : option Time :=
  '(t, rest) ← steps layout (mkTime 0 1 1 0 0 0 0 UTC, value);
  match rest with
  | EmptyString =>
      if inRange 1 (day t) (daysIn (month t) (year t)) then Some (inZone t) else None
  | _ => None
  end.

End GoTime.

(** ** Package [env]: the env-file parser *)

Module Env.
Import Chars GoStrings.

Inductive error :=
| ErrTooLong                     (* bufio.Scanner: token too long *)
| ErrZeroLength                  (* zero length line. shouldn't be here! *)
| ErrSeparate (line : string).   (* trouble separating key from value on line '...' *)

(** *** [bufio.Scanner] with the default split function [ScanLines] *)

(** The text cut after each line feed; a last line with no line feed
    counts when it is not empty. *)
Fixpoint rawLines (text : string) : list string :=
  match text with
  | EmptyString => []
  | String c r =>
      if Ascii.eqb c LF then EmptyString :: rawLines r
      else match rawLines r with
           | [] => [String c EmptyString]
           | h :: t => String c h :: t
           end
  end.

Definition dropCR (line : string) : string :=
  match rev line with
  | String c r => if Ascii.eqb c CR then rev r else line
  | EmptyString => line
  end.

Definition maxScanTokenSize : Z := 64 * 1024.

(** The lines [scanner.Scan] yields, or the scanner's error when a line
    does not fit its buffer. *)
Definition scanLines (text : string) : option (list string) :=
  let raw := rawLines text in
  if forallb (fun l => len l <? maxScanTokenSize) raw
  then Some (map dropCR raw) else None.

(** *** The regular expressions *)

(** [singleQuotesRegex] and [doubleQuotesRegex]: the whole text is a
    quote, any run of characters and the same quote again.  The value
    starts and ends with the quote (two bytes at least) and, the dot of
    a regexp matching no line feed, has none in between. *)
Definition quotesRegex (q : ascii) (value : string) : bool :=
  match value with
  | String a r =>
      Ascii.eqb a q
      && match rev r with
         | String z inner => Ascii.eqb z q && negb (Contains inner LF)
         | EmptyString => false
         end
  | EmptyString => false
  end.

(** [value[1 : len(value)-1]] *)
Definition unwrap (value : string) : string := rev (drop 1 (rev (drop 1 value))).

(** [escapeRegex]: a backslash and one more character, no line feed.  The match at the head of [s], as the character and what follows. *)
Definition escapeRegex (s : string) : option (ascii * string) :=
  match s with
  | String a (String c r) =>
      if Ascii.eqb a BS && negb (Ascii.eqb c LF) then Some (c, r) else None
  | _ => None
  end.

(** [unescapeCharsRegex]: a backslash and one more character, no dollar
    sign; the replacement is that character. *)
Definition unescapeCharsRegex (s : string) : option (ascii * string) :=
  match s with
  | String a (String c r) =>
      if Ascii.eqb a BS && negb (Ascii.eqb c DOLLAR) then Some (c, r) else None
  | _ => None
  end.

(** [re.ReplaceAllStringFunc]: the matches are taken leftmost first and do
    not overlap; [repl] gives the replacement of a match from its second
    character.  A character of several bytes has no byte that is a
    backslash, a dollar sign, a letter or a line feed, so reading it whole
    or a byte at a time yields the same text. *)
Fixpoint replaceAll (re : string -> option (ascii * string))
    (repl : ascii -> string) (fuel : nat) (s : string) : string :=
  match fuel with
  | O => s
  | S fuel' =>
      match re s with
      | Some (c, rest) => repl c +:+ replaceAll re repl fuel' rest
      | None =>
          match s with
          | String a r => String a (replaceAll re repl fuel' r)
          | EmptyString => EmptyString
          end
      end
  end.

Definition ReplaceAll (re : string -> option (ascii * string))
    (repl : ascii -> string) (s : string) : string :=
  replaceAll re repl (String.length s) s.

(** *** The parser *)

Definition isIgnoredLine (line : string) : bool :=
  let trimmed := TrimSpace line in
  (len trimmed =? 0) || HasPrefix trimmed "#".

(** The function literal [parseValue] expands a match of [escapeRegex]
    with, on the character [c] that follows the backslash: the match
    itself unless [c] is [n] or [r]. *)
Definition expandNewline (c : ascii) : string :=
  if Ascii.eqb c "n" then String LF EmptyString
  else if Ascii.eqb c "r" then String CR EmptyString
  else String BS (String c EmptyString).

(** The template [$1]: the character the group of [unescapeCharsRegex] matched. *)
Definition submatch1 (c : ascii) : string := String c EmptyString.

Definition parseValue (value : string) : string :=
  let value := Trim value SP in
  if 1 <? len value then
    let singleQuotes := quotesRegex SQ value in
    let doubleQuotes := quotesRegex DQ value in
    let value := if singleQuotes || doubleQuotes then unwrap value else value in
    if doubleQuotes then
      (* expand newlines *)
      let value := ReplaceAll escapeRegex expandNewline value in
      (* unescape characters *)
      ReplaceAll unescapeCharsRegex submatch1 value
    else value
  else value.

(** One turn of the loop over the pieces between the [#]s. *)
Definition keepPart (st : bool * list string) (part : string) : bool * list string :=
  let '(inQuotes, keep) := st in
  let '(inQuotes, keep) :=
    if (Count part DQ =? 1) || (Count part SQ =? 1) then
      if inQuotes then (false, keep ++ [part]) else (true, keep)
    else (inQuotes, keep) in
  if (Z.of_nat (length keep) =? 0) || inQuotes
  then (inQuotes, keep ++ [part]) else (inQuotes, keep).

Definition stripComment (line : string) : string :=
  if Contains line HASH then
    let split := Split line HASH in
    let '(_, keep) := fold_left keepPart split (false, []) in
    Join keep HASH
  else line.

Definition parseLine (line : string) : string * string * option error :=
  if len line =? 0 then (EmptyString, EmptyString, Some ErrZeroLength)
  else
    let line := stripComment line in
    match SplitN2 line EQUALS with
    | [k; v] =>
        let key := if HasPrefix k "export" then TrimPrefix k "export" else k in
        let key := TrimSpace key in
        let value := parseValue v in
        (key, value, None)
    | _ => (EmptyString, EmptyString, Some (ErrSeparate line))
    end.

(** The loop of [parse] over the scanned lines. *)
Fixpoint parseLines (lines : list string) (result : gmap string string)
    : gmap string string * option error :=
  match lines with
  | [] => (result, None)
  | line :: rest =>
      if isIgnoredLine line then parseLines rest result
      else
        match parseLine line with
        | (key, value, None) => parseLines rest (<[key := value]> result)
        | (_, _, Some err) => (result, Some err)
        end
  end.

(** [parse], on the text the reader delivers. *)
Definition parse (r : string) : gmap string string * option error :=
  match scanLines r with
  | None => (∅, Some ErrTooLong)
  | Some lines => parseLines lines ∅
  end.

End Env.

(** ** Package [reflect]: a struct behind a pointer, field by field *)

Module Reflect.

(** What [reflect.StructField] and [reflect.Value.CanSet] tell of a field:
    its name, [Type.String()], its tag as key/value pairs in the order
    written, and whether it can be set (it is exported). *)
Record StructField := mkStructField {
  Name : string;
  TypeString : string;
  Tag : list (string * string);
  CanSet : bool
}.

Inductive Value :=
| VBool (b : bool)
| VInt (i : Z)
| VFloat (f : float)
| VString (s : string)
| VTime (t : GoTime.Time)
| VOther.                       (* a value of any other type *)

(** The struct a config pointer points to: its fields with their values. *)
Definition Struct := list (StructField * Value).

(** [Tag.Lookup(key)] *)
Fixpoint Lookup (tag : list (string * string)) (key : string) : option string :=
  match tag with
  | [] => None
  | (k, v) :: rest => if String.eqb k key then Some v else Lookup rest key
  end.

(** [Tag.Get(key)] *)
Definition Get (tag : list (string * string)) (key : string) : string :=
  default EmptyString (Lookup tag key).

(** Storing [v] in field [index]. *)
Definition Set_ (index : nat) (v : Value) (config : Struct) : Struct :=
  alter (fun fv => (fv.1, v)) index config.

End Reflect.

(** ** Package [flag]

    [flag.CommandLine], the flag set of the process: the flags defined,
    each with the variable behind it ([formal]), and whether [Parse] was
    called.  The flags are the bool, int, float64 and string flags, the
    kinds the containers define; the usage text of a flag, which only the
    help message shows, is left out. *)

Module Flag.
Import Chars GoStrings.

(** The variable of a flag, with the value it holds. *)
Inductive Value :=
| Bool (b : bool)
| Int (i : Z)
| Float64 (f : float)
| String_ (s : string).

Record FlagSet := mkFlagSet {
  formal : gmap string Value;
  parsed : bool
}.

(** The flag set of a process that has defined no flag yet. *)
Definition CommandLine : FlagSet := mkFlagSet ∅ false.

(** [FlagSet.Var], through which [flag.Bool], [flag.Int], [flag.Float64]
    and [flag.String] define a flag: it panics on a name that begins with
    [-], has a [=] in it, or is defined already. *)
Definition Var (value : Value) (name : string) (f : FlagSet) : option FlagSet :=
  if HasPrefix name "-" then None
  else if Contains name EQUALS then None
  else
    match formal f !! name with
    | Some _ => None
    | None => Some (mkFlagSet (<[name := value]> (formal f)) (parsed f))
    end.

(** The name and the value of a flag argument without its dashes: the
    argument is cut at the first [=] past its first byte. *)
Definition nameValue (name : string) : string * option string :=
  match name with
  | String c r =>
      match SplitN2 r EQUALS with
      | [h; value] => (String c h, Some value)
      | _ => (name, None)
      end
  | EmptyString => (name, None)
  end.

Section WithParseFloat.

Variable ParseFloat : string -> option float.

(** [Value.Set]: the variable takes the value the text stands for;
    [None] when the text does not parse as the type of the flag. *)
Definition Set_ (v : Value) (s : string) : option Value :=
  match v with
  | Bool _ => Bool <$> Strconv.ParseBool s
  | Int _ => Int <$> Strconv.ParseInt s
  | Float64 _ => Float64 <$> ParseFloat s
  | String_ _ => Some (String_ s)
  end.

(** The loop of [FlagSet.Parse] over [parseOne].  An argument that is
    not a flag, or the argument [--], ends the loop.  A flag of type bool
    takes its value from the argument itself ([true] when it has none),
    any other flag from the argument or else from the next one.  With
    [ExitOnError] the process exits ([None]) on an argument that is badly
    formed or names no flag ([-h] and [-help] included), on a value
    that does not parse, and on a flag left without its value. *)
Fixpoint parseArgs (arguments : list string) (formal : gmap string Value)
    : option (gmap string Value) :=
  match arguments with
  | [] => Some formal
  | s :: rest =>
      if (len s <? 2) || negb (HasPrefix s "-") then Some formal
      else
        let numMinuses := if HasPrefix (drop 1 s) "-" then 2%nat else 1%nat in
        if (numMinuses =? 2)%nat && (len s =? 2) then Some formal
        else
          let name := drop numMinuses s in
          if (len name =? 0) || HasPrefix name "-" || HasPrefix name "=" then None
          else
            let '(name, value) := nameValue name in
            match formal !! name with
            | None => None
            | Some (Bool b) =>
                v ← Set_ (Bool b) (default "true" value);
                parseArgs rest (<[name := v]> formal)
            | Some flag =>
                match value with
                | Some value =>
                    v ← Set_ flag value; parseArgs rest (<[name := v]> formal)
                | None =>
                    match rest with
                    | value :: rest' =>
                        v ← Set_ flag value; parseArgs rest' (<[name := v]> formal)
                    | [] => None
                    end
                end
            end
  end.

(** [flag.Parse] on the arguments [os.Args[1:]]. *)
Definition Parse (arguments : list string) (f : FlagSet) : option FlagSet :=
  formal ← parseArgs arguments (formal f);
  Some (mkFlagSet formal true).

End WithParseFloat.

End Flag.

(** ** Package [container] *)

Module Container.
Import Chars GoStrings Reflect.

(** Supported struct tags *)
Definition TagFlagName : string := "flag".
Definition TagEnvName : string := "env".
Definition TagDefaultValue : string := "default".
Definition TagDescription : string := "description".

(** Custom errors *)
Inductive error := ErrNoFlagName | ErrCantSet.

(** The layouts of [timeFormats], each with the chunks [time.Parse] cuts it into. *)
Definition timeFormats : list (string * list GoTime.Chunk) :=
  let date := [GoTime.stdLongYear; GoTime.Lit "-"; GoTime.stdZeroMonth;
               GoTime.Lit "-"; GoTime.stdZeroDay] in
  let clock := [GoTime.stdHour; GoTime.Lit ":"; GoTime.stdZeroMinute;
                GoTime.Lit ":"; GoTime.stdZeroSecond] in
  [ ("2006-01-02", date);
    ("2006-01-02 15:04:05", date ++ [GoTime.Lit " "] ++ clock);
    ("2006-01-02T15:04:05", date ++ [GoTime.Lit "T"] ++ clock);
    ("2006-01-02T15:04:05Z", date ++ [GoTime.Lit "T"] ++ clock ++ [GoTime.Lit "Z"]);
    ("2006-01-02T15:04:05 MST",
      date ++ [GoTime.Lit "T"] ++ clock ++ [GoTime.Lit " "; GoTime.stdTZ]);
    ("2006-01-02T15:04:05-0700", date ++ [GoTime.Lit "T"] ++ clock ++ [GoTime.stdNumTZ]) ].

(** The container of one struct field.  The pointers to the flag
    variables are [None] when nil and hold the variable's current value
    otherwise; [fieldValue] is the index of the field it refers to, [None]
    for the zero [reflect.Value].  The fields [config] and [configValue]
    refer to the struct, which the functions below take as an argument. *)
Record Container := mkContainer {
  boolValue : option bool;
  defaultValue : string;
  description : string;
  envFile : gmap string string;
  envName : string;
  field : StructField;
  fieldName : string;
  fieldType : string;
  fieldValue : option nat;
  flagName : string;
  floatValue : option float;
  intValue : option Z;
  stringValue : option string;
  timeValue : option string
}.

Definition toLowerByte (c : ascii) : ascii :=
  if isUpper c then ascii_of_N (Z.to_N (code c + 32)) else c.

(** [strings.ToLower] on the ASCII letters, the ones a type name that
    lowers to one of the five supported names is made of. *)
Fixpoint ToLower (s : string) : string :=
  match s with
  | EmptyString => EmptyString
  | String c r => String (toLowerByte c) (ToLower r)
  end.

Definition IsBool (c : Container) : bool := String.eqb (fieldType c) "bool".
Definition IsFloat (c : Container) : bool := String.eqb (fieldType c) "float64".
Definition IsInt (c : Container) : bool := String.eqb (fieldType c) "int".
Definition IsString (c : Container) : bool := String.eqb (fieldType c) "string".
Definition IsTime (c : Container) : bool := String.eqb (fieldType c) "time.time".

Fixpoint parseTimeIn (formats : list (string * list GoTime.Chunk)) (value : string)
    : option GoTime.Time :=
  match formats with
  | [] => None
  | (_, f) :: rest =>
      match GoTime.Parse f value with
      | Some t => Some t
      | None => parseTimeIn rest value
      end
  end.

Definition isTime (c : Container) (value : string) : bool :=
  match parseTimeIn timeFormats value with Some _ => true | None => false end.

Definition parseTime (c : Container) (value : string) : GoTime.Time :=
  default GoTime.zero (parseTimeIn timeFormats value).

(** [os.Getenv]: the value of the variable, empty when it is not set. *)
Definition Getenv (environ : gmap string string) (key : string) : string :=
  default EmptyString (environ !! key).

(** Storing a value through [fieldValue]; [reflect] panics on the zero
    [reflect.Value] of a container whose [fieldValue] was never set. *)
Definition setField (c : Container) (v : Value) (config : Struct) : option Struct :=
  i ← fieldValue c; Some (Set_ i v config).

Definition SetConfigBool (c : Container) (value : bool) : Struct → option Struct :=
  setField c (VBool value).

Definition SetConfigFloat (c : Container) (value : float) : Struct → option Struct :=
  setField c (VFloat value).

Definition SetConfigInt (c : Container) (value : Z) : Struct → option Struct :=
  setField c (VInt value).

Definition SetConfigString (c : Container) (value : string) : Struct → option Struct :=
  setField c (VString value).

Definition SetConfigTime (c : Container) (value : GoTime.Time) : Struct → option Struct :=
  setField c (VTime value).

Definition defaultValueToBool (c : Container) : bool :=
  match Strconv.ParseBool (defaultValue c) with
  | Some result => result
  | None => false
  end.

Definition defaultValueToInt (c : Container) : Z :=
  match Strconv.Atoi (defaultValue c) with
  | Some result => result
  | None => 0
  end.

Definition defaultValueToString (c : Container) : string := defaultValue c.

Definition defaultValueToTime (c : Container) : GoTime.Time :=
  if negb (isTime c (defaultValue c)) then GoTime.zero
  else parseTime c (defaultValue c).

Definition EnvBool (environ : gmap string string) (c : Container) : bool * bool :=
  let value := Getenv environ (envName c) in
  if negb (String.eqb value "") then
    match Strconv.ParseBool value with
    | Some result => (result, true)
    | None => (false, false)
    end
  else (false, false).

Definition EnvInt (environ : gmap string string) (c : Container) : Z * bool :=
  let value := Getenv environ (envName c) in
  if negb (String.eqb value "") then
    match Strconv.Atoi value with
    | Some result => (result, true)
    | None => (0, false)
    end
  else (0, false).

Definition EnvString (environ : gmap string string) (c : Container) : string * bool :=
  let value := Getenv environ (envName c) in
  if negb (String.eqb value "") then (value, true) else (value, false).

Definition EnvTime (environ : gmap string string) (c : Container) : GoTime.Time * bool :=
  let value := Getenv environ (envName c) in
  if negb (String.eqb value "") then (parseTime c value, true)
  else (GoTime.zero, false).

Definition EnvFileBool (c : Container) : bool * bool :=
  match envFile c !! envName c with
  | Some value =>
      match Strconv.ParseBool value with
      | Some result => (result, true)
      | None => (false, false)
      end
  | None => (false, false)
  end.

Definition EnvFileInt (c : Container) : Z * bool :=
  match envFile c !! envName c with
  | Some value =>
      match Strconv.Atoi value with
      | Some result => (result, true)
      | None => (0, false)
      end
  | None => (0, false)
  end.

Definition EnvFileString (c : Container) : string * bool :=
  match envFile c !! envName c with
  | Some value => (value, true)
  | None => (EmptyString, false)
  end.

Definition EnvFileTime (c : Container) : GoTime.Time * bool :=
  match envFile c !! envName c with
  | Some value => (parseTime c value, true)
  | None => (GoTime.zero, false)
  end.

Definition FlagBool (c : Container) : bool * bool :=
  match boolValue c with
  | Some v => if negb (Bool.eqb v (defaultValueToBool c)) then (v, true) else (false, false)
  | None => (false, false)
  end.

Definition FlagInt (c : Container) : Z * bool :=
  match intValue c with
  | Some v => if negb (v =? defaultValueToInt c) then (v, true) else (0, false)
  | None => (0, false)
  end.

Definition FlagString (c : Container) : string * bool :=
  match stringValue c with
  | Some v =>
      if negb (String.eqb v (defaultValueToString c)) then (v, true)
      else (EmptyString, false)
  | None => (EmptyString, false)
  end.

Definition FlagTime (c : Container) : GoTime.Time * bool :=
  match timeValue c with
  | Some v =>
      if negb (String.eqb v (defaultValue c)) then (parseTime c v, true)
      else (GoTime.zero, false)
  | None => (GoTime.zero, false)
  end.

Section WithParseFloat.

(** [strconv.ParseFloat(s, 64)], [None] when it returns an error. *)
Variable ParseFloat : string -> option float.

Definition defaultValueToFloat (c : Container) : float :=
  match ParseFloat (defaultValue c) with
  | Some result => result
  | None => 0%float
  end.

Definition EnvFloat (environ : gmap string string) (c : Container) : float * bool :=
  let value := Getenv environ (envName c) in
  if negb (String.eqb value "") then
    match ParseFloat value with
    | Some result => (result, true)
    | None => (0%float, false)
    end
  else (0%float, false).

Definition EnvFileFloat (c : Container) : float * bool :=
  match envFile c !! envName c with
  | Some value =>
      match ParseFloat value with
      | Some result => (result, true)
      | None => (0%float, false)
      end
  | None => (0%float, false)
  end.

(** Go's [!=] on [float64] is the IEEE 754 one: a NaN differs from itself. *)
Definition FlagFloat (c : Container) : float * bool :=
  match floatValue c with
  | Some v =>
      if negb (PrimFloat.eqb v (defaultValueToFloat c)) then (v, true)
      else (0%float, false)
  | None => (0%float, false)
  end.

Definition SetDefaultValueOnConfig (c : Container) (config : Struct) : option Struct :=
  config ← (if IsBool c then SetConfigBool c (defaultValueToBool c) config else Some config);
  config ← (if IsFloat c then SetConfigFloat c (defaultValueToFloat c) config else Some config);
  config ← (if IsInt c then SetConfigInt c (defaultValueToInt c) config else Some config);
  config ← (if IsString c then SetConfigString c (defaultValueToString c) config
            else Some config);
  if IsTime c then SetConfigTime c (defaultValueToTime c) config else Some config.

(** [addFlag]: [flag.Bool], [flag.Float64], [flag.Int] and [flag.String]
    define the flag [flagName] with a variable that holds the default, and
    hand out the pointer to that variable; they panic when the flag set
    refuses the name. *)
Definition addFlag (c : Container) (fs : Flag.FlagSet)
    : option (Container * Flag.FlagSet) :=
  '(bv, fs) ←
    (if IsBool c then
       fs ← Flag.Var (Flag.Bool (defaultValueToBool c)) (flagName c) fs;
       Some (Some (defaultValueToBool c), fs)
     else Some (boolValue c, fs));
  '(fv, fs) ←
    (if IsFloat c then
       fs ← Flag.Var (Flag.Float64 (defaultValueToFloat c)) (flagName c) fs;
       Some (Some (defaultValueToFloat c), fs)
     else Some (floatValue c, fs));
  '(iv, fs) ←
    (if IsInt c then
       fs ← Flag.Var (Flag.Int (defaultValueToInt c)) (flagName c) fs;
       Some (Some (defaultValueToInt c), fs)
     else Some (intValue c, fs));
  '(sv, fs) ←
    (if IsString c then
       fs ← Flag.Var (Flag.String_ (defaultValueToString c)) (flagName c) fs;
       Some (Some (defaultValueToString c), fs)
     else Some (stringValue c, fs));
  '(tv, fs) ←
    (if IsTime c then
       fs ← Flag.Var (Flag.String_ (defaultValueToString c)) (flagName c) fs;
       Some (Some (defaultValueToString c), fs)
     else Some (timeValue c, fs));
  Some (mkContainer bv (defaultValue c) (description c) (envFile c) (envName c)
          (field c) (fieldName c) (fieldType c) (fieldValue c) (flagName c)
          fv iv sv tv, fs).

(** [New], with the flag set of the process, which it hands back.
    [None] is a panic: of [t.Field(index)] on an index the struct does
    not have, or of [addFlag]. *)
Definition New (fs : Flag.FlagSet) (config : Struct) (index : nat)
    (envFile : gmap string string)
    : option (Container * option error * Struct * Flag.FlagSet) :=
  '(f, _) ← config !! index;
  let result :=
    mkContainer None EmptyString EmptyString envFile EmptyString f (Name f)
      (ToLower (TypeString f)) None EmptyString None None None None in
  let canSet := CanSet f in
  if negb canSet then Some (result, Some ErrCantSet, config, fs)
  else
    match Lookup (Tag f) TagFlagName with
    | None => Some (result, Some ErrNoFlagName, config, fs)
    | Some flagName =>
        let result :=
          mkContainer None (Get (Tag f) TagDefaultValue) (Get (Tag f) TagDescription)
            envFile (Get (Tag f) TagEnvName) f (Name f) (ToLower (TypeString f))
            (Some index) flagName None None None None in
        '(result, fs) ←
          (if negb (Flag.parsed fs) then addFlag result fs else Some (result, fs));
        config ← SetDefaultValueOnConfig result config;
        Some (result, None, config, fs)
    end.

End WithParseFloat.

(** The container with its flag variables read anew.  A pointer that
    [addFlag] stored is the address of the variable of the flag
    [flagName] in the flag set, whatever kind of flag the pointer is for;
    a nil pointer stays nil. *)
Definition load (fs : Flag.FlagSet) (c : Container) : Container :=
  let var := Flag.formal fs !! flagName c in
  mkContainer
    (match boolValue c, var with
     | Some _, Some (Flag.Bool b) => Some b
     | p, _ => p
     end)
    (defaultValue c) (description c) (envFile c) (envName c) (field c)
    (fieldName c) (fieldType c) (fieldValue c) (flagName c)
    (match floatValue c, var with
     | Some _, Some (Flag.Float64 f) => Some f
     | p, _ => p
     end)
    (match intValue c, var with
     | Some _, Some (Flag.Int i) => Some i
     | p, _ => p
     end)
    (match stringValue c, var with
     | Some _, Some (Flag.String_ s) => Some s
     | p, _ => p
     end)
    (match timeValue c, var with
     | Some _, Some (Flag.String_ s) => Some s
     | p, _ => p
     end).

End Container.

(** ** Package [configinator] *)

Module Configinator.
Import Reflect Container.

(** What [Behold] finds of the process: the environment, the text of the
    file [.env] when there is one, the flag set as the program left it,
    and the command line, [os.Args] without the name of the program. *)
Record World := mkWorld {
  environ : gmap string string;
  dotenv : option string;
  flags : Flag.FlagSet;
  args : list string
}.

(** The env file, if there is one: empty without a file, a panic ([None])
    when the file does not parse. *)
Definition readEnvFile (dotenv : option string) : option (gmap string string) :=
  match dotenv with
  | Some text =>
      match Env.parse text with
      | (envFile, None) => Some envFile
      | (_, Some _) => None
      end
  | None => Some ∅
  end.

Section WithParseFloat.

Variable ParseFloat : string -> option float.

(** [if value, ok := accessor(); ok { set(value) }] *)
Definition whenOk {A} (r : A * bool) (set : A → Struct → option Struct)
    (config : Struct) : option Struct :=
  if r.2 then set r.1 config else Some config.

(** The three steps taken for a field of one type: the environment, the
    env file and the flag, each writing over what came before. *)
Definition sources {A} (set : A → Struct → option Struct) (env file flag : A * bool)
    (config : Struct) : option Struct :=
  config ← whenOk env set config;
  config ← whenOk file set config;
  whenOk flag set config.

(** The body of the second loop of [Behold], for one container. *)
Definition resolve (environ : gmap string string) (c : Container) (config : Struct)
    : option Struct :=
  config ←
    (if IsBool c then
       sources (SetConfigBool c) (EnvBool environ c) (EnvFileBool c) (FlagBool c) config
     else Some config);
  config ←
    (if IsFloat c then
       sources (SetConfigFloat c) (EnvFloat ParseFloat environ c)
         (EnvFileFloat ParseFloat c) (FlagFloat ParseFloat c) config
     else Some config);
  config ←
    (if IsInt c then
       sources (SetConfigInt c) (EnvInt environ c) (EnvFileInt c) (FlagInt c) config
     else Some config);
  if IsString c then
    sources (SetConfigString c) (EnvString environ c) (EnvFileString c) (FlagString c)
      config
  else Some config.

(** The first loop: a container for every field, errors dropped. *)
Fixpoint newContainers (fs : Flag.FlagSet) (envFile : gmap string string)
    (indexes : list nat) (config : Struct)
    : option (list Container * Struct * Flag.FlagSet) :=
  match indexes with
  | [] => Some ([], config, fs)
  | index :: rest =>
      '(c, _, config, fs) ← New ParseFloat fs config index envFile;
      '(cs, config, fs) ← newContainers fs envFile rest config;
      Some (c :: cs, config, fs)
  end.

(** [if len(os.Args) > 1 { flag.Parse() }] *)
Definition parseFlags (args : list string) (fs : Flag.FlagSet) : option Flag.FlagSet :=
  match args with
  | [] => Some fs
  | _ => Flag.Parse ParseFloat args fs
  end.

(** The second loop. *)
Fixpoint resolveAll (environ : gmap string string) (containers : list Container)
    (config : Struct) : option Struct :=
  match containers with
  | [] => Some config
  | c :: rest => config ← resolve environ c config; resolveAll environ rest config
  end.

(** [Behold].  The second loop reads the flag variables through the
    pointers of the containers, after [flag.Parse]. *)
Definition Behold (w : World) (config : Struct) : option Struct :=
  envFile ← readEnvFile (dotenv w);
  '(containers, config, fs) ←
    newContainers (flags w) envFile (seq 0 (length config)) config;
  fs ← parseFlags (args w) fs;
  resolveAll (environ w) (load fs <$> containers) config.

End WithParseFloat.

End Configinator.

(** ** Package [configinator], the earlier [New]

    Before [Behold] the package had [New], which hands every field to
    [getValue] and leaves the rest to [viper].  [getValue] calls [viper]
    and defines a flag; the calls to [viper] are kept in the order made,
    the flag goes to the flag set, a panic is [None]. *)

Module Legacy.
Import Reflect.

Inductive Call :=
| SetDefault (key : string) (value : Value)                   (* viper.SetDefault *)
| BindEnv (key envName : string).                             (* viper.BindEnv *)

Section WithParseFloat.

Variable ParseFloat : string -> option float.

(** A [case] of a Go [switch] does not fall through: the empty cases of
    [int], [int32] and [float] do nothing. *)
Definition getValue (fieldType flagName envName defaultValue description : string)
    (fs : Flag.FlagSet) : option (list Call * Flag.FlagSet) :=
  '(calls, fs) ←
    (if String.eqb fieldType "bool" then
       boolValue ← Strconv.ParseBool defaultValue;
       let calls := [SetDefault flagName (VBool boolValue)] in
       fs ← Flag.Var (Flag.Bool boolValue) flagName fs;
       Some (calls, fs)
     else if String.eqb fieldType "int" then Some ([], fs)
     else if String.eqb fieldType "int32" then Some ([], fs)
     else if String.eqb fieldType "int64" then
       intValue ← Strconv.Atoi defaultValue;
       let calls := [SetDefault flagName (VInt intValue)] in
       fs ← Flag.Var (Flag.Int intValue) flagName fs;
       Some (calls, fs)
     else if String.eqb fieldType "float" then Some ([], fs)
     else if String.eqb fieldType "float64" then
       floatValue ← ParseFloat defaultValue;
       let calls := [SetDefault flagName (VFloat floatValue)] in
       fs ← Flag.Var (Flag.Float64 floatValue) flagName fs;
       Some (calls, fs)
     else
       let calls := [SetDefault flagName (VString defaultValue)] in
       fs ← Flag.Var (Flag.String_ defaultValue) flagName fs;
       Some (calls, fs));
  Some (calls ++ [BindEnv flagName envName], fs).

End WithParseFloat.

End Legacy.

(** * The claims' vocabulary

    Definitions that follow the words of the specification, to be
    compared with the embedding of the code above. *)

Module EnvSpec.
Import Chars GoStrings.

(** A value of at least two characters wrapped in a pair of the quote [q]. *)
Definition wrapped (q : ascii) (v : string) : bool :=
  (2 <=? len v)
  && HasPrefix v (String q EmptyString)
  && HasPrefix (rev v) (String q EmptyString).

(** First pass: every escape sequence backslash-n becomes a line feed and
    backslash-r a carriage return; any other pair of a backslash and a
    character stays as it is. *)
Fixpoint expandEscapes (s : string) : string :=
  match s with
  | String a r =>
      match r with
      | String c r' =>
          if Ascii.eqb a BS then
            if Ascii.eqb c "n" then String LF (expandEscapes r')
            else if Ascii.eqb c "r" then String CR (expandEscapes r')
            else String a (String c (expandEscapes r'))
          else String a (expandEscapes r)
      | EmptyString => s
      end
  | EmptyString => EmptyString
  end.

(** Second pass: a backslash before a character other than the dollar
    sign is removed and the character kept; a backslash before a dollar
    sign stays. *)
Fixpoint unescape (s : string) : string :=
  match s with
  | String a r =>
      match r with
      | String c r' =>
          if Ascii.eqb a BS && negb (Ascii.eqb c DOLLAR) then String c (unescape r')
          else String a (unescape r)
      | EmptyString => s
      end
  | EmptyString => EmptyString
  end.

End EnvSpec.

Module ContainerSpec.
Import Reflect Container Configinator.

(** The lower-case names of the field types with a resolution pass, and
    of all the supported types. *)
Definition resolvedTypes : list string := ["bool"; "int"; "float64"; "string"].
Definition supportedTypes : list string := resolvedTypes ++ ["time.time"].

Definition supported (ty : string) : bool := bool_decide (ty ∈ supportedTypes).

(** The zero value of a type. *)
Definition zeroValue (ty : string) : Value :=
  if String.eqb ty "bool" then VBool false
  else if String.eqb ty "int" then VInt 0
  else if String.eqb ty "float64" then VFloat 0%float
  else if String.eqb ty "string" then VString EmptyString
  else if String.eqb ty "time.time" then VTime GoTime.zero
  else VOther.

(** Go's [!=] on two values of one type. *)
Definition differs (a b : Value) : bool :=
  match a, b with
  | VBool x, VBool y => negb (Bool.eqb x y)
  | VInt x, VInt y => negb (x =? y)
  | VFloat x, VFloat y => negb (PrimFloat.eqb x y)
  | VString x, VString y => negb (String.eqb x y)
  | _, _ => true
  end.

(** The value a flag variable holds. *)
Definition ofFlag (a : Flag.Value) : Value :=
  match a with
  | Flag.Bool b => VBool b
  | Flag.Int i => VInt i
  | Flag.Float64 f => VFloat f
  | Flag.String_ s => VString s
  end.

(** The value an accessor found, if it found one. *)
Definition found {A} (inj : A → Value) (r : A * bool) : option Value :=
  if r.2 then Some (inj r.1) else None.

Definition orElse {A} (o1 o2 : option A) : option A :=
  match o1 with Some _ => o1 | None => o2 end.

(** The value of the last source that supplied one: the flag's, or else
    the env file's, or else the environment's. *)
Definition lastFound {A} (inj : A → Value) (env file flag : A * bool) : option Value :=
  orElse (found inj flag) (orElse (found inj file) (found inj env)).

(** The timestamp a text stands for: its parse by the first of the
    layouts, in their order, that parses it. *)
Definition timestampOf (s : string) : option GoTime.Time :=
  head (omap (λ layout, GoTime.Parse layout.2 s) timeFormats).

Section WithParseFloat.

Variable ParseFloat : string -> option float.

(** The type-appropriate parse of a text, for a supported type. *)
Definition parseAs (ty s : string) : option Value :=
  if String.eqb ty "bool" then VBool <$> Strconv.ParseBool s
  else if String.eqb ty "int" then VInt <$> Strconv.Atoi s
  else if String.eqb ty "float64" then VFloat <$> ParseFloat s
  else if String.eqb ty "string" then Some (VString s)
  else if String.eqb ty "time.time" then VTime <$> timestampOf s
  else None.

(** The parse of the default, or the zero value when it does not parse. *)
Definition parsedDefault (ty d : string) : Value := default (zeroValue ty) (parseAs ty d).



(** A flag variable supplies its value when it differs from the default. *)
Definition pointerSource (ty d : string) (p : option Value) : option Value :=
  v ← p; if differs v (parsedDefault ty d) then Some v else None.


(** The flag variable defined for a field of type [ty] with the default
    [d], holding the default: none for a type that is not supported, a
    string variable for a timestamp. *)
Definition defaultFlag (ty d : string) : option Flag.Value :=
  if String.eqb ty "bool" then Some (Flag.Bool (default false (Strconv.ParseBool d)))
  else if String.eqb ty "float64" then Some (Flag.Float64 (default 0%float (ParseFloat d)))
  else if String.eqb ty "int" then Some (Flag.Int (default 0 (Strconv.Atoi d)))
  else if String.eqb ty "string" then Some (Flag.String_ d)
  else if String.eqb ty "time.time" then Some (Flag.String_ d)
  else None.

(** The flag variable of a container for a field of type [ty]. *)
Definition pointerOf (ty : string) (c : Container) : option Value :=
  if String.eqb ty "bool" then VBool <$> boolValue c
  else if String.eqb ty "int" then VInt <$> intValue c
  else if String.eqb ty "float64" then VFloat <$> floatValue c
  else if String.eqb ty "string" then VString <$> stringValue c
  else None.

(** What the resolution pass writes for a container, if anything. *)
Definition resolved (environ : gmap string string) (c : Container) : option Value :=
  if IsBool c then lastFound VBool (EnvBool environ c) (EnvFileBool c) (FlagBool c)
  else if IsFloat c then
    lastFound VFloat (EnvFloat ParseFloat environ c) (EnvFileFloat ParseFloat c)
      (FlagFloat ParseFloat c)
  else if IsInt c then lastFound VInt (EnvInt environ c) (EnvFileInt c) (FlagInt c)
  else if IsString c then
    lastFound VString (EnvString environ c) (EnvFileString c) (FlagString c)
  else None.

(** The flag set once [New] has defined the flag of a field of type
    [ty]: no flag is defined when the flags were parsed before, or for a
    type that is not supported; [None] is the panic of a refused name. *)
Definition withFlagOf (fs : Flag.FlagSet) (ty d name : string) : option Flag.FlagSet :=
  if Flag.parsed fs then Some fs
  else
    match defaultFlag ty d with
    | Some v => Flag.Var v name fs
    | None => Some fs
    end.

(** The container with the pointer to its flag variable, which holds the
    default. *)
Definition withFlag (c : Container) : Container :=
  mkContainer
    (if IsBool c then Some (defaultValueToBool c) else boolValue c)
    (defaultValue c) (description c) (envFile c) (envName c) (field c)
    (fieldName c) (fieldType c) (fieldValue c) (flagName c)
    (if IsFloat c then Some (defaultValueToFloat ParseFloat c) else floatValue c)
    (if IsInt c then Some (defaultValueToInt c) else intValue c)
    (if IsString c then Some (defaultValueToString c) else stringValue c)
    (if IsTime c then Some (defaultValueToString c) else timeValue c).

(** The container [New] builds for a field that can be set and has the
    flag name [name]; [parsed] tells whether the flags were parsed
    before, in which case it has no flag variable. *)
Definition containerFor (parsed : bool) (envFile : gmap string string) (index : nat)
    (f : StructField) (name : string) : Container :=
  let c :=
    mkContainer None (Get (Tag f) TagDefaultValue) (Get (Tag f) TagDescription)
      envFile (Get (Tag f) TagEnvName) f (Name f) (ToLower (TypeString f))
      (Some index) name None None None None in
  if negb parsed then withFlag c else c.

(** The struct once the default of field [index] is written. *)
Definition withDefault (ty d : string) (index : nat) (config : Struct) : Struct :=
  if supported ty then Set_ index (parsedDefault ty d) config else config.

End WithParseFloat.

End ContainerSpec.

Module AccessorSpec.
Import Reflect Container ContainerSpec.

(** What the flag accessor of a field type reports, if it reports a value. *)
Definition flagAccessor (ParseFloat : string → option float) (ty : string)
    (c : Container) : option Value :=
  if String.eqb ty "bool" then found VBool (FlagBool c)
  else if String.eqb ty "int" then found VInt (FlagInt c)
  else if String.eqb ty "float64" then found VFloat (FlagFloat ParseFloat c)
  else if String.eqb ty "string" then found VString (FlagString c)
  else if String.eqb ty "time.time" then found VTime (FlagTime c)
  else None.

End AccessorSpec.

Module FlagSpec.
Import Chars GoStrings.

(** Two flag variables of one type. *)
Definition sameKind (a b : Flag.Value) : bool :=
  match a, b with
  | Flag.Bool _, Flag.Bool _ | Flag.Int _, Flag.Int _
  | Flag.Float64 _, Flag.Float64 _ | Flag.String_ _, Flag.String_ _ => true
  | _, _ => false
  end.

(** The flag set refuses to define a flag of the name: the name begins
    with [-], has a [=] in it or is the name of a flag defined already. *)
Definition refused (name : string) (fs : Flag.FlagSet) : Prop :=
  HasPrefix name "-" = true ∨ Contains name EQUALS = true
  ∨ is_Some (Flag.formal fs !! name).

(** The flags of [m'] are those of [m], each of the type it had. *)
Definition keeps (m m' : gmap string Flag.Value) : Prop :=
  ∀ name, option_Forall2 (λ a b, sameKind a b = true) (m !! name) (m' !! name).

(** The flag set with one more flag. *)
Definition define (name : string) (v : Flag.Value) (fs : Flag.FlagSet) : Flag.FlagSet :=
  Flag.mkFlagSet (<[name := v]> (Flag.formal fs)) (Flag.parsed fs).

End FlagSpec.

Module BeholdSpec.
Import Reflect Container Configinator ContainerSpec.

Section WithParseFloat.

Variable ParseFloat : string -> option float.

(** The flag set as [Behold] leaves it: the flags of the program and
    those of the fields, after [flag.Parse]. *)
Definition flagsAfter (w : World) (config : Struct) : option Flag.FlagSet :=
  envFile ← readEnvFile (dotenv w);
  '(_, _, fs) ← newContainers ParseFloat (flags w) envFile (seq 0 (length config)) config;
  parseFlags ParseFloat (args w) fs.







End WithParseFloat.

End BeholdSpec.

(** * Vocabulary of the further properties *)

Module TextSpec.
Import Chars GoStrings.

(** The text [s] has none of the characters [cs]. *)
Definition without (s : string) (cs : list ascii) : Prop :=
  Forall (λ c, Contains s c = false) cs.

(** The text [s] between two quotes [q]. *)
Definition quoted (q : ascii) (s : string) : string :=
  String q (s +:+ String q EmptyString).

(** The text with a carriage return put in front of every line feed. *)
Fixpoint toCRLF (text : string) : string :=
  match text with
  | EmptyString => EmptyString
  | String c r =>
      if Ascii.eqb c LF then String CR (String LF (toCRLF r))
      else String c (toCRLF r)
  end.

End TextSpec.

Module NewSpec.
Import Reflect Container.

(** The container [New] returns, with its error, for a field that cannot
    be set or has no flag name: only the env file, the field and its type
    are recorded; it refers to no field and has no flag variable. *)
Definition errorContainer (envFile : gmap string string) (f : StructField) : Container :=
  mkContainer None EmptyString EmptyString envFile EmptyString f (Name f)
    (ToLower (TypeString f)) None EmptyString None None None None.

End NewSpec.

Module LegacySpec.

(** The variable of the flag that the earlier [getValue] defines for a
    field: the parse of the default for a [bool], an [int64] or a
    [float64] field, the text of the default for the other types. *)
Definition variableFor (ParseFloat : string → option float)
    (fieldType defaultValue : string) (a : Flag.Value) : Prop :=
  match a with
  | Flag.Bool b => fieldType = "bool" ∧ Strconv.ParseBool defaultValue = Some b
  | Flag.Int n => fieldType = "int64" ∧ Strconv.Atoi defaultValue = Some n
  | Flag.Float64 x => fieldType = "float64" ∧ ParseFloat defaultValue = Some x
  | Flag.String_ s =>
      fieldType ≠ "bool" ∧ fieldType ≠ "int64" ∧ fieldType ≠ "float64" ∧ s = defaultValue
  end.

End LegacySpec.

(** * Sample inputs *)

Module Samples.
Import Chars Reflect Container Configinator.

(** A text between double quotes. *)
Definition dq (s : string) : string := String DQ s +:+ String DQ "".

(** A few literals of [strconv.ParseFloat], for examples. *)
Definition ParseFloat_literals (s : string) : option float :=
  if String.eqb s "0" then Some 0%float
  else if String.eqb s "1.5" then Some 1.5%float
  else if String.eqb s "2.25" then Some 2.25%float
  else if String.eqb s "NaN" then Some nan
  else None.

Definition portField : StructField :=
  mkStructField "Port" "int"
    [("flag", "port"); ("env", "HOST_PORT"); ("default", "8080")] true.

Definition startField : StructField :=
  mkStructField "Start" "time.Time"
    [("flag", "start"); ("env", "START"); ("default", "2006-01-02")] true.

Definition config0 : Struct := [(portField, VInt 0); (startField, VTime GoTime.zero)].

(** A float64 field whose default is not a number. *)
Definition ratioField : StructField :=
  mkStructField "Ratio" "float64" [("flag", "ratio"); ("default", "NaN")] true.

Definition values (r : option Struct) : option (list Value) :=
  match r with Some config => Some (map snd config) | None => None end.

End Samples.

Module MoreSamples.
Import Reflect.

(** A struct with a field that is resolved, an unexported field, a field
    with no flag name and a field of a type that is not supported. *)
Definition hostField : StructField :=
  mkStructField "Host" "string"
    [("flag", "host"); ("env", "HOST"); ("default", "localhost:8080")] true.

Definition secretField : StructField :=
  mkStructField "secret" "string" [("flag", "secret"); ("default", "none")] false.

Definition labelField : StructField :=
  mkStructField "Label" "string" [("env", "LABEL"); ("default", "none")] true.

Definition countField : StructField :=
  mkStructField "Count" "int32" [("flag", "count"); ("default", "3")] true.

Definition config1 : Struct :=
  [(hostField, VString ""); (secretField, VString "kept");
   (labelField, VString "as is"); (countField, VOther)].

End MoreSamples.

(** * Examples *)

Module GoStringsExamples.
Import GoStrings.

Example split_hash : Split "a#b##c" Chars.HASH = ["a"; "b"; ""; "c"].
Proof. reflexivity. Qed.

Example split_empty : Split "" Chars.HASH = [""].
Proof. reflexivity. Qed.

Example splitn_eq : SplitN2 "a=b=c" Chars.EQUALS = ["a"; "b=c"].
Proof. reflexivity. Qed.

Example splitn_none : SplitN2 "abc" Chars.EQUALS = ["abc"].
Proof. reflexivity. Qed.

Example trimspace_ascii :
  TrimSpace (String "009" "  export K " +:+ String Chars.CR "") = "export K".
Proof. reflexivity. Qed.

(* U+00A0 in front, U+2003 behind *)
Example trimspace_unicode :
  TrimSpace (String "194" (String "160" "K")
             +:+ String "226" (String "128" (String "131" ""))) = "K".
Proof. reflexivity. Qed.

Example trim_only_spaces : Trim (String "009" " v  ") Chars.SP = String "009" " v".
Proof. reflexivity. Qed.

End GoStringsExamples.

Module StrconvExamples.
Import Strconv.

Example atoi_port : Atoi "8080" = Some 8080.
Proof. reflexivity. Qed.

Example atoi_signed : Atoi "-12" = Some (-12) /\ Atoi "+7" = Some 7.
Proof. split; reflexivity. Qed.

Example atoi_rejects :
  Atoi "" = None /\ Atoi "-" = None /\ Atoi "12a" = None /\ Atoi "1_0" = None.
Proof. repeat split; reflexivity. Qed.

Example atoi_range :
  Atoi "9223372036854775807" = Some maxInt
  /\ Atoi "9223372036854775808" = None
  /\ Atoi "-9223372036854775808" = Some minInt.
Proof. repeat split; reflexivity. Qed.

Example parsebool_table :
  ParseBool "T" = Some true /\ ParseBool "False" = Some false
  /\ ParseBool "yes" = None /\ ParseBool "" = None.
Proof. repeat split; reflexivity. Qed.

Example parseint_bases :
  map ParseInt ["6060"; "-12"; "0x1F"; "0b101"; "0o17"; "017"; "1_000"; "0x_1F"]
  = map Some [6060; -12; 31; 5; 15; 15; 1000; 31].
Proof. vm_compute. reflexivity. Qed.

Example parseint_rejects :
  map ParseInt [""; "-"; "0x"; "08"; "_1"; "1_"; "1__0"; "12a"; "9223372036854775808"]
  = map (λ _, None) (seq 0 9).
Proof. vm_compute. reflexivity. Qed.

End StrconvExamples.

Module EnvExamples.
Import Chars GoStrings Env Samples.

Example parse_plain : parseLine "KEY=value" = ("KEY", "value", None).
Proof. reflexivity. Qed.

Example parse_comment : parseLine "KEY=value # comment" = ("KEY", "value", None).
Proof. reflexivity. Qed.

Example parse_quoted_hash : parseLine ("KEY=" +:+ dq "a#b") = ("KEY", "a#b", None).
Proof. reflexivity. Qed.

Example parse_newline :
  parseLine ("KEY=" +:+ dq "line1\nline2") = ("KEY", "line1" +:+ String LF "line2", None).
Proof. reflexivity. Qed.

Example parse_single : parseLine "KEY='line1\nline2'" = ("KEY", "line1\nline2", None).
Proof. reflexivity. Qed.

Example parse_dollar : parseLine ("KEY=" +:+ dq "a\$b\\c\qd") = ("KEY", "a\$b\cqd", None).
Proof. reflexivity. Qed.

Example parse_export : parseLine "export KEY=value" = ("KEY", "value", None).
Proof. reflexivity. Qed.

Example parse_exported : parseLine "exported=1" = ("ed", "1", None).
Proof. reflexivity. Qed.

Example parse_nokey : parseLine "=value" = ("", "value", None).
Proof. reflexivity. Qed.

Example parse_noeq : parseLine "KEY" = ("", "", Some (ErrSeparate "KEY")).
Proof. reflexivity. Qed.

Example parse_text :
  parse ("# settings" +:+ String LF "A=1" +:+ String CR (String LF "")
         +:+ String LF "export B = two  ")
  = (<["B" := "two"]> (<["A" := "1"]> ∅), None).
Proof. vm_compute. reflexivity. Qed.

End EnvExamples.

Module FlagExamples.
Import Samples.

Definition flags0 : Flag.FlagSet :=
  Flag.mkFlagSet {["port" := Flag.Int 8080; "v" := Flag.Bool false;
                   "name" := Flag.String_ "x"]} false.

Example parse_forms :
  Flag.Parse ParseFloat_literals ["-port"; "6060"; "--v"; "-name=a=b"; "rest"; "-port=1"]
    flags0
  = Some (Flag.mkFlagSet {["port" := Flag.Int 6060; "v" := Flag.Bool true;
                           "name" := Flag.String_ "a=b"]} true).
Proof. vm_compute. reflexivity. Qed.

Example parse_terminator :
  Flag.Parse ParseFloat_literals ["-v=true"; "--"; "-port=1"] flags0
  = Some (Flag.mkFlagSet {["port" := Flag.Int 8080; "v" := Flag.Bool true;
                           "name" := Flag.String_ "x"]} true).
Proof. vm_compute. reflexivity. Qed.

Example parse_exits :
  map (λ arguments, Flag.Parse ParseFloat_literals arguments flags0)
    [["-undefined"]; ["-h"]; ["-port"]; ["-port=abc"]; ["-v=maybe"]; ["---v"]; ["-=1"]]
  = map (λ _, None) (seq 0 7).
Proof. vm_compute. reflexivity. Qed.

Example var_refuses :
  map (λ name, Flag.Var (Flag.Bool false) name flags0) ["-v"; "a=b"; "port"]
  = [None; None; None]
  ∧ is_Some (Flag.Var (Flag.Bool false) "" flags0).
Proof. split; [vm_compute; reflexivity|]. vm_compute. by eexists. Qed.

End FlagExamples.

Module ConfiginatorExamples.
Import Chars Reflect Container Configinator Samples.

Example all_sources :
  values (Behold ParseFloat_literals
            (mkWorld {["HOST_PORT" := "9090"]} (Some "HOST_PORT=7070") Flag.CommandLine
               ["--port=6060"]) config0)
  = Some [VInt 6060; VTime (GoTime.mkTime 2006 1 2 0 0 0 0 GoTime.UTC)].
Proof. vm_compute. reflexivity. Qed.

Example no_flag :
  values (Behold ParseFloat_literals
            (mkWorld {["HOST_PORT" := "9090"]} (Some "HOST_PORT=7070") Flag.CommandLine [])
            config0)
  = Some [VInt 7070; VTime (GoTime.mkTime 2006 1 2 0 0 0 0 GoTime.UTC)].
Proof. vm_compute. reflexivity. Qed.

Example env_only :
  values (Behold ParseFloat_literals
            (mkWorld {["HOST_PORT" := "9090"]} None Flag.CommandLine []) config0)
  = Some [VInt 9090; VTime (GoTime.mkTime 2006 1 2 0 0 0 0 GoTime.UTC)].
Proof. vm_compute. reflexivity. Qed.

Example defaults_only :
  values (Behold ParseFloat_literals (mkWorld ∅ None Flag.CommandLine []) config0)
  = Some [VInt 8080; VTime (GoTime.mkTime 2006 1 2 0 0 0 0 GoTime.UTC)].
Proof. vm_compute. reflexivity. Qed.

Example parse_instant :
  parseTimeIn timeFormats "2006-01-02T15:04:05Z"
  = Some (GoTime.mkTime 2006 1 2 15 4 5 0 GoTime.UTC).
Proof. vm_compute. reflexivity. Qed.

(** Flags of the program, parsed before [Behold], are left alone: the
    fields define no flag and take no value from the command line. *)
Example flags_parsed_before :
  values (Behold ParseFloat_literals
            (mkWorld {["HOST_PORT" := "9090"]} None
               (Flag.mkFlagSet {["port" := Flag.Int 6060]} true) ["--port=6060"]) config0)
  = Some [VInt 9090; VTime (GoTime.mkTime 2006 1 2 0 0 0 0 GoTime.UTC)].
Proof. vm_compute. reflexivity. Qed.

(** A flag that no field declares ends the process, and so does a flag
    name declared twice. *)
Example undeclared_flag :
  Behold ParseFloat_literals (mkWorld ∅ None Flag.CommandLine ["--verbose"]) config0 = None.
Proof. vm_compute. reflexivity. Qed.

Example flag_declared_twice :
  Behold ParseFloat_literals (mkWorld ∅ None Flag.CommandLine [])
    [(portField, VInt 0); (portField, VInt 0)] = None.
Proof. vm_compute. reflexivity. Qed.

Example parse_times :
  parseTimeIn timeFormats "2006-01-02 15:04:05.25"
    = Some (GoTime.mkTime 2006 1 2 15 4 5 250000000 GoTime.UTC)
  /\ parseTimeIn timeFormats "2006-01-02T15:04:05 CEST"
    = Some (GoTime.mkTime 2006 1 2 15 4 5 0 (GoTime.Abbrev "CEST"))
  /\ parseTimeIn timeFormats "2006-01-02T15:04:05-0700"
    = Some (GoTime.mkTime 2006 1 2 15 4 5 0 (GoTime.Offset (-25200)))
  /\ parseTimeIn timeFormats "2006-01-02T23:04:05 GMT+3"
    = Some (GoTime.mkTime 2006 1 3 2 4 5 0 (GoTime.Fixed "GMT+3" 10800))
  /\ parseTimeIn timeFormats "2006-02-30" = None
  /\ parseTimeIn timeFormats "garbage" = None.
Proof. vm_compute. repeat split; reflexivity. Qed.

End ConfiginatorExamples.

(** * Facts *)

(** ** Strings *)

Module GoStringsFacts.
Import Chars GoStrings.

Lemma app_cons (a : ascii) (s t : string) : String a s +:+ t = String a (s +:+ t).
Proof. reflexivity. Qed.

Lemma app_nil_r (s : string) : s +:+ "" = s.
Proof. induction s as [|a s IH]; [done|]. by rewrite app_cons, IH. Qed.

Lemma app_assoc (s t u : string) : (s +:+ t) +:+ u = s +:+ (t +:+ u).
Proof. induction s as [|a s IH]; [done|]. by rewrite !app_cons, IH. Qed.

Lemma length_app (s t : string) :
  String.length (s +:+ t) = (String.length s + String.length t)%nat.
Proof. induction s as [|a s IH]; [done|]. rewrite app_cons. simpl. by rewrite IH. Qed.

Lemma rev_onto_app (s acc : string) : rev_onto s acc = rev s +:+ acc.
Proof.
  unfold rev. revert acc.
  induction s as [|a s IH]; intros acc; [done|].
  simpl. rewrite IH, (IH (String a "")), app_assoc. done.
Qed.

Lemma rev_cons (a : ascii) (s : string) : rev (String a s) = rev s +:+ String a "".
Proof. unfold rev at 1. simpl. apply rev_onto_app. Qed.

Lemma rev_app (s t : string) : rev (s +:+ t) = rev t +:+ rev s.
Proof.
  induction s as [|a s IH].
  - by rewrite app_nil_r.
  - by rewrite app_cons, !rev_cons, IH, app_assoc.
Qed.

Lemma rev_involutive (s : string) : rev (rev s) = s.
Proof.
  induction s as [|a s IH]; [done|].
  by rewrite rev_cons, rev_app, IH.
Qed.

Lemma length_rev (s : string) : String.length (rev s) = String.length s.
Proof.
  induction s as [|a s IH]; [done|].
  rewrite rev_cons, length_app, IH. simpl. lia.
Qed.

Lemma Contains_app (s t : string) (c : ascii) :
  Contains (s +:+ t) c = Contains s c || Contains t c.
Proof.
  induction s as [|a s IH]; [done|].
  rewrite app_cons. simpl. by rewrite IH, orb_assoc.
Qed.

Lemma Contains_rev (s : string) (c : ascii) : Contains (rev s) c = Contains s c.
Proof.
  induction s as [|a s IH]; [done|].
  rewrite rev_cons, Contains_app, IH. simpl. rewrite orb_false_r. apply orb_comm.
Qed.

Lemma Contains_trimLeftByte (s : string) (b c : ascii) :
  Contains s c = false → Contains (trimLeftByte s b) c = false.
Proof.
  induction s as [|a s IH]; [done|].
  simpl. destruct (Ascii.eqb a b); [|done].
  intros [_ ?]%orb_false_iff. auto.
Qed.

Lemma Contains_Trim (s : string) (b c : ascii) :
  Contains s c = false → Contains (Trim s b) c = false.
Proof.
  intros H. unfold Trim.
  rewrite Contains_rev. apply Contains_trimLeftByte.
  rewrite Contains_rev. by apply Contains_trimLeftByte.
Qed.

Lemma drop_split (n : nat) (s : string) : ∃ p, s = p +:+ drop n s.
Proof.
  revert s. induction n as [|n IH]; intros s.
  - by exists "".
  - destruct s as [|a s]; [by exists ""|].
    destruct (IH s) as [p Hp]. exists (String a p).
    simpl. by rewrite app_cons, <- Hp.
Qed.

Lemma length_drop (n : nat) (s : string) :
  String.length (drop n s) = (String.length s - n)%nat.
Proof.
  revert s. induction n as [|n IH]; intros [|a s]; simpl; auto with lia.
Qed.

(** *** White space is trimmed once and for all *)

Lemma spaceWidth_length (fwd : bool) (s : string) :
  (spaceWidth fwd s ≤ String.length s)%nat.
Proof.
  destruct s as [|a [|b [|c s]]]; simpl; repeat case_match; lia.
Qed.

Lemma trimSpaces_S (fwd : bool) (fuel : nat) (s : string) :
  trimSpaces fwd (S fuel) s
  = match spaceWidth fwd s with
    | O => s
    | w => trimSpaces fwd fuel (drop w s)
    end.
Proof. reflexivity. Qed.

Lemma trimSpaces_head (fwd : bool) (fuel : nat) (s : string) :
  (String.length s ≤ fuel)%nat → spaceWidth fwd (trimSpaces fwd fuel s) = 0%nat.
Proof.
  revert s. induction fuel as [|fuel IH]; intros s Hlen.
  - destruct s; [done|simpl in Hlen; lia].
  - rewrite trimSpaces_S. destruct (spaceWidth fwd s) as [|w] eqn:Hw; [done|].
    apply IH. rewrite length_drop.
    pose proof (spaceWidth_length fwd s). lia.
Qed.

Lemma trimSpaces_id (fwd : bool) (fuel : nat) (s : string) :
  spaceWidth fwd s = 0%nat → trimSpaces fwd fuel s = s.
Proof. intros H. destruct fuel; [done|]. by rewrite trimSpaces_S, H. Qed.

Lemma trimSpaces_drop (fwd : bool) (fuel : nat) (s : string) :
  ∃ n, trimSpaces fwd fuel s = drop n s.
Proof.
  revert s. induction fuel as [|fuel IH]; intros s; [by exists 0%nat|].
  rewrite trimSpaces_S. destruct (spaceWidth fwd s) as [|w]; [by exists 0%nat|].
  destruct (IH (drop (S w) s)) as [n Hn]. exists (n + S w)%nat.
  rewrite Hn. clear. generalize (S w). intros m. revert s.
  induction m as [|m IHm]; intros s.
  - by rewrite Nat.add_0_r.
  - rewrite Nat.add_succ_r. destruct s as [|a s]; simpl.
    + by destruct n.
    + apply IHm.
Qed.

Lemma spaceWidth_prefix (p q : string) :
  spaceWidth true (p +:+ q) = 0%nat → spaceWidth true p = 0%nat.
Proof.
  destruct p as [|a [|b [|c p]]]; try done; rewrite ?app_cons; simpl.
  - destruct (asciiSpace a); [done|]. by intros _.
  - destruct (asciiSpace a); [done|]. destruct (space2 a b); [done|]. by intros _.
Qed.

Lemma TrimRightSpace_prefix (s : string) : ∃ q, s = TrimRightSpace s +:+ q.
Proof.
  unfold TrimRightSpace.
  destruct (trimSpaces_drop false (String.length s) (rev s)) as [n Hn].
  rewrite Hn.
  destruct (drop_split n (rev s)) as [p Hp].
  exists (rev p). rewrite <- rev_app, <- Hp. by rewrite rev_involutive.
Qed.

Lemma TrimLeftSpace_head (s : string) : spaceWidth true (TrimLeftSpace s) = 0%nat.
Proof. by apply trimSpaces_head. Qed.

Lemma TrimSpace_head (s : string) : spaceWidth true (TrimSpace s) = 0%nat.
Proof.
  unfold TrimSpace.
  destruct (TrimRightSpace_prefix (TrimLeftSpace s)) as [q Hq].
  apply (spaceWidth_prefix _ q). rewrite <- Hq. apply TrimLeftSpace_head.
Qed.

Lemma TrimSpace_tail (s : string) : spaceWidth false (rev (TrimSpace s)) = 0%nat.
Proof.
  unfold TrimSpace, TrimRightSpace. rewrite rev_involutive.
  apply trimSpaces_head. by rewrite length_rev.
Qed.

(** [TrimSpace] leaves no white space at either end: trimming again
    changes nothing. *)
Lemma TrimSpace_idemp (s : string) : TrimSpace (TrimSpace s) = TrimSpace s.
Proof.
  unfold TrimSpace at 1.
  unfold TrimLeftSpace. rewrite trimSpaces_id by apply TrimSpace_head.
  unfold TrimRightSpace. rewrite trimSpaces_id by apply TrimSpace_tail.
  apply rev_involutive.
Qed.

End GoStringsFacts.

(** ** The env-file parser *)

Module EnvFacts.
Import Chars GoStrings GoStringsFacts Env EnvSpec.

Lemma expandEscapes_other (a : ascii) (r : string) :
  Ascii.eqb a BS = false → expandEscapes (String a r) = String a (expandEscapes r).
Proof. intros Ha. destruct r as [|c r']; [done|]. simpl. by rewrite Ha. Qed.

Lemma unescape_other (a : ascii) (r : string) :
  Ascii.eqb a BS = false → unescape (String a r) = String a (unescape r).
Proof. intros Ha. destruct r as [|c r']; [done|]. simpl. by rewrite Ha. Qed.

(** The first replacement is the first pass of the specification. *)
Lemma replaceAll_expandNewline (fuel : nat) :
  ∀ s, (String.length s ≤ fuel)%nat →
       replaceAll escapeRegex expandNewline fuel s = expandEscapes s.
Proof.
  induction fuel as [fuel IH] using lt_wf_ind. intros s Hlen.
  destruct fuel as [|fuel]; [destruct s; [done|simpl in Hlen; lia]|].
  destruct s as [|a [|c r]].
  - done.
  - simpl. f_equal. apply IH; simpl; lia.
  - simpl in Hlen. cbn [replaceAll escapeRegex].
    destruct (Ascii.eqb a BS) eqn:Ha; cbn [andb].
    + destruct (Ascii.eqb c LF) eqn:Hc; cbn [negb].
      * apply Ascii.eqb_eq in Hc as ->.
        rewrite IH by (simpl; lia).
        rewrite (expandEscapes_other LF) by done.
        simpl. by rewrite Ha.
      * rewrite IH by lia. simpl. rewrite Ha. unfold expandNewline.
        apply Ascii.eqb_eq in Ha as ->.
        destruct (Ascii.eqb c "n"); [done|]. by destruct (Ascii.eqb c "r").
    + rewrite IH by (simpl; lia). by rewrite (expandEscapes_other a).
Qed.

(** The second replacement is the second pass of the specification. *)
Lemma replaceAll_submatch1 (fuel : nat) :
  ∀ s, (String.length s ≤ fuel)%nat →
       replaceAll unescapeCharsRegex submatch1 fuel s = unescape s.
Proof.
  induction fuel as [fuel IH] using lt_wf_ind. intros s Hlen.
  destruct fuel as [|fuel]; [destruct s; [done|simpl in Hlen; lia]|].
  destruct s as [|a [|c r]].
  - done.
  - simpl. f_equal. apply IH; simpl; lia.
  - simpl in Hlen. cbn [replaceAll unescapeCharsRegex unescape].
    destruct (Ascii.eqb a BS && negb (Ascii.eqb c DOLLAR)) eqn:Ha.
    + rewrite IH by lia. done.
    + rewrite IH by (simpl; lia). done.
Qed.

Lemma quotesRegex_wrapped (q : ascii) (v : string) :
  Contains v LF = false → quotesRegex q v = wrapped q v.
Proof.
  intros HLF. destruct v as [|a r]; [done|].
  unfold quotesRegex, wrapped, len.
  rewrite rev_cons. simpl in HLF. apply orb_false_iff in HLF as [_ HLF].
  rewrite <- Contains_rev in HLF.
  assert (Hr : String.length r = String.length (rev r)) by (by rewrite length_rev).
  cbn [String.length]. rewrite Hr.
  destruct (rev r) as [|z inner]; simpl.
  - by rewrite andb_false_r.
  - simpl in HLF. apply orb_false_iff in HLF as [_ ->].
    rewrite !andb_true_r.
    replace (2 <=? Z.of_nat (S (S (String.length inner)))) with true
      by (symmetry; apply Z.leb_le; lia).
    done.
Qed.

Lemma wrapped_exclusive (v : string) :
  wrapped DQ v = true → wrapped SQ v = false.
Proof.
  unfold wrapped. destruct v as [|a r]; [done|]. simpl.
  destruct (Ascii.eqb a DQ) eqn:Ha.
  - apply Ascii.eqb_eq in Ha as ->. by rewrite andb_false_r.
  - by rewrite andb_false_r.
Qed.

Lemma wrapped_len (q : ascii) (v : string) : wrapped q v = true → (1 <? len v) = true.
Proof.
  unfold wrapped. intros [[H _]%andb_true_iff _]%andb_true_iff.
  apply Z.leb_le in H. apply Z.ltb_lt. lia.
Qed.

End EnvFacts.

(** ** Scanned lines carry no line feed *)

Module ScanFacts.
Import Chars GoStrings GoStringsFacts Env.

Lemma rawLines_no_LF (text : string) :
  Forall (λ l, Contains l LF = false) (rawLines text).
Proof.
  induction text as [|c r IH]; [constructor|].
  simpl. destruct (Ascii.eqb c LF) eqn:Hc.
  - by constructor.
  - destruct (rawLines r) as [|h t].
    + constructor; [|constructor]. simpl. by rewrite Hc.
    + inversion IH as [|? ? Hh Ht]; subst.
      constructor; [|done]. simpl. by rewrite Hc.
Qed.

Lemma dropCR_no (l : string) (c : ascii) :
  Contains l c = false → Contains (dropCR l) c = false.
Proof.
  intros H. unfold dropCR.
  destruct (rev l) as [|z r] eqn:Hrev; [done|].
  destruct (Ascii.eqb z CR); [|done].
  rewrite Contains_rev. rewrite <- Contains_rev, Hrev in H.
  simpl in H. by apply orb_false_iff in H as [_ ?].
Qed.

Lemma Split_no (s : string) (sep c : ascii) :
  Contains s c = false → Forall (λ p, Contains p c = false) (Split s sep).
Proof.
  induction s as [|a s IH]; intros H.
  - by repeat constructor.
  - simpl in H. apply orb_false_iff in H as [Ha Hs]. specialize (IH Hs).
    simpl. destruct (Ascii.eqb a sep).
    + by constructor.
    + destruct (Split s sep) as [|h t].
      * repeat constructor. simpl. by rewrite Ha.
      * inversion IH; subst. constructor; [|done]. simpl. by rewrite Ha.
Qed.

Lemma SplitN2_no (s : string) (sep c : ascii) :
  Contains s c = false → Forall (λ p, Contains p c = false) (SplitN2 s sep).
Proof.
  induction s as [|a s IH]; intros H.
  - by repeat constructor.
  - pose proof H as H'. simpl in H. apply orb_false_iff in H as [Ha Hs].
    specialize (IH Hs). simpl. destruct (Ascii.eqb a sep).
    + by repeat constructor.
    + destruct (SplitN2 s sep) as [|h [|t [|? ?]]]; try by repeat constructor.
      inversion IH as [|? ? Hh Ht]; subst. inversion Ht; subst.
      repeat constructor; [|done]. simpl. by rewrite Ha.
Qed.

Lemma Join_no (l : list string) (sep c : ascii) :
  Ascii.eqb sep c = false →
  Forall (λ p, Contains p c = false) l → Contains (Join l sep) c = false.
Proof.
  intros Hsep. induction 1 as [|p l Hp Hl IH]; [done|].
  destruct l as [|q l]; [done|].
  change (Join (p :: q :: l) sep) with (p +:+ String sep (Join (q :: l) sep)).
  rewrite Contains_app, Hp. cbn [orb].
  change (Contains (String sep (Join (q :: l) sep)) c)
    with (Ascii.eqb sep c || Contains (Join (q :: l) sep) c).
  by rewrite Hsep, IH.
Qed.

Lemma keepPart_kept (P : string → Prop) (parts : list string) :
  ∀ st, Forall P st.2 → Forall P parts → Forall P (fold_left keepPart parts st).2.
Proof.
  induction parts as [|part parts IH]; intros [inQuotes keep] Hkeep Hparts; [done|].
  inversion Hparts; subst. simpl. apply IH; [|done].
  unfold keepPart. simpl in Hkeep.
  repeat case_match; simplify_eq/=; rewrite ?Forall_app; repeat split; auto.
Qed.

Lemma stripComment_no (line : string) (c : ascii) :
  Ascii.eqb HASH c = false → Contains line c = false →
  Contains (stripComment line) c = false.
Proof.
  intros Hc H. unfold stripComment. destruct (Contains line HASH); [|done].
  pose proof (keepPart_kept (λ p, Contains p c = false) (Split line HASH)
                (false, []) (Forall_nil_2 _) (Split_no _ _ _ H)) as Hk.
  destruct (fold_left keepPart (Split line HASH) (false, [])) as [b keep].
  by apply Join_no.
Qed.

(** The value [parseLine] hands to [parseValue] carries no line feed. *)
Lemma scanned_value_no_LF (text : string) (lines : list string) (line k v : string) :
  scanLines text = Some lines → line ∈ lines →
  SplitN2 (stripComment line) EQUALS = [k; v] →
  Contains v LF = false.
Proof.
  unfold scanLines. destruct (forallb _ _); [|done]. intros [= <-] Hin Hsplit.
  apply list_elem_of_fmap in Hin as (raw & -> & Hraw).
  pose proof (rawLines_no_LF text) as Hall.
  rewrite Forall_forall in Hall. apply list_elem_of_In in Hraw.
  specialize (Hall raw Hraw).
  pose proof (SplitN2_no _ EQUALS LF
                (stripComment_no _ LF eq_refl (dropCR_no _ _ Hall))) as Hs.
  rewrite Hsplit in Hs. inversion Hs as [|? ? _ Hv]; subst. by inversion Hv.
Qed.

End ScanFacts.

Module EnvTheorems.
Import Chars GoStrings GoStringsFacts Env EnvSpec EnvFacts.

(** C6.  The line [KEY=value # comment] yields the entry of [KEY] with
    the value [value], the comment stripped; the line of [KEY=], a double
    quote, [a#b] and a double quote yields the entry of [KEY] with the
    value [a#b], the [#] between the quotes starting no comment.  Both as
    the line parser returns them and as the mapping of the whole parse. *)
Theorem comment_stripped_outside_quotes :
  parseLine "KEY=value # comment" = ("KEY", "value", None)
  ∧ parseLine ("KEY=" +:+ String DQ "a#b" +:+ String DQ "") = ("KEY", "a#b", None)
  ∧ parse "KEY=value # comment" = ({[ "KEY" := "value" ]}, None)
  ∧ parse ("KEY=" +:+ String DQ "a#b" +:+ String DQ "") = ({[ "KEY" := "a#b" ]}, None).
Proof. repeat split; vm_compute; reflexivity. Qed.

(** C7.  For every env-file value (a text with no line feed, as
    [scanned_value_no_LF] shows of the values of a file), trimmed of spaces: when it is wrapped in double
    quotes the result is the text between the quotes after the two escape
    passes of the specification, [expandEscapes] then [unescape]; when it
    is wrapped in single quotes the result is the text between the quotes
    and when it is not quoted the trimmed text itself, with no escape
    processing.  So the single-quoted [line1\nline2] keeps its backslash
    and its [n]. *)
Theorem parseValue_escape_passes (value : string) :
  Contains value LF = false →
  (wrapped DQ (Trim value SP) = true →
     parseValue value = unescape (expandEscapes (unwrap (Trim value SP))))
  ∧ (wrapped SQ (Trim value SP) = true → parseValue value = unwrap (Trim value SP))
  ∧ (wrapped DQ (Trim value SP) = false → wrapped SQ (Trim value SP) = false →
     parseValue value = Trim value SP)
  ∧ parseLine "KEY='line1\nline2'" = ("KEY", "line1\nline2", None).
Proof.
  intros HLF. apply (Contains_Trim _ SP) in HLF.
  unfold parseValue. rewrite !quotesRegex_wrapped by done.
  split; [|split; [|split]].
  - intros Hdq. rewrite (wrapped_len _ _ Hdq), Hdq, (wrapped_exclusive _ Hdq).
    cbn [orb]. unfold ReplaceAll.
    by rewrite replaceAll_expandNewline, replaceAll_submatch1.
  - intros Hsq. rewrite (wrapped_len _ _ Hsq), Hsq.
    destruct (wrapped DQ (Trim value SP)) eqn:Hdq; [|done].
    apply wrapped_exclusive in Hdq. congruence.
  - intros -> ->. by destruct (1 <? len (Trim value SP)).
  - reflexivity.
Qed.

Lemma parseValue_escape_passes_witness :
  parseValue (String DQ "a\nb\$c\\d" +:+ String DQ "")
  = "a" +:+ String LF "b\$c\d".
Proof.
  pose proof (parseValue_escape_passes (String DQ "a\nb\$c\\d" +:+ String DQ ""))
    as H.
  destruct H as [H _]; [reflexivity|].
  rewrite H; reflexivity.
Defined.

(** C9, at an input where the code departs from it.  The key [exported]
    loses its first six letters when the line has no [export] in front,
    and keeps them when it has one: the two lines do not parse alike. *)
Theorem export_prefix_cut_from_key :
  parseLine "exported=1" = ("ed", "1", None)
  ∧ parseLine "export exported=1" = ("exported", "1", None).
Proof. split; reflexivity. Qed.

Lemma TrimPrefix_guarded (s prefix : string) :
  (if HasPrefix s prefix then TrimPrefix s prefix else s) = TrimPrefix s prefix.
Proof. unfold TrimPrefix. by destruct (HasPrefix s prefix). Qed.

Lemma parseLine_ok (line k v : string) :
  parseLine line = (k, v, None) →
  ∃ rawKey rawValue,
    SplitN2 (stripComment line) EQUALS = [rawKey; rawValue]
    ∧ k = TrimSpace (TrimPrefix rawKey "export")
    ∧ v = parseValue rawValue.
Proof.
  unfold parseLine. destruct (len line =? 0); [done|].
  destruct (SplitN2 (stripComment line) EQUALS) as [|rk [|rv [|? ?]]];
    [done|done| |done].
  rewrite TrimPrefix_guarded. intros [= <- <-]. by exists rk, rv.
Qed.

Lemma parseLines_lookup (lines : list string) (acc m : gmap string string)
    (k v : string) :
  parseLines lines acc = (m, None) → m !! k = Some v →
  acc !! k = Some v
  ∨ ∃ line, line ∈ lines ∧ isIgnoredLine line = false ∧ parseLine line = (k, v, None).
Proof.
  revert acc. induction lines as [|line lines IH]; intros acc Hp Hm.
  - simpl in Hp. left. congruence.
  - simpl in Hp. destruct (isIgnoredLine line) eqn:Hig.
    + destruct (IH _ Hp Hm) as [?|(l & ? & ? & ?)]; [by left|].
      right. exists l. split; [by right|done].
    + destruct (parseLine line) as [[key value] [err|]] eqn:Hline; [done|].
      destruct (IH _ Hp Hm) as [Hacc|(l & ? & ? & ?)].
      * destruct (decide (key = k)) as [->|Hne].
        -- rewrite lookup_insert_eq in Hacc. injection Hacc as ->.
           right. exists line. split; [by left|done].
        -- rewrite lookup_insert_ne in Hacc by done. by left.
      * right. exists l. split; [by right|done].
Qed.

(** C10, as amended.  When the parser succeeds, every key of the mapping
    is the text in front of the first [=] of a line it did not ignore
    (comment stripped), one leading [export] cut and white space trimmed:
    it has no white space left at either end, and it may be empty. *)
Theorem parse_keys_trimmed (text : string) (m : gmap string string) (k v : string) :
  parse text = (m, None) → m !! k = Some v →
  TrimSpace k = k
  ∧ ∃ lines line rawKey rawValue,
      scanLines text = Some lines ∧ line ∈ lines ∧ isIgnoredLine line = false
      ∧ SplitN2 (stripComment line) EQUALS = [rawKey; rawValue]
      ∧ k = TrimSpace (TrimPrefix rawKey "export")
      ∧ v = parseValue rawValue.
Proof.
  unfold parse. destruct (scanLines text) as [lines|] eqn:Hscan; [|done].
  intros Hp Hm.
  destruct (parseLines_lookup _ _ _ _ _ Hp Hm) as [Hemp|(line & Hin & Hig & Hline)].
  { by rewrite lookup_empty in Hemp. }
  destruct (parseLine_ok _ _ _ Hline) as (rk & rv & Hsplit & -> & ->).
  split; [apply TrimSpace_idemp|].
  by exists lines, line, rk, rv.
Qed.

Lemma parse_keys_trimmed_witness :
  TrimSpace "B" = "B"
  ∧ ∃ lines line rawKey rawValue,
      scanLines ("A=1" +:+ String LF "export B = two") = Some lines
      ∧ line ∈ lines ∧ isIgnoredLine line = false
      ∧ SplitN2 (stripComment line) EQUALS = [rawKey; rawValue]
      ∧ "B" = TrimSpace (TrimPrefix rawKey "export")
      ∧ "two" = parseValue rawValue.
Proof.
  apply (parse_keys_trimmed _ (<["B" := "two"]> (<["A" := "1"]> ∅))).
  - vm_compute. reflexivity.
  - vm_compute. reflexivity.
Defined.

(** C10 as stated fails: the line [=value] parses, and its key is empty. *)
Lemma parse_empty_key :
  parse "=value" = ({[ "" := "value" ]}, None)
  ∧ ({[ "" := "value" ]} : gmap string string) !! "" = Some "value".
Proof. split; vm_compute; reflexivity. Qed.

End EnvTheorems.

(** * Further properties of the env-file parser *)

(** ** Cutting a text at a separator *)

Module SplitFacts.
Import Chars GoStrings GoStringsFacts.

Lemma eqb_sym_false (a b : ascii) : Ascii.eqb a b = false → Ascii.eqb b a = false.
Proof. rewrite (Ascii.eqb_sym a b). done. Qed.

Lemma SplitN2_whole (s : string) (sep : ascii) :
  Contains s sep = false → SplitN2 s sep = [s].
Proof.
  induction s as [|a s IH]; [done|].
  simpl. intros [Ha Hs]%orb_false_iff. rewrite Ha, (IH Hs). done.
Qed.

Lemma SplitN2_cut (k v : string) (sep : ascii) :
  Contains k sep = false → SplitN2 (k +:+ String sep v) sep = [k; v].
Proof.
  induction k as [|a k IH].
  - intros _. simpl. by rewrite Ascii.eqb_refl.
  - simpl. intros [Ha Hk]%orb_false_iff. rewrite ?app_cons. simpl.
    by rewrite Ha, (IH Hk).
Qed.

(** A text that has the separator is the text in front of its first
    occurrence, the separator and the rest. *)
Lemma Contains_cut (s : string) (sep : ascii) :
  Contains s sep = true →
  ∃ k v, s = k +:+ String sep v ∧ Contains k sep = false.
Proof.
  induction s as [|a s IH]; [done|].
  simpl. destruct (Ascii.eqb a sep) eqn:Ha.
  - intros _. apply Ascii.eqb_eq in Ha as ->. by exists "", s.
  - simpl. intros Hs. destruct (IH Hs) as (k & v & -> & Hk).
    exists (String a k), v. split; [done|]. simpl. by rewrite Ha.
Qed.

Lemma Split_whole (s : string) (sep : ascii) :
  Contains s sep = false → Split s sep = [s].
Proof.
  induction s as [|a s IH]; [done|].
  simpl. intros [Ha Hs]%orb_false_iff. rewrite Ha, (IH Hs). done.
Qed.

Lemma Split_cut (a b : string) (sep : ascii) :
  Contains a sep = false → Split (a +:+ String sep b) sep = a :: Split b sep.
Proof.
  induction a as [|c a IH].
  - intros _. simpl. by rewrite Ascii.eqb_refl.
  - simpl. intros [Hc Ha]%orb_false_iff. rewrite ?app_cons. simpl.
    by rewrite Hc, (IH Ha).
Qed.

Lemma Split_not_nil (s : string) (sep : ascii) : Split s sep ≠ [].
Proof.
  destruct s as [|a s]; [done|]. simpl.
  destruct (Ascii.eqb a sep); [done|]. by destruct (Split s sep).
Qed.

Lemma Split_prefix (p s : string) (sep : ascii) :
  Contains p sep = false →
  Split (p +:+ s) sep
  = match Split s sep with h :: t => (p +:+ h) :: t | [] => [p] end.
Proof.
  induction p as [|c p IH].
  - intros _. change ("" +:+ s) with s.
    pose proof (Split_not_nil s sep). by destruct (Split s sep).
  - simpl. intros [Hc Hp]%orb_false_iff. rewrite ?app_cons. simpl.
    rewrite Hc, (IH Hp). by destruct (Split s sep).
Qed.

Lemma Count_app (s t : string) (c : ascii) : Count (s +:+ t) c = Count s c + Count t c.
Proof.
  induction s as [|a s IH]; [done|].
  rewrite app_cons. simpl. rewrite IH. lia.
Qed.

Lemma Count_none (s : string) (c : ascii) : Contains s c = false → Count s c = 0.
Proof.
  induction s as [|a s IH]; [done|].
  simpl. intros [Ha Hs]%orb_false_iff. rewrite Ha, (IH Hs). done.
Qed.

Lemma HasPrefix_app (p s : string) : HasPrefix (p +:+ s) p = true.
Proof.
  induction p as [|a p IH]; [done|].
  rewrite app_cons. simpl. by rewrite Ascii.eqb_refl, IH.
Qed.

Lemma drop_app (p s : string) : drop (String.length p) (p +:+ s) = s.
Proof. induction p as [|a p IH]; [done|]. rewrite app_cons. simpl. apply IH. Qed.

Lemma len_cons (a : ascii) (s : string) : (len (String a s) =? 0) = false.
Proof. unfold len. simpl String.length. apply Z.eqb_neq. lia. Qed.

End SplitFacts.

(** ** Lines and the loop of [parse] *)

Module ParseFacts.
Import Chars GoStrings GoStringsFacts SplitFacts Env EnvSpec EnvFacts ScanFacts.

Lemma isIgnoredLine_empty : isIgnoredLine "" = true.
Proof. reflexivity. Qed.

Lemma not_ignored_len (line : string) :
  isIgnoredLine line = false → (len line =? 0) = false.
Proof. destruct line; [done|]. intros _. apply len_cons. Qed.

(** [parseLine] on a line that is not empty: it fails when the text left
    of the comment has no [=]. *)
Lemma parseLine_no_equals (line : string) :
  (len line =? 0) = false → Contains (stripComment line) EQUALS = false →
  parseLine line = ("", "", Some (ErrSeparate (stripComment line))).
Proof.
  intros Hlen Heq. unfold parseLine. rewrite Hlen.
  by rewrite (SplitN2_whole _ _ Heq).
Qed.

Lemma parseLine_equals (line : string) :
  (len line =? 0) = false → Contains (stripComment line) EQUALS = true →
  ∃ rk rv,
    stripComment line = rk +:+ String EQUALS rv ∧ Contains rk EQUALS = false
    ∧ parseLine line = (TrimSpace (TrimPrefix rk "export"), parseValue rv, None).
Proof.
  intros Hlen Heq. destruct (Contains_cut _ _ Heq) as (rk & rv & Hs & Hrk).
  exists rk, rv. split; [done|]. split; [done|].
  unfold parseLine. rewrite Hlen, Hs, (SplitN2_cut _ _ _ Hrk).
  unfold TrimPrefix. by destruct (HasPrefix rk "export").
Qed.

(** The loop over two runs of lines is the loop over the first and then,
    unless that failed, the loop over the second. *)
Lemma parseLines_app (l1 l2 : list string) (acc : gmap string string) :
  parseLines (l1 ++ l2) acc
  = match parseLines l1 acc with
    | (m, None) => parseLines l2 m
    | (m, Some e) => (m, Some e)
    end.
Proof.
  revert acc. induction l1 as [|line l1 IH]; intros acc; [done|].
  simpl. destruct (isIgnoredLine line); [apply IH|].
  destruct (parseLine line) as [[k v] [e|]]; [done|]. apply IH.
Qed.

Lemma parseLines_ignored (l : list string) (acc : gmap string string) :
  Forall (λ line, isIgnoredLine line = true) l → parseLines l acc = (acc, None).
Proof. induction 1 as [|line l Hl _ IH]; [done|]. simpl. by rewrite Hl. Qed.

(** Once a key is bound, lines that bind other keys leave it alone. *)
Lemma parseLines_keeps (l : list string) :
  ∀ (acc m : gmap string string) (k v : string),
    parseLines l acc = (m, None) → acc !! k = Some v →
    (∀ line, line ∈ l → isIgnoredLine line = false → (parseLine line).1.1 ≠ k) →
    m !! k = Some v.
Proof.
  induction l as [|line l IH]; intros acc m k v Hp Hacc Hother.
  - simpl in Hp. congruence.
  - simpl in Hp. destruct (isIgnoredLine line) eqn:Hig.
    + apply (IH _ _ _ _ Hp Hacc). intros l' Hl'. apply Hother. by right.
    + pose proof (Hother line ltac:(by left) Hig) as Hne.
      destruct (parseLine line) as [[k' v'] [e|]]; [done|]. simpl in Hne.
      apply (IH _ _ _ _ Hp).
      * by rewrite lookup_insert_ne.
      * intros l' Hl'. apply Hother. by right.
Qed.

(** With a line feed at its end a text scans to the same lines, or to the
    same lines and an empty one. *)
Lemma rawLines_nil (text : string) : rawLines text = [] → text = "".
Proof.
  destruct text as [|c r]; [done|]. simpl.
  destruct (Ascii.eqb c LF); [done|]. by destruct (rawLines r).
Qed.

Lemma rawLines_newline (text : string) :
  ∃ extra, rawLines (text +:+ String LF "") = rawLines text ++ extra
           ∧ (extra = [] ∨ extra = [""]).
Proof.
  induction text as [|c r IH].
  - exists [""]. split; [done|by right].
  - rewrite app_cons. simpl. destruct (Ascii.eqb c LF).
    + destruct IH as (extra & -> & Hex). by exists extra.
    + destruct (rawLines r) as [|h t] eqn:Hr.
      * apply rawLines_nil in Hr as ->. exists []. split; [done|by left].
      * destruct IH as (extra & -> & Hex). by exists extra.
Qed.

Lemma parseLines_bound (l : list string) :
  ∀ (acc m : gmap string string) (k : string),
    parseLines l acc = (m, None) → is_Some (acc !! k) → is_Some (m !! k).
Proof.
  induction l as [|line l IH]; intros acc m k Hp Hacc.
  - simpl in Hp. congruence.
  - simpl in Hp. destruct (isIgnoredLine line); [by apply (IH _ _ _ Hp)|].
    destruct (parseLine line) as [[k' v'] [e|]]; [done|].
    apply (IH _ _ _ Hp). destruct (decide (k' = k)) as [->|Hne].
    + rewrite lookup_insert_eq. by eexists.
    + by rewrite lookup_insert_ne.
Qed.

(** A failing loop stopped at a line that is not ignored and has no [=]
    left of its comment, having read the lines in front of it. *)
Lemma parseLines_error (l : list string) :
  ∀ (acc m : gmap string string) (e : error),
    parseLines l acc = (m, Some e) →
    ∃ l1 bad l2,
      l = l1 ++ bad :: l2 ∧ parseLines l1 acc = (m, None)
      ∧ isIgnoredLine bad = false ∧ Contains (stripComment bad) EQUALS = false
      ∧ e = ErrSeparate (stripComment bad).
Proof.
  induction l as [|line l IH]; intros acc m e Hp; [done|].
  simpl in Hp. destruct (isIgnoredLine line) eqn:Hig.
  - destruct (IH _ _ _ Hp) as (l1 & bad & l2 & -> & H1 & Hbad).
    exists (line :: l1), bad, l2. split; [done|]. split; [|done].
    simpl. by rewrite Hig.
  - pose proof (not_ignored_len _ Hig) as Hlen.
    destruct (Contains (stripComment line) EQUALS) eqn:Heq.
    + destruct (parseLine_equals _ Hlen Heq) as (rk & rv & _ & _ & Hline).
      rewrite Hline in Hp.
      destruct (IH _ _ _ Hp) as (l1 & bad & l2 & -> & H1 & Hbad).
      exists (line :: l1), bad, l2. split; [done|]. split; [|done].
      simpl. by rewrite Hig, Hline.
    + rewrite (parseLine_no_equals _ Hlen Heq) in Hp. injection Hp as <- <-.
      by exists [], line, l.
Qed.

(** A loop that succeeds found an [=] in every line it did not ignore. *)
Lemma parseLines_ok_all (l : list string) :
  ∀ (acc m : gmap string string),
    parseLines l acc = (m, None) →
    ∀ line, line ∈ l → isIgnoredLine line = false →
            Contains (stripComment line) EQUALS = true.
Proof.
  induction l as [|l0 l IH]; intros acc m Hp line Hin Hig.
  - by apply elem_of_nil in Hin.
  - simpl in Hp. apply elem_of_cons in Hin as [-> | Hin].
    + rewrite Hig in Hp.
      destruct (Contains (stripComment l0) EQUALS) eqn:Heq; [done|].
      by rewrite (parseLine_no_equals _ (not_ignored_len _ Hig) Heq) in Hp.
    + destruct (isIgnoredLine l0); [by apply (IH _ _ Hp)|].
      destruct (parseLine l0) as [[k v] [e|]]; [done|]. by apply (IH _ _ Hp).
Qed.

End ParseFacts.

Module ParseTheorems.
Import Chars GoStrings GoStringsFacts SplitFacts Env EnvSpec EnvFacts ScanFacts.
Import ParseFacts.

(** [parseLine] fails on exactly two kinds of line: the empty line, with
    the zero-length error, and a line whose text, once the comment is
    stripped, has no [=], with the error that carries that text.  On any
    other line it cuts the stripped text at its first [=]: the key is the
    text in front, one leading [export] cut and white space trimmed, the
    value is [parseValue] of all that follows, further [=] included. *)
Theorem parseLine_cases (line : string) :
  match line with
  | EmptyString => parseLine line = ("", "", Some ErrZeroLength)
  | String _ _ =>
      if Contains (stripComment line) EQUALS then
        ∃ rk rv,
          stripComment line = rk +:+ String EQUALS rv ∧ Contains rk EQUALS = false
          ∧ parseLine line = (TrimSpace (TrimPrefix rk "export"), parseValue rv, None)
      else parseLine line = ("", "", Some (ErrSeparate (stripComment line)))
  end.
Proof.
  destruct line as [|a s]; [done|].
  destruct (Contains (stripComment (String a s)) EQUALS) eqn:Heq.
  - apply parseLine_equals; [apply len_cons|done].
  - apply parseLine_no_equals; [apply len_cons|done].
Qed.

(** A line feed added at the end of a text changes nothing in what
    [parse] returns: a last line is read the same with and without its
    line feed, and the empty line that a second line feed makes is
    ignored. *)
Theorem parse_trailing_newline (text : string) :
  parse (text +:+ String LF "") = parse text.
Proof.
  unfold parse, scanLines.
  destruct (rawLines_newline text) as (extra & -> & Hex).
  rewrite forallb_app, map_app.
  assert (Hfit : forallb (λ l, len l <? maxScanTokenSize) extra = true).
  { by destruct Hex as [-> | ->]. }
  rewrite Hfit, andb_true_r.
  destruct (forallb _ (rawLines text)); [|done].
  rewrite parseLines_app.
  destruct (parseLines (map dropCR (rawLines text)) ∅) as [m [e|]]; [done|].
  apply parseLines_ignored. destruct Hex as [-> | ->]; by repeat constructor.
Qed.

(** Every line that is not ignored binds its key when [parse] succeeds,
    and a key holds the value of the last line that binds it: later
    lines overwrite earlier ones. *)
Theorem parse_last_line_wins (text : string) (m : gmap string string)
    (l1 l2 : list string) (line : string) :
  parse text = (m, None) → scanLines text = Some (l1 ++ line :: l2) →
  isIgnoredLine line = false →
  ∃ k v, parseLine line = (k, v, None) ∧ is_Some (m !! k)
         ∧ ((∀ later, later ∈ l2 → isIgnoredLine later = false →
                      (parseLine later).1.1 ≠ k) →
            m !! k = Some v).
Proof.
  unfold parse. intros Hp Hscan Hig. rewrite Hscan in Hp.
  rewrite parseLines_app in Hp.
  destruct (parseLines l1 ∅) as [m1 [e|]]; [done|].
  simpl in Hp. rewrite Hig in Hp.
  destruct (parseLine line) as [[k v] [e|]]; [done|].
  exists k, v. split; [done|]. split.
  - apply (parseLines_bound _ _ _ _ Hp). rewrite lookup_insert_eq. by eexists.
  - intros Hother. apply (parseLines_keeps _ _ _ _ _ Hp); [|done].
    apply lookup_insert_eq.
Qed.

Lemma parse_last_line_wins_witness :
  ∃ k v, parseLine "A=3" = (k, v, None)
         ∧ is_Some ((<["A" := "3"]> (<["B" := "2"]> ∅) : gmap string string) !! k)
         ∧ ((∀ later, later ∈ ["# end"] → isIgnoredLine later = false →
                      (parseLine later).1.1 ≠ k) →
            (<["A" := "3"]> (<["B" := "2"]> ∅) : gmap string string) !! k = Some v).
Proof.
  apply (parse_last_line_wins
           ("A=1" +:+ String LF "B=2" +:+ String LF "A=3" +:+ String LF "# end")
           _ ["A=1"; "B=2"] ["# end"] "A=3").
  - vm_compute. reflexivity.
  - vm_compute. reflexivity.
  - vm_compute. reflexivity.
Defined.

(** [parse] fails in two ways only.  A line too long for the scanner
    gives the scanner's error and the empty mapping.  Otherwise it stops
    at the first line that is not ignored and has no [=] left of its
    comment, with the error that carries the stripped line and the
    mapping of the lines read before it; the zero-length error of
    [parseLine] never comes out of [parse]. *)
Theorem parse_error_cases (text : string) (m : gmap string string) (e : error) :
  parse text = (m, Some e)
  ↔ (scanLines text = None ∧ m = ∅ ∧ e = ErrTooLong)
    ∨ ∃ l1 bad l2,
        scanLines text = Some (l1 ++ bad :: l2) ∧ parseLines l1 ∅ = (m, None)
        ∧ isIgnoredLine bad = false ∧ Contains (stripComment bad) EQUALS = false
        ∧ e = ErrSeparate (stripComment bad).
Proof.
  unfold parse. split.
  - destruct (scanLines text) as [lines|].
    + intros Hp. right.
      destruct (parseLines_error _ _ _ _ Hp) as (l1 & bad & l2 & -> & H).
      by exists l1, bad, l2.
    + intros [= <- <-]. by left.
  - intros [(-> & -> & ->)|(l1 & bad & l2 & -> & H1 & Hig & Heq & ->)]; [done|].
    rewrite parseLines_app, H1. simpl. rewrite Hig.
    by rewrite (parseLine_no_equals _ (not_ignored_len _ Hig) Heq).
Qed.

End ParseTheorems.

(** ** Comments, quotes and the [export] prefix *)

Module CommentFacts.
Import Chars GoStrings GoStringsFacts SplitFacts Env EnvSpec EnvFacts ScanFacts.
Import ParseFacts TextSpec.

Lemma without_cons (s : string) (c : ascii) (cs : list ascii) :
  without s (c :: cs) ↔ Contains s c = false ∧ without s cs.
Proof. unfold without. apply Forall_cons_iff. Qed.

Lemma without_cons_2 (s : string) (a b : ascii) (cs : list ascii) :
  without s (a :: b :: cs) →
  Contains s a = false ∧ Contains s b = false ∧ without s cs.
Proof. rewrite !without_cons. tauto. Qed.

Lemma without_cons_3 (s : string) (a b c : ascii) (cs : list ascii) :
  without s (a :: b :: c :: cs) →
  Contains s a = false ∧ Contains s b = false ∧ Contains s c = false ∧ without s cs.
Proof. rewrite !without_cons. tauto. Qed.

(** A piece with no quote leaves the state of the loop as it is, but for
    the first piece, which is always kept. *)
Lemma keepPart_plain (b : bool) (keep : list string) (part : string) :
  Contains part DQ = false → Contains part SQ = false →
  keepPart (b, keep) part
  = if (Z.of_nat (length keep) =? 0) || b then (b, keep ++ [part]) else (b, keep).
Proof.
  intros Hd Hs. unfold keepPart. rewrite (Count_none _ _ Hd), (Count_none _ _ Hs).
  reflexivity.
Qed.

Lemma fold_plain_closed (parts : list string) (h : string) (keep : list string) :
  Forall (λ p, Contains p DQ = false ∧ Contains p SQ = false) parts →
  fold_left keepPart parts (false, h :: keep) = (false, h :: keep).
Proof.
  induction 1 as [|p parts [Hd Hs] _ IH]; [done|].
  cbn [fold_left]. by rewrite (keepPart_plain _ _ _ Hd Hs).
Qed.

Lemma keepPart_opens (keep : list string) (part : string) :
  (Count part DQ =? 1) || (Count part SQ =? 1) = true →
  keepPart (false, keep) part = (true, keep ++ [part]).
Proof. intros H. unfold keepPart. rewrite H. by rewrite orb_true_r. Qed.

Lemma keepPart_closes (keep : list string) (part : string) :
  (Count part DQ =? 1) || (Count part SQ =? 1) = true →
  keepPart (true, keep) part = (false, keep ++ [part]).
Proof.
  intros H. unfold keepPart. rewrite H. rewrite List.length_app. simpl.
  replace (Z.of_nat (length keep + 1) =? 0) with false; [done|].
  symmetry. apply Z.eqb_neq. lia.
Qed.

(** A piece with one quote [q] in it, and no other quote. *)
Lemma one_quote (q : ascii) (s t : string) :
  q = DQ ∨ q = SQ → without s [DQ; SQ] → without t [DQ; SQ] →
  (Count (s +:+ String q t) DQ =? 1) || (Count (s +:+ String q t) SQ =? 1) = true.
Proof.
  intros Hq (Hsd & Hss & _)%without_cons_2 (Htd & Hts & _)%without_cons_2.
  rewrite !Count_app. simpl Count.
  rewrite !(Count_none s), !(Count_none t) by done.
  by destruct Hq as [-> | ->].
Qed.

(** The state of the loop after the first piece does not depend on that
    piece but for the piece itself. *)
Lemma fold_keep_head (parts : list string) :
  ∀ (b : bool) (h : string) (keep : list string),
    ∃ b' keep', ∀ h', fold_left keepPart parts (b, h' :: keep) = (b', h' :: keep').
Proof.
  induction parts as [|p parts IH]; intros b h keep.
  - by exists b, keep.
  - cbn [fold_left].
    assert (∃ b1 keep1, ∀ h', keepPart (b, h' :: keep) p = (b1, h' :: keep1))
      as (b1 & keep1 & H1).
    { unfold keepPart.
      destruct ((Count p DQ =? 1) || (Count p SQ =? 1)), b; simpl;
        rewrite ?List.length_app; simpl.
      - exists false, (keep ++ [p]). intros h'. simpl.
        replace (Z.of_nat (S (length keep + 1)) =? 0) with false; [done|].
        symmetry. apply Z.eqb_neq. lia.
      - by exists true, (keep ++ [p]).
      - by exists true, (keep ++ [p]).
      - by exists false, keep. }
    destruct (IH b1 h keep1) as (b' & keep' & H').
    exists b', keep'. intros h'. by rewrite H1.
Qed.

Lemma Join_head (p h : string) (keep : list string) (sep : ascii) :
  Join ((p +:+ h) :: keep) sep = p +:+ Join (h :: keep) sep.
Proof. destruct keep as [|e keep]; [done|]. simpl Join. by rewrite app_assoc. Qed.

(** A text put in front of a line stays in front of the stripped line
    when it has no [#] and no quote. *)
Lemma stripComment_prefix (p line : string) :
  without p [HASH; DQ; SQ] → stripComment (p +:+ line) = p +:+ stripComment line.
Proof.
  intros (Hh & Hd & Hs & _)%without_cons_3. unfold stripComment.
  rewrite Contains_app, Hh. cbn [orb].
  destruct (Contains line HASH); [|done].
  rewrite (Split_prefix _ _ _ Hh).
  pose proof (Split_not_nil line HASH) as Hnil.
  destruct (Split line HASH) as [|h t]; [done|]. clear Hnil.
  cbn [fold_left].
  assert (Hfirst : ∃ b, ∀ h', Count h' DQ = Count h DQ → Count h' SQ = Count h SQ →
                              keepPart (false, []) h' = (b, [h'])).
  { unfold keepPart.
    destruct ((Count h DQ =? 1) || (Count h SQ =? 1)) eqn:E.
    - exists true. intros h' -> ->. by rewrite E.
    - exists false. intros h' -> ->. by rewrite E. }
  destruct Hfirst as [b Hb].
  rewrite (Hb h), (Hb (p +:+ h)); try done.
  2, 3: rewrite Count_app, Count_none by done; lia.
  destruct (fold_keep_head t b h []) as (b' & keep' & H').
  rewrite !H'. apply Join_head.
Qed.

Lemma SplitN2_prefix (p s k v : string) (sep : ascii) :
  Contains p sep = false → SplitN2 s sep = [k; v] →
  SplitN2 (p +:+ s) sep = [p +:+ k; v].
Proof.
  intros Hp Hs. induction p as [|a p IH]; [done|].
  simpl in Hp. apply orb_false_iff in Hp as [Ha Hp].
  rewrite app_cons. simpl. by rewrite Ha, (IH Hp).
Qed.

Lemma TrimSpace_space (s : string) : TrimSpace (String SP s) = TrimSpace s.
Proof. reflexivity. Qed.

(** *** Values between quotes *)

Lemma trimLeftByte_head (a c : ascii) (s : string) :
  Ascii.eqb a c = false → trimLeftByte (String a s) c = String a s.
Proof. intros H. simpl. by rewrite H. Qed.

Lemma rev_quoted (q : ascii) (s : string) : rev (quoted q s) = quoted q (rev s).
Proof.
  unfold quoted. rewrite rev_cons, rev_app, rev_cons. simpl rev.
  by rewrite app_assoc.
Qed.

Lemma trimLeftByte_skip (c : ascii) (s : string) :
  trimLeftByte (String c s) c = trimLeftByte s c.
Proof. simpl. by rewrite Ascii.eqb_refl. Qed.

Lemma trimLeftByte_quoted (q : ascii) (s t : string) :
  Ascii.eqb q SP = false → trimLeftByte (quoted q s +:+ t) SP = quoted q s +:+ t.
Proof. intros Hq. unfold quoted. rewrite app_cons. by apply trimLeftByte_head. Qed.

Lemma Trim_quoted (q : ascii) (s : string) :
  Ascii.eqb q SP = false → Trim (quoted q s) SP = quoted q s.
Proof.
  intros Hq. unfold Trim.
  rewrite <- (app_nil_r (quoted q s)) at 1. rewrite trimLeftByte_quoted by done.
  rewrite app_nil_r, rev_quoted.
  rewrite <- (app_nil_r (quoted q (rev s))). rewrite trimLeftByte_quoted by done.
  by rewrite app_nil_r, rev_quoted, rev_involutive.
Qed.

Lemma Trim_quoted_space (q : ascii) (s : string) :
  Ascii.eqb q SP = false → Trim (quoted q s +:+ " ") SP = quoted q s.
Proof.
  intros Hq. unfold Trim.
  rewrite trimLeftByte_quoted by done.
  rewrite rev_app, rev_quoted.
  change (rev " " +:+ quoted q (rev s)) with (String SP (quoted q (rev s))).
  rewrite trimLeftByte_skip.
  rewrite <- (app_nil_r (quoted q (rev s))). rewrite trimLeftByte_quoted by done.
  by rewrite app_nil_r, rev_quoted, rev_involutive.
Qed.

Lemma unwrap_quoted (q : ascii) (s : string) : unwrap (quoted q s) = s.
Proof.
  unfold unwrap, quoted. simpl drop. rewrite rev_app. simpl.
  apply rev_involutive.
Qed.

Lemma quotesRegex_quoted (q : ascii) (s : string) :
  Contains s LF = false → quotesRegex q (quoted q s) = true.
Proof.
  intros H. unfold quotesRegex, quoted. rewrite Ascii.eqb_refl, rev_app.
  change (rev (String q "") +:+ rev s) with (String q (rev s)). cbv beta iota.
  by rewrite Ascii.eqb_refl, Contains_rev, H.
Qed.

Lemma quotesRegex_other (q q' : ascii) (s : string) :
  Ascii.eqb q' q = false → quotesRegex q (quoted q' s) = false.
Proof. intros H. unfold quotesRegex, quoted. by rewrite H. Qed.

Lemma expandEscapes_plain (s : string) : Contains s BS = false → expandEscapes s = s.
Proof.
  induction s as [|a s IH]; [done|].
  simpl Contains. intros [Ha Hs]%orb_false_iff.
  rewrite expandEscapes_other by done. by rewrite (IH Hs).
Qed.

Lemma unescape_plain (s : string) : Contains s BS = false → unescape s = s.
Proof.
  induction s as [|a s IH]; [done|].
  simpl Contains. intros [Ha Hs]%orb_false_iff.
  rewrite unescape_other by done. by rewrite (IH Hs).
Qed.

Lemma len_quoted (q : ascii) (s : string) : (1 <? len (quoted q s)) = true.
Proof.
  unfold len, quoted. apply Z.ltb_lt. simpl String.length. rewrite length_app.
  simpl. lia.
Qed.

(** After the spaces around it are cut, a text between quotes, with no
    line feed and no backslash, is the value itself. *)
Lemma parseValue_of_trimmed (q : ascii) (s value : string) :
  q = DQ ∨ q = SQ → Contains s LF = false → Contains s BS = false →
  Trim value SP = quoted q s → parseValue value = s.
Proof.
  intros Hq HLF HBS HT. unfold parseValue. rewrite HT, len_quoted.
  rewrite unwrap_quoted.
  destruct Hq as [-> | ->].
  - rewrite (quotesRegex_quoted DQ) by done.
    rewrite (quotesRegex_other SQ DQ) by done. cbn [orb].
    unfold ReplaceAll.
    rewrite replaceAll_expandNewline by done.
    rewrite replaceAll_submatch1 by done.
    by rewrite (expandEscapes_plain _ HBS), (unescape_plain _ HBS).
  - rewrite (quotesRegex_quoted SQ) by done.
    by rewrite (quotesRegex_other DQ SQ) by done.
Qed.

(** *** Carriage returns *)

Lemma dropCR_plain (l : string) : Contains l CR = false → dropCR l = l.
Proof.
  intros H. unfold dropCR. rewrite <- Contains_rev in H.
  destruct (rev l) as [|c r]; [done|].
  simpl in H. apply orb_false_iff in H as [-> _]. done.
Qed.

Lemma dropCR_snoc (l : string) : dropCR (l +:+ String CR "") = l.
Proof. unfold dropCR. rewrite rev_app. simpl. apply rev_involutive. Qed.

(** A line of the text with carriage returns is the line of the
    original text, with or without a carriage return at its end. *)
Lemma rawLines_toCRLF (text : string) :
  Contains text CR = false →
  Forall2 (λ l' l, (l' = l ∨ l' = l +:+ String CR "") ∧ Contains l CR = false)
    (rawLines (toCRLF text)) (rawLines text).
Proof.
  induction text as [|c r IH]; [constructor|].
  simpl Contains. intros [Hc Hr]%orb_false_iff. specialize (IH Hr).
  simpl. destruct (Ascii.eqb c LF) eqn:HLF.
  - simpl. constructor; [|done]. split; [by right|done].
  - simpl. rewrite HLF. inversion IH as [|h' h t' t [Hh Hno] Ht E1 E2].
    + repeat constructor. simpl. by rewrite Hc.
    + constructor; [|done]. split.
      * destruct Hh as [-> | ->]; [by left|by right].
      * simpl. by rewrite Hc, Hno.
Qed.

End CommentFacts.

Module CommentTheorems.
Import Chars GoStrings GoStringsFacts SplitFacts Env EnvSpec EnvFacts ScanFacts.
Import ParseFacts TextSpec CommentFacts.

Lemma len_app_cons (s t : string) (a : ascii) : (len (s +:+ String a t) =? 0) = false.
Proof. unfold len. rewrite length_app. simpl. apply Z.eqb_neq. lia. Qed.

Lemma no_quotes_pieces (s : string) :
  without s [DQ; SQ] →
  Forall (λ p, Contains p DQ = false ∧ Contains p SQ = false) (Split s HASH).
Proof.
  intros (Hd & Hs & _)%without_cons_2. apply Forall_and; by apply Split_no.
Qed.

Lemma stripComment_no_hash (line : string) :
  Contains line HASH = false → stripComment line = line.
Proof. intros H. unfold stripComment. by rewrite H. Qed.

Lemma Contains_hash_cut (a b : string) : Contains (a +:+ String HASH b) HASH = true.
Proof. rewrite Contains_app. simpl. by rewrite orb_true_r. Qed.

(** In a line with no quote, everything from the first [#] on is a
    comment.  When there is text in front of that [#], the line parses as
    that text does.  When the [#] comes first, nothing is left of the
    line, and it fails as a line with no [=] (not as an empty line). *)
Theorem comment_cut_at_first_hash (body comment : string) :
  without body [HASH; DQ; SQ] → without comment [DQ; SQ] →
  stripComment (body +:+ String HASH comment) = body
  ∧ (body ≠ "" → parseLine (body +:+ String HASH comment) = parseLine body)
  ∧ (body = "" →
     parseLine (body +:+ String HASH comment) = ("", "", Some (ErrSeparate ""))
     ∧ parseLine body = ("", "", Some ErrZeroLength)).
Proof.
  intros (Hh & Hd & Hs & _)%without_cons_3 Hcomment.
  assert (Hstrip : stripComment (body +:+ String HASH comment) = body).
  { unfold stripComment. rewrite Contains_hash_cut, (Split_cut _ _ _ Hh).
    cbn [fold_left]. rewrite (keepPart_plain _ _ _ Hd Hs). simpl app.
    cbn [length]. change ((Z.of_nat 0 =? 0) || false) with true. cbv iota.
    by rewrite (fold_plain_closed _ _ _ (no_quotes_pieces _ Hcomment)). }
  split; [done|]. split.
  - intros Hbody.
    unfold parseLine. rewrite Hstrip, (stripComment_no_hash _ Hh), len_app_cons.
    destruct body as [|a b]; [done|]. by rewrite len_cons.
  - intros ->. split; [|done].
    unfold parseLine. rewrite Hstrip. change ("" +:+ String HASH comment)
      with (String HASH comment). by rewrite len_cons.
Qed.

Lemma comment_cut_at_first_hash_witness :
  stripComment ("HOST = example.org " +:+ String HASH " the # host") = "HOST = example.org "
  ∧ parseLine ("HOST = example.org " +:+ String HASH " the # host")
    = ("HOST", "example.org", None).
Proof.
  destruct (comment_cut_at_first_hash "HOST = example.org " " the # host")
    as (Hstrip & Hline & _).
  - repeat constructor.
  - repeat constructor.
  - split; [exact Hstrip|]. rewrite Hline; [reflexivity|discriminate].
Defined.

(** The two pieces of a quoted text with a [#] in it are both kept, and
    what follows the next [#] is dropped. *)
Lemma stripComment_quoted_pair (a b : string) :
  Contains a HASH = false → Contains b HASH = false →
  (Count a DQ =? 1) || (Count a SQ =? 1) = true →
  (Count b DQ =? 1) || (Count b SQ =? 1) = true →
  stripComment (a +:+ String HASH b) = a +:+ String HASH b
  ∧ ∀ comment, without comment [DQ; SQ] →
      stripComment (a +:+ String HASH (b +:+ String HASH comment))
      = a +:+ String HASH b.
Proof.
  intros Ha Hb Hqa Hqb. split.
  - unfold stripComment. rewrite Contains_hash_cut, (Split_cut _ _ _ Ha).
    rewrite (Split_whole _ _ Hb). cbn [fold_left].
    by rewrite (keepPart_opens _ _ Hqa), (keepPart_closes _ _ Hqb).
  - intros comment Hcomment.
    unfold stripComment. rewrite Contains_hash_cut, (Split_cut _ _ _ Ha).
    rewrite (Split_cut _ _ _ Hb). cbn [fold_left].
    rewrite (keepPart_opens _ _ Hqa), (keepPart_closes _ _ Hqb).
    simpl app.
    by rewrite (fold_plain_closed _ _ _ (no_quotes_pieces _ Hcomment)).
Qed.

Lemma quoted_line_shape (q : ascii) (K x y tail : string) :
  K +:+ String EQUALS (quoted q (x +:+ String HASH y) +:+ tail)
  = (K +:+ String EQUALS (String q x)) +:+ String HASH ((y +:+ String q "") +:+ tail).
Proof.
  unfold quoted. repeat (rewrite app_assoc || rewrite app_cons). done.
Qed.

(** A [#] between a pair of quotes starts no comment.  For every key
    text [K] and every value in double or in single quotes with a [#] in
    it (and no quote, backslash or line feed), the line of [K], [=] and
    the quoted value yields the text between the quotes, its [#]
    included; so does the line with a comment after the closing quote,
    when the comment has no quote in it. *)
Theorem hash_between_quotes_kept (q : ascii) (K x y comment : string) :
  q = DQ ∨ q = SQ →
  without K [EQUALS; HASH; DQ; SQ] → without x [HASH; DQ; SQ; LF; BS] →
  without y [HASH; DQ; SQ; LF; BS] → without comment [DQ; SQ] →
  parseLine (K +:+ String EQUALS (quoted q (x +:+ String HASH y)))
  = (TrimSpace (TrimPrefix K "export"), x +:+ String HASH y, None)
  ∧ parseLine (K +:+ String EQUALS (quoted q (x +:+ String HASH y) +:+ " #" +:+ comment))
    = (TrimSpace (TrimPrefix K "export"), x +:+ String HASH y, None).
Proof.
  intros Hq (HKe & HKrest)%without_cons
    (Hxh & Hxd & Hxs & (HxLF & HxBS & _)%without_cons_2)%without_cons_3
    (Hyh & Hyd & Hys & (HyLF & HyBS & _)%without_cons_2)%without_cons_3 Hcomment.
  apply without_cons_3 in HKrest as (HKh & HKd & HKs & _).
  assert (HqSP : Ascii.eqb q SP = false) by (by destruct Hq as [-> | ->]).
  assert (HqH : Ascii.eqb q HASH = false) by (by destruct Hq as [-> | ->]).
  assert (HqE : Ascii.eqb q EQUALS = false) by (by destruct Hq as [-> | ->]).
  set (a := K +:+ String EQUALS (String q x)).
  set (b := y +:+ String q "").
  set (b' := (y +:+ String q "") +:+ " ").
  assert (Ha : Contains a HASH = false).
  { unfold a. rewrite Contains_app, HKh. simpl. by rewrite HqH, Hxh. }
  assert (Hb : Contains b HASH = false).
  { unfold b. rewrite Contains_app, Hyh. simpl. by rewrite HqH. }
  assert (Hb' : Contains b' HASH = false).
  { unfold b'. rewrite Contains_app. fold b. by rewrite Hb. }
  assert (Hqa : (Count a DQ =? 1) || (Count a SQ =? 1) = true).
  { unfold a.
    change (K +:+ String EQUALS (String q x))
      with (K +:+ (String EQUALS "" +:+ String q x)).
    rewrite <- app_assoc.
    apply one_quote; [done| |by repeat constructor].
    unfold without. repeat constructor; rewrite Contains_app; simpl;
      by rewrite ?HKd, ?HKs. }
  assert (Hqb : (Count b DQ =? 1) || (Count b SQ =? 1) = true).
  { unfold b. apply one_quote; [done|by repeat constructor|by repeat constructor]. }
  assert (Hqb' : (Count b' DQ =? 1) || (Count b' SQ =? 1) = true).
  { unfold b'. rewrite app_assoc.
    apply one_quote; [done|by repeat constructor|by repeat constructor]. }
  assert (Hvalue : ∀ pad, Trim (quoted q (x +:+ String HASH y) +:+ pad) SP
                          = quoted q (x +:+ String HASH y) →
            parseValue (quoted q (x +:+ String HASH y) +:+ pad) = x +:+ String HASH y).
  { intros pad. apply parseValue_of_trimmed; [done| |].
    - rewrite Contains_app, HxLF. simpl. by rewrite HyLF.
    - rewrite Contains_app, HxBS. simpl. by rewrite HyBS. }
  assert (Hline : ∀ line pad,
            stripComment line = K +:+ String EQUALS (quoted q (x +:+ String HASH y) +:+ pad) →
            (len line =? 0) = false →
            Trim (quoted q (x +:+ String HASH y) +:+ pad) SP
            = quoted q (x +:+ String HASH y) →
            parseLine line
            = (TrimSpace (TrimPrefix K "export"), x +:+ String HASH y, None)).
  { intros line pad Hstrip Hlen HT. unfold parseLine.
    rewrite Hlen, Hstrip, (SplitN2_cut _ _ _ HKe), (Hvalue pad HT).
    unfold TrimPrefix. by destruct (HasPrefix K "export"). }
  destruct (stripComment_quoted_pair a b Ha Hb Hqa Hqb) as [H1 _].
  destruct (stripComment_quoted_pair a b' Ha Hb' Hqa Hqb') as [_ H2].
  assert (Hs0 : K +:+ String EQUALS (quoted q (x +:+ String HASH y))
                = a +:+ String HASH b).
  { rewrite <- (app_nil_r (quoted q _)), quoted_line_shape. by rewrite app_nil_r. }
  assert (Hs1 : K +:+ String EQUALS (quoted q (x +:+ String HASH y) +:+ " ")
                = a +:+ String HASH b') by apply quoted_line_shape.
  assert (Hs2 : K +:+ String EQUALS (quoted q (x +:+ String HASH y) +:+ " #" +:+ comment)
                = a +:+ String HASH (b' +:+ String HASH comment)).
  { change (" #" +:+ comment) with (" " +:+ String HASH comment).
    rewrite quoted_line_shape. unfold b'. by rewrite (app_assoc _ " "). }
  split.
  - apply (Hline _ "").
    + rewrite app_nil_r, Hs0. exact H1.
    + rewrite Hs0. apply len_app_cons.
    + rewrite app_nil_r. by apply Trim_quoted.
  - apply (Hline _ " ").
    + rewrite Hs2, Hs1. by apply H2.
    + rewrite Hs2. apply len_app_cons.
    + by apply Trim_quoted_space.
Qed.

Lemma hash_between_quotes_kept_witness :
  parseLine ("COLOR =" +:+ quoted SQ "#ff0000")
  = ("COLOR", "#ff0000", None)
  ∧ parseLine ("COLOR =" +:+ quoted SQ "#ff0000" +:+ " # red")
    = ("COLOR", "#ff0000", None).
Proof.
  apply (hash_between_quotes_kept SQ "COLOR " "" "ff0000" " red").
  - by right.
  - repeat constructor.
  - repeat constructor.
  - repeat constructor.
  - repeat constructor.
Defined.

(** A line in front of which [export] and a space are written parses to
    the same entry as the line itself, provided the text in front of its
    first [=] does not begin with [export]. *)
Theorem export_prefix_dropped (line rk rv : string) :
  SplitN2 (stripComment line) EQUALS = [rk; rv] → HasPrefix rk "export" = false →
  parseLine line = (TrimSpace rk, parseValue rv, None)
  ∧ parseLine ("export " +:+ line) = (TrimSpace rk, parseValue rv, None).
Proof.
  intros Hsplit Hrk.
  assert (Hlen : (len line =? 0) = false).
  { destruct line as [|a s]; [done|apply len_cons]. }
  split.
  - unfold parseLine. by rewrite Hlen, Hsplit, Hrk.
  - unfold parseLine.
    change ("export " +:+ line) with (String "e" ("xport " +:+ line)) at 1.
    rewrite len_cons.
    rewrite (stripComment_prefix "export " line) by (by repeat constructor).
    rewrite (SplitN2_prefix "export " _ _ _ EQUALS eq_refl Hsplit).
    change (HasPrefix ("export " +:+ rk) "export") with true. cbv iota.
    change (TrimPrefix ("export " +:+ rk) "export") with (String SP rk).
    by rewrite TrimSpace_space.
Qed.

Lemma export_prefix_dropped_witness :
  parseLine "PORT = 8080" = (TrimSpace "PORT ", parseValue " 8080", None)
  ∧ parseLine ("export " +:+ "PORT = 8080") = (TrimSpace "PORT ", parseValue " 8080", None).
Proof.
  apply (export_prefix_dropped "PORT = 8080" "PORT " " 8080"); reflexivity.
Defined.

Lemma scan_crlf (ls' ls : list string) :
  Forall2 (λ l' l, (l' = l ∨ l' = l +:+ String CR "") ∧ Contains l CR = false) ls' ls →
  map dropCR ls' = map dropCR ls
  ∧ (forallb (λ l, len l <? maxScanTokenSize) ls' = true →
     forallb (λ l, len l <? maxScanTokenSize) ls = true).
Proof.
  induction 1 as [|l' l ls' ls [Hl Hno] _ [IHm IHf]]; [done|].
  split.
  - simpl. f_equal; [|done].
    destruct Hl as [-> | ->]; [done|].
    by rewrite dropCR_snoc, dropCR_plain.
  - simpl. intros [Hfit Hrest]%andb_true_iff. rewrite (IHf Hrest), andb_true_r.
    destruct Hl as [-> | ->]; [done|].
    apply Z.ltb_lt in Hfit. apply Z.ltb_lt. unfold len in *.
    rewrite length_app in Hfit. lia.
Qed.

(** A text with no carriage return and the same text with a carriage
    return in front of every line feed: when the second scans, that is
    when none of its lines, carriage return included, is too long for
    the scanner, the first scans to the same lines, and the two parse to
    the same result. *)
Theorem parse_crlf (text : string) (lines : list string) :
  Contains text CR = false → scanLines (toCRLF text) = Some lines →
  scanLines text = Some lines ∧ parse (toCRLF text) = parse text.
Proof.
  intros HCR. unfold parse, scanLines.
  destruct (scan_crlf _ _ (rawLines_toCRLF _ HCR)) as [Hmap Hfit].
  destruct (forallb _ (rawLines (toCRLF text))); [|done].
  rewrite (Hfit eq_refl), Hmap. by intros [= <-].
Qed.

Lemma parse_crlf_witness :
  scanLines ("A=1" +:+ String LF "B=2" +:+ String LF "") = Some ["A=1"; "B=2"]
  ∧ parse (toCRLF ("A=1" +:+ String LF "B=2" +:+ String LF ""))
    = parse ("A=1" +:+ String LF "B=2" +:+ String LF "").
Proof.
  apply (parse_crlf ("A=1" +:+ String LF "B=2" +:+ String LF "")); reflexivity.
Defined.

End CommentTheorems.

(** * Facts about the flag set *)

Module FlagFacts.
Import Chars GoStrings GoStringsFacts SplitFacts FlagSpec.

Lemma Var_inv (value : Flag.Value) (name : string) (f f' : Flag.FlagSet) :
  Flag.Var value name f = Some f' →
  HasPrefix name "-" = false ∧ Contains name EQUALS = false
  ∧ Flag.formal f !! name = None ∧ f' = define name value f.
Proof.
  unfold Flag.Var. destruct (HasPrefix name "-"); [done|].
  destruct (Contains name EQUALS); [done|].
  destruct (Flag.formal f !! name); [done|]. by intros [= <-].
Qed.

Lemma Var_None (value : Flag.Value) (name : string) (f : Flag.FlagSet) :
  Flag.Var value name f = None ↔ refused name f.
Proof.
  unfold Flag.Var, refused. destruct (HasPrefix name "-"); [by intuition|].
  destruct (Contains name EQUALS); [by intuition|].
  destruct (Flag.formal f !! name) as [v|].
  - split; [intros _|done]. do 2 right. by exists v.
  - split; [done|]. intros [?|[?|[v ?]]]; done.
Qed.

Lemma sameKind_refl (a : Flag.Value) : sameKind a a = true.
Proof. by destruct a. Qed.

Lemma sameKind_trans (a b c : Flag.Value) :
  sameKind a b = true → sameKind b c = true → sameKind a c = true.
Proof. by destruct a, b, c. Qed.

Lemma keeps_refl (m : gmap string Flag.Value) : keeps m m.
Proof.
  intros name. destruct (m !! name); constructor. apply sameKind_refl.
Qed.

Lemma keeps_trans (m1 m2 m3 : gmap string Flag.Value) :
  keeps m1 m2 → keeps m2 m3 → keeps m1 m3.
Proof.
  intros H12 H23 name. specialize (H12 name). specialize (H23 name).
  destruct H12 as [a b Hab|]; inversion H23; constructor.
  by apply (sameKind_trans a b).
Qed.

Lemma keeps_insert (m : gmap string Flag.Value) (name : string) (v v' : Flag.Value) :
  m !! name = Some v → sameKind v v' = true → keeps m (<[name := v']> m).
Proof.
  intros Hm Hk name'. destruct (decide (name' = name)) as [->|Hne].
  - rewrite lookup_insert_eq, Hm. by constructor.
  - rewrite lookup_insert_ne by done. apply keeps_refl.
Qed.

Lemma keeps_lookup (m m' : gmap string Flag.Value) (name : string) (v : Flag.Value) :
  keeps m m' → m !! name = Some v → ∃ v', m' !! name = Some v' ∧ sameKind v v' = true.
Proof.
  intros H Hm. specialize (H name). rewrite Hm in H. inversion H. by eexists.
Qed.

Lemma keeps_None (m m' : gmap string Flag.Value) (name : string) :
  keeps m m' → m !! name = None → m' !! name = None.
Proof. intros H Hm. specialize (H name). rewrite Hm in H. by inversion H. Qed.

Section WithParseFloat.

Variable ParseFloat : string -> option float.

Lemma Set_kind (v v' : Flag.Value) (s : string) :
  Flag.Set_ ParseFloat v s = Some v' → sameKind v v' = true.
Proof. destruct v; simpl; intros H; by simplify_option_eq. Qed.

(** [flag.Parse] defines no flag, drops none and keeps the type of each. *)
Lemma parseArgs_keeps (arguments : list string) :
  ∀ formal formal',
    Flag.parseArgs ParseFloat arguments formal = Some formal' → keeps formal formal'.
Proof.
  remember (length arguments) as n eqn:Hn.
  revert arguments Hn. induction n as [n IH] using lt_wf_ind.
  intros [|s rest] Hn formal formal' H.
  - simpl in H. injection H as <-. apply keeps_refl.
  - cbn [Flag.parseArgs] in H. simpl in Hn.
    destruct ((len s <? 2) || negb (HasPrefix s "-")).
    { injection H as <-. apply keeps_refl. }
    destruct ((_ =? 2)%nat && (len s =? 2)).
    { injection H as <-. apply keeps_refl. }
    destruct (_ || _); [done|].
    destruct (Flag.nameValue _) as [name value].
    destruct (formal !! name) as [flag|] eqn:Hflag; [|done].
    assert (Hstep : ∀ text tail,
              (length tail < n)%nat →
              (Flag.Set_ ParseFloat flag text
               ≫= λ v, Flag.parseArgs ParseFloat tail (<[name := v]> formal))
              = Some formal' → keeps formal formal').
    { intros text tail Hlen Hs.
      destruct (Flag.Set_ ParseFloat flag text) as [v|] eqn:Hv; [|done]. simpl in Hs.
      apply (keeps_trans _ (<[name := v]> formal)).
      - apply (keeps_insert _ _ flag); [done|]. by apply Set_kind in Hv.
      - by apply (IH (length tail) Hlen tail eq_refl). }
    destruct flag as [b|i|fl|str].
    + apply (Hstep (default "true" value) rest); [lia|done].
    + destruct value as [value|]; [apply (Hstep value rest); [lia|done]|].
      destruct rest as [|value rest']; [done|].
      apply (Hstep value rest'); [simpl in Hn; lia|done].
    + destruct value as [value|]; [apply (Hstep value rest); [lia|done]|].
      destruct rest as [|value rest']; [done|].
      apply (Hstep value rest'); [simpl in Hn; lia|done].
    + destruct value as [value|]; [apply (Hstep value rest); [lia|done]|].
      destruct rest as [|value rest']; [done|].
      apply (Hstep value rest'); [simpl in Hn; lia|done].
Qed.

Lemma Parse_keeps (arguments : list string) (f f' : Flag.FlagSet) :
  Flag.Parse ParseFloat arguments f = Some f' →
  keeps (Flag.formal f) (Flag.formal f') ∧ Flag.parsed f' = true.
Proof.
  unfold Flag.Parse. intros H.
  destruct (Flag.parseArgs _ _ _) as [formal'|] eqn:Hp; [|done].
  injection H as <-. split; [|done]. by apply parseArgs_keeps in Hp.
Qed.



End WithParseFloat.

End FlagFacts.

(** ** Containers and the passes of [Behold] *)

Module ContainerFacts.
Import Reflect Container Configinator ContainerSpec.

Lemma Set_lookup_eq (i : nat) (v : Value) (config : Struct) :
  Set_ i v config !! i = (λ fv, (fv.1, v)) <$> config !! i.
Proof. apply list_lookup_alter_eq. Qed.

Lemma Set_lookup_ne (i j : nat) (v : Value) (config : Struct) :
  i ≠ j → Set_ i v config !! j = config !! j.
Proof. apply list_lookup_alter_ne. Qed.

Lemma Set_Set (i : nat) (v v' : Value) (config : Struct) :
  Set_ i v' (Set_ i v config) = Set_ i v' config.
Proof.
  unfold Set_. revert i.
  induction config as [|fv config IH]; intros [|i]; simpl; [done..|].
  f_equal. apply IH.
Qed.

(** Exactly one of the type tests holds of a supported type. *)
Ltac type_case ty name :=
  let E := fresh "Hty" in
  destruct (String.eqb_spec ty name) as [E|E]; [try rewrite E|].

Ltac type_cases ty :=
  type_case ty "bool";
  [|type_case ty "float64";
    [|type_case ty "int";
      [|type_case ty "string";
        [|type_case ty "time.time"]]]].

Lemma sources_set {A} (c : Container) (inj : A → Value) (i : nat)
    (env file flag : A * bool) (config : Struct) :
  fieldValue c = Some i →
  sources (λ a, setField c (inj a)) env file flag config
  = Some (match lastFound inj env file flag with
          | Some v => Set_ i v config
          | None => config
          end).
Proof.
  intros Hi. unfold sources, lastFound, found, orElse, whenOk, setField. rewrite Hi.
  destruct env as [e [|]], file as [f [|]], flag as [g [|]]; simpl;
    by rewrite ?Set_Set.
Qed.

Lemma sources_zero {A} (c : Container) (inj : A → Value)
    (env file flag : A * bool) (config config' : Struct) :
  fieldValue c = None →
  sources (λ a, setField c (inj a)) env file flag config = Some config' →
  config' = config.
Proof.
  intros Hi. unfold sources, whenOk, setField. rewrite Hi.
  destruct env as [e [|]], file as [f [|]], flag as [g [|]]; simpl; congruence.
Qed.

Section WithParseFloat.

Variable ParseFloat : string -> option float.

Lemma resolve_set (environ : gmap string string) (c : Container) (i : nat)
    (config : Struct) :
  fieldValue c = Some i →
  resolve ParseFloat environ c config
  = Some (match resolved ParseFloat environ c with
          | Some v => Set_ i v config
          | None => config
          end).
Proof.
  intros Hi. unfold resolve, resolved, IsBool, IsFloat, IsInt, IsString,
    SetConfigBool, SetConfigFloat, SetConfigInt, SetConfigString.
  type_cases (fieldType c); simpl; rewrite ?(sources_set _ _ i) by done; simpl;
    try done.
Qed.

Lemma resolve_zero (environ : gmap string string) (c : Container)
    (config config' : Struct) :
  fieldValue c = None → resolve ParseFloat environ c config = Some config' →
  config' = config.
Proof.
  intros Hi. unfold resolve, SetConfigBool, SetConfigFloat, SetConfigInt,
    SetConfigString.
  intros H.
  repeat match type of H with
  | context [if ?b then _ else _] => destruct b
  end; simpl in H.
  all: repeat match type of H with
  | (sources ?s ?e ?f ?g ?cfg ≫= _) = _ =>
      let E := fresh in let cfg' := fresh in
      destruct (sources s e f g cfg) as [cfg'|] eqn:E; [|done];
      apply (sources_zero c _ e f g) in E as ->; [|done]; simpl in H
  | sources ?s ?e ?f ?g ?cfg = _ =>
      apply (sources_zero c _ e f g) in H; [|done]
  end; congruence.
Qed.

(** [resolve] writes to the field of its container and to no other. *)
Lemma resolve_frame (environ : gmap string string) (c : Container)
    (config config' : Struct) (j : nat) :
  resolve ParseFloat environ c config = Some config' →
  fieldValue c ≠ Some j → config' !! j = config !! j.
Proof.
  intros H Hj. destruct (fieldValue c) as [i|] eqn:Hi.
  - rewrite (resolve_set _ _ i) in H by done. injection H as <-.
    destruct (resolved _ _ _); [|done].
    apply Set_lookup_ne. congruence.
  - by apply resolve_zero in H as ->.
Qed.

Lemma resolveAll_lookup (environ : gmap string string) (cs : list Container) :
  ∀ (off : nat) (config config' : Struct),
    resolveAll ParseFloat environ cs config = Some config' →
    (∀ p c, cs !! p = Some c →
            fieldValue c = None ∨ fieldValue c = Some (off + p)%nat) →
    (∀ j, (j < off)%nat → config' !! j = config !! j)
    ∧ ∀ p c, cs !! p = Some c → fieldValue c = Some (off + p)%nat →
        config' !! (off + p)%nat
        = (λ fv, (fv.1, default fv.2 (resolved ParseFloat environ c)))
            <$> config !! (off + p)%nat.
Proof.
  induction cs as [|c0 cs IH]; intros off config config' Hres Hfv.
  - simpl in Hres. injection Hres as <-. split; [done|]. intros p c Hp. done.
  - simpl in Hres.
    destruct (resolve ParseFloat environ c0 config) as [configA|] eqn:Hc0; [|done].
    simpl in Hres.
    destruct (IH (S off) configA config' Hres) as [Hlow Hat].
    { intros p c Hp. replace (S off + p)%nat with (off + S p)%nat by lia.
      by apply Hfv. }
    assert (Hframe : ∀ j, j ≠ off → configA !! j = config !! j).
    { intros j Hj. apply (resolve_frame _ _ _ _ _ Hc0).
      destruct (Hfv 0%nat c0 eq_refl) as [->| ->]; [done|].
      rewrite Nat.add_0_r. congruence. }
    split.
    + intros j Hj. rewrite Hlow by lia. apply Hframe. lia.
    + intros [|p] c Hp Hc.
      * simpl in Hp. injection Hp as ->. rewrite Nat.add_0_r in *.
        rewrite Hlow by lia.
        rewrite (resolve_set _ _ off) in Hc0 by done. injection Hc0 as <-.
        destruct (resolved _ _ _) as [v|]; simpl.
        -- apply Set_lookup_eq.
        -- by destruct (config !! off) as [[? ?]|].
      * simpl in Hp. replace (off + S p)%nat with (S off + p)%nat in * by lia.
        rewrite (Hat p c Hp Hc). by rewrite Hframe by lia.
Qed.

End WithParseFloat.

End ContainerFacts.

Module BeholdFacts.
Import Reflect Container Configinator ContainerSpec ContainerFacts FlagSpec FlagFacts.

Lemma timestampOf_parseTimeIn (s : string) : timestampOf s = parseTimeIn timeFormats s.
Proof.
  unfold timestampOf. generalize timeFormats. intros layouts.
  induction layouts as [|[name layout] layouts IH]; [done|].
  simpl. destruct (GoTime.Parse layout s); [done|]. exact IH.
Qed.

#[local] Arguments parseTimeIn : simpl never.

Section WithParseFloat.

Variable ParseFloat : string -> option float.

Lemma supported_other (ty : string) :
  ty ≠ "bool" → ty ≠ "float64" → ty ≠ "int" → ty ≠ "string" → ty ≠ "time.time" →
  supported ty = false.
Proof.
  intros. apply bool_decide_eq_false. unfold supportedTypes, resolvedTypes.
  simpl. rewrite !elem_of_cons, elem_of_nil. intuition congruence.
Qed.

Lemma supported_defaultFlag (ty d : string) :
  supported ty = true ↔ is_Some (defaultFlag ParseFloat ty d).
Proof.
  unfold defaultFlag. type_cases ty; simpl; try (split; [by eexists|done]).
  rewrite supported_other by done. split; [done|]. by intros [? ?].
Qed.

(** [SetDefaultValueOnConfig] writes the parsed default of a supported
    type and nothing for any other type. *)
Lemma SetDefaultValueOnConfig_set (c : Container) (i : nat) (config : Struct) :
  fieldValue c = Some i →
  SetDefaultValueOnConfig ParseFloat c config
  = Some (withDefault ParseFloat (fieldType c) (defaultValue c) i config).
Proof.
  intros Hi.
  unfold SetDefaultValueOnConfig, withDefault, IsBool, IsFloat, IsInt, IsString, IsTime,
    SetConfigBool, SetConfigFloat, SetConfigInt, SetConfigString, SetConfigTime, setField.
  rewrite Hi.
  type_cases (fieldType c); simpl.
  - unfold parsedDefault, parseAs, defaultValueToBool. simpl.
    destruct (Strconv.ParseBool (defaultValue c)); reflexivity.
  - unfold parsedDefault, parseAs, defaultValueToFloat. simpl.
    destruct (ParseFloat (defaultValue c)); reflexivity.
  - unfold parsedDefault, parseAs, defaultValueToInt. simpl.
    destruct (Strconv.Atoi (defaultValue c)); reflexivity.
  - done.
  - unfold parsedDefault, parseAs, defaultValueToTime, isTime, parseTime. simpl.
    rewrite timestampOf_parseTimeIn.
    destruct (parseTimeIn timeFormats (defaultValue c)); reflexivity.
  - by rewrite supported_other.
Qed.

(** [addFlag] defines one flag at most, the one of the type of the field. *)
Lemma addFlag_eq (c : Container) (fs : Flag.FlagSet) :
  addFlag ParseFloat c fs
  = match defaultFlag ParseFloat (fieldType c) (defaultValue c) with
    | Some v => fs' ← Flag.Var v (flagName c) fs; Some (withFlag ParseFloat c, fs')
    | None => Some (withFlag ParseFloat c, fs)
    end.
Proof.
  unfold addFlag, defaultFlag, withFlag, IsBool, IsFloat, IsInt, IsString, IsTime,
    defaultValueToBool, defaultValueToFloat, defaultValueToInt, defaultValueToString.
  type_cases (fieldType c); simpl; try done.
  - by destruct (Strconv.ParseBool (defaultValue c)), (Flag.Var _ _ _).
  - by destruct (ParseFloat (defaultValue c)), (Flag.Var _ _ _).
  - by destruct (Strconv.Atoi (defaultValue c)), (Flag.Var _ _ _).
  - by destruct (Flag.Var _ _ _).
  - by destruct (Flag.Var _ _ _).
Qed.

Lemma containerFor_fields (parsed : bool) (envFile : gmap string string) (i : nat)
    (f : StructField) (name : string) :
  let c := containerFor ParseFloat parsed envFile i f name in
  fieldValue c = Some i ∧ fieldType c = ToLower (TypeString f)
  ∧ defaultValue c = Get (Tag f) TagDefaultValue.
Proof. by destruct parsed. Qed.

Lemma New_ok (fs : Flag.FlagSet) (config : Struct) (i : nat)
    (envFile : gmap string string) (f : StructField) (v0 : Value) (name : string) :
  config !! i = Some (f, v0) → CanSet f = true →
  Lookup (Tag f) TagFlagName = Some name →
  New ParseFloat fs config i envFile
  = fs' ← withFlagOf ParseFloat fs (ToLower (TypeString f)) (Get (Tag f) TagDefaultValue)
            name;
    Some (containerFor ParseFloat (Flag.parsed fs) envFile i f name, None,
          withDefault ParseFloat (ToLower (TypeString f)) (Get (Tag f) TagDefaultValue)
            i config,
          fs').
Proof.
  intros Hi Hset Hflag. unfold New, withFlagOf, containerFor.
  rewrite Hi. simpl. rewrite Hset, Hflag. simpl.
  destruct (Flag.parsed fs); simpl.
  - by rewrite (SetDefaultValueOnConfig_set _ i).
  - rewrite addFlag_eq. simpl.
    destruct (defaultFlag ParseFloat _ _) as [v|]; simpl.
    + destruct (Flag.Var v name fs) as [fs'|]; [|done]. simpl.
      by rewrite (SetDefaultValueOnConfig_set _ i).
    + by rewrite (SetDefaultValueOnConfig_set _ i).
Qed.

(** The flag set after [withFlagOf]. *)
Lemma withFlagOf_inv (fs fs' : Flag.FlagSet) (ty d name : string) :
  withFlagOf ParseFloat fs ty d name = Some fs' →
  Flag.parsed fs' = Flag.parsed fs
  ∧ Flag.formal fs ⊆ Flag.formal fs'
  ∧ (Flag.parsed fs = true ∨ supported ty = false → fs' = fs)
  ∧ ∀ v, Flag.parsed fs = false → defaultFlag ParseFloat ty d = Some v →
         GoStrings.HasPrefix name "-" = false ∧ GoStrings.Contains name Chars.EQUALS = false
         ∧ Flag.formal fs !! name = None ∧ fs' = define name v fs.
Proof.
  unfold withFlagOf. intros H.
  destruct (Flag.parsed fs) eqn:Hp.
  { injection H as <-. repeat split; try done. }
  destruct (defaultFlag ParseFloat ty d) as [v|] eqn:Hv.
  - apply Var_inv in H as (Hdash & Heq & Hnew & ->).
    split; [done|]. split; [by apply insert_subseteq|]. split.
    + intros [?|Hsup]; [done|].
      assert (supported ty = true); [|congruence].
      apply (supported_defaultFlag ty d). by rewrite Hv.
    + intros v' _ [= <-]. done.
  - injection H as <-. repeat split; try done.
Qed.

Lemma withDefault_frame (ty d : string) (i j : nat) (config : Struct) :
  i ≠ j → withDefault ParseFloat ty d i config !! j = config !! j.
Proof.
  intros. unfold withDefault. destruct (supported ty); [|done].
  by apply Set_lookup_ne.
Qed.

(** The ways [New] returns. *)
Lemma New_cases (fs fs' : Flag.FlagSet) (config config' : Struct) (i : nat)
    (envFile : gmap string string) (c : Container) (e : option error) :
  New ParseFloat fs config i envFile = Some (c, e, config', fs') →
  ∃ f v0,
    config !! i = Some (f, v0)
    ∧ ((CanSet f = false ∧ e = Some ErrCantSet
        ∧ c = NewSpec.errorContainer envFile f ∧ config' = config ∧ fs' = fs)
       ∨ (CanSet f = true ∧ Lookup (Tag f) TagFlagName = None ∧ e = Some ErrNoFlagName
          ∧ c = NewSpec.errorContainer envFile f ∧ config' = config ∧ fs' = fs)
       ∨ (CanSet f = true ∧ e = None
          ∧ ∃ name,
              Lookup (Tag f) TagFlagName = Some name
              ∧ c = containerFor ParseFloat (Flag.parsed fs) envFile i f name
              ∧ config' = withDefault ParseFloat (ToLower (TypeString f))
                            (Get (Tag f) TagDefaultValue) i config
              ∧ withFlagOf ParseFloat fs (ToLower (TypeString f))
                  (Get (Tag f) TagDefaultValue) name = Some fs')).
Proof.
  intros H. destruct (config !! i) as [[f v0]|] eqn:Hi.
  2: { unfold New in H. by rewrite Hi in H. }
  exists f, v0. split; [done|].
  destruct (CanSet f) eqn:Hset.
  2: { unfold New in H. rewrite Hi in H. simpl in H. rewrite Hset in H.
       simpl in H. injection H as <- <- <- <-. by left. }
  destruct (Lookup (Tag f) TagFlagName) as [name|] eqn:Hflag.
  2: { unfold New in H. rewrite Hi in H. simpl in H. rewrite Hset, Hflag in H.
       simpl in H. injection H as <- <- <- <-. right; left. done. }
  rewrite (New_ok _ _ _ _ _ _ _ Hi Hset Hflag) in H.
  destruct (withFlagOf _ _ _ _ _) as [fs1|] eqn:Hfs; [|done].
  simpl in H. injection H as <- <- <- <-.
  right; right. split; [done|]. split; [done|]. by exists name.
Qed.

(** [New] writes to the field of its index and to no other, and its
    container refers to that field or to none. *)
Lemma New_frame (fs fs' : Flag.FlagSet) (config config' : Struct) (i : nat)
    (envFile : gmap string string) (c : Container) (e : option error) :
  New ParseFloat fs config i envFile = Some (c, e, config', fs') →
  (fieldValue c = None ∨ fieldValue c = Some i)
  ∧ ∀ j, j ≠ i → config' !! j = config !! j.
Proof.
  intros H. destruct (New_cases _ _ _ _ _ _ _ _ H) as (f & v0 & Hi & Hcases).
  destruct Hcases as [(_ & _ & -> & -> & _)|[(_ & _ & _ & -> & -> & _)
                     |(_ & _ & name & _ & -> & -> & _)]].
  - split; [by left|done].
  - split; [by left|done].
  - split; [right; apply containerFor_fields|].
    intros j Hj. by apply withDefault_frame.
Qed.

(** [New] defines no flag but its own, and leaves the mark of [flag.Parse]. *)
Lemma New_flags (fs fs' : Flag.FlagSet) (config config' : Struct) (i : nat)
    (envFile : gmap string string) (c : Container) (e : option error) :
  New ParseFloat fs config i envFile = Some (c, e, config', fs') →
  Flag.parsed fs' = Flag.parsed fs ∧ Flag.formal fs ⊆ Flag.formal fs'.
Proof.
  intros H. destruct (New_cases _ _ _ _ _ _ _ _ H) as (f & v0 & Hi & Hcases).
  destruct Hcases as [(_ & _ & _ & _ & ->)|[(_ & _ & _ & _ & _ & ->)
                     |(_ & _ & name & _ & _ & _ & Hfs)]]; [done|done|].
  by apply withFlagOf_inv in Hfs as (? & ? & _).
Qed.

Lemma newContainers_lookup (envFile : gmap string string) (n : nat) :
  ∀ (off : nat) (fs fs1 : Flag.FlagSet) (config config1 : Struct) (cs : list Container),
    newContainers ParseFloat fs envFile (seq off n) config = Some (cs, config1, fs1) →
    (∀ p c, cs !! p = Some c →
            fieldValue c = None ∨ fieldValue c = Some (off + p)%nat)
    ∧ (∀ j, (j < off)%nat → config1 !! j = config !! j)
    ∧ ∀ p f v0 name,
        (p < n)%nat → config !! (off + p)%nat = Some (f, v0) → CanSet f = true →
        Lookup (Tag f) TagFlagName = Some name →
        cs !! p = Some (containerFor ParseFloat (Flag.parsed fs) envFile (off + p) f name)
        ∧ config1 !! (off + p)%nat
          = withDefault ParseFloat (ToLower (TypeString f)) (Get (Tag f) TagDefaultValue)
              (off + p) config !! (off + p)%nat.
Proof.
  induction n as [|n IH]; intros off fs fs1 config config1 cs Hnew.
  - simpl in Hnew. injection Hnew as <- <- <-.
    split; [done|]. split; [done|]. intros; lia.
  - simpl in Hnew.
    destruct (New ParseFloat fs config off envFile) as [[[[c0 e0] configA] fsA]|] eqn:HN;
      [|done].
    simpl in Hnew.
    destruct (newContainers ParseFloat fsA envFile (seq (S off) n) configA)
      as [[[cs' configB] fsB]|] eqn:Hrest; [|done].
    simpl in Hnew. injection Hnew as <- <- <-.
    destruct (New_frame _ _ _ _ _ _ _ _ HN) as [Hfv0 HframeA].
    destruct (New_flags _ _ _ _ _ _ _ _ HN) as [HpA _].
    destruct (IH _ _ _ _ _ _ Hrest) as (Hfv & Hlow & Hat).
    split; [|split].
    + intros [|p] c Hp; simpl in Hp.
      * injection Hp as <-. by rewrite Nat.add_0_r.
      * replace (off + S p)%nat with (S off + p)%nat by lia. by apply Hfv.
    + intros j Hj. rewrite Hlow by lia. apply HframeA. lia.
    + intros [|p] f v0 name Hp Hi Hset Hflag.
      * rewrite Nat.add_0_r in *.
        rewrite (New_ok _ _ _ _ _ _ _ Hi Hset Hflag) in HN.
        destruct (withFlagOf _ _ _ _ _) as [fs'|]; [|done]. simpl in HN.
        injection HN as <- <- <- <-.
        split; [done|]. apply Hlow. lia.
      * replace (off + S p)%nat with (S off + p)%nat in * by lia.
        assert (Hi' : configA !! (S off + p)%nat = Some (f, v0)).
        { rewrite HframeA by lia. done. }
        destruct (Hat p f v0 name ltac:(lia) Hi' Hset Hflag) as [Hc Hv].
        rewrite HpA in Hc.
        split; [done|]. rewrite Hv.
        unfold withDefault. destruct (supported _); [|by apply HframeA; lia].
        rewrite !Set_lookup_eq. by rewrite Hi', Hi.
Qed.



(** *** Reading the flag variables anew *)

Lemma load_fields (fs : Flag.FlagSet) (c : Container) :
  fieldValue (load fs c) = fieldValue c ∧ fieldType (load fs c) = fieldType c
  ∧ defaultValue (load fs c) = defaultValue c ∧ envName (load fs c) = envName c
  ∧ envFile (load fs c) = envFile c ∧ flagName (load fs c) = flagName c.
Proof. done. Qed.

(** A container with no flag variable has none after [load]. *)
Lemma load_nil (fs : Flag.FlagSet) (c : Container) :
  boolValue c = None → floatValue c = None → intValue c = None →
  stringValue c = None → timeValue c = None → load fs c = c.
Proof. destruct c. simpl. by intros -> -> -> -> ->. Qed.

Lemma load_errorContainer (fs : Flag.FlagSet) (envFile : gmap string string)
    (f : StructField) :
  load fs (NewSpec.errorContainer envFile f) = NewSpec.errorContainer envFile f.
Proof. by apply load_nil. Qed.


(** The flag variable of a field of a type with a resolution pass,
    read after [flag.Parse]. *)
Lemma load_pointer (fs : Flag.FlagSet) (envFile : gmap string string) (i : nat)
    (f : StructField) (name : string) (v x : Flag.Value) :
  ToLower (TypeString f) ∈ resolvedTypes →
  defaultFlag ParseFloat (ToLower (TypeString f)) (Get (Tag f) TagDefaultValue) = Some v →
  Flag.formal fs !! name = Some x → sameKind v x = true →
  pointerOf (ToLower (TypeString f)) (load fs (containerFor ParseFloat false envFile i f name))
  = Some (ofFlag x).
Proof.
  unfold resolvedTypes. rewrite !elem_of_cons, elem_of_nil.
  unfold defaultFlag, pointerOf, load, containerFor, withFlag,
    IsBool, IsFloat, IsInt, IsString, IsTime.
  cbn [negb fieldType flagName boolValue floatValue intValue stringValue timeValue].
  generalize (ToLower (TypeString f)). intros ty Hty Hv Hx Hk. rewrite Hx.
  destruct Hty as [-> | [-> | [-> | [-> | []]]]]; simpl in Hv |- *;
    injection Hv as <-; by destruct x.
Qed.

End WithParseFloat.

End BeholdFacts.

Module BeholdField.
Import Reflect Container Configinator ContainerSpec BeholdSpec.
Import ContainerFacts FlagSpec FlagFacts BeholdFacts.

#[local] Arguments parseTimeIn : simpl never.
#[local] Arguments Strconv.ParseBool : simpl never.
#[local] Arguments Strconv.Atoi : simpl never.
#[local] Arguments Strconv.ParseInt : simpl never.
#[local] Arguments Getenv : simpl never.

Lemma in_resolvedTypes (ty : string) :
  ty ∈ resolvedTypes ↔ ty = "bool" ∨ ty = "int" ∨ ty = "float64" ∨ ty = "string".
Proof.
  unfold resolvedTypes. rewrite !elem_of_cons, elem_of_nil. intuition.
Qed.


Section WithParseFloat.

Variable ParseFloat : string -> option float.

(** What [Behold] goes through when it returns. *)
Lemma Behold_passes (w : World) (config config' : Struct) :
  Behold ParseFloat w config = Some config' →
  ∃ envFile cs config1 fs1 fs,
    readEnvFile (dotenv w) = Some envFile
    ∧ newContainers ParseFloat (flags w) envFile (seq 0 (length config)) config
      = Some (cs, config1, fs1)
    ∧ parseFlags ParseFloat (args w) fs1 = Some fs
    ∧ flagsAfter ParseFloat w config = Some fs
    ∧ resolveAll ParseFloat (environ w) (load fs <$> cs) config1 = Some config'.
Proof.
  intros HB. unfold Behold in HB. unfold flagsAfter.
  destruct (readEnvFile (dotenv w)) as [envFile|] eqn:Henv; [|done]. simpl in HB.
  destruct (newContainers _ _ _ _ config) as [[[cs config1] fs1]|] eqn:Hnew; [|done].
  simpl in HB.
  destruct (parseFlags ParseFloat (args w) fs1) as [fs|] eqn:Hparse; [|done].
  simpl in HB. exists envFile, cs, config1, fs1, fs. simpl.
  repeat split; try done. by rewrite Hnew.
Qed.

(** What [Behold] leaves in a field that can be set and has a flag name:
    the default that [New] wrote (for a supported type), overwritten by
    what the resolution pass found for the container of the field. *)
Lemma Behold_field (w : World) (config config' : Struct) (i : nat)
    (f : StructField) (v0 : Value) (name : string) :
  Behold ParseFloat w config = Some config' →
  config !! i = Some (f, v0) → CanSet f = true →
  Lookup (Tag f) TagFlagName = Some name →
  ∃ envFile fs,
    readEnvFile (dotenv w) = Some envFile
    ∧ flagsAfter ParseFloat w config = Some fs
    ∧ config' !! i
      = Some (f, default
                   (if supported (ToLower (TypeString f))
                    then parsedDefault ParseFloat (ToLower (TypeString f))
                           (Get (Tag f) TagDefaultValue)
                    else v0)
                   (resolved ParseFloat (environ w)
                      (load fs (containerFor ParseFloat (Flag.parsed (flags w)) envFile
                                  i f name)))).
Proof.
  intros HB Hi Hset Hflag.
  destruct (Behold_passes _ _ _ HB)
    as (envFile & cs & config1 & fs1 & fs & Henv & Hnew & Hparse & Hafter & Hres).
  destruct (newContainers_lookup ParseFloat _ _ _ _ _ _ _ _ Hnew) as (Hfv & _ & Hat).
  pose proof (lookup_lt_Some _ _ _ Hi) as Hlt.
  destruct (Hat i f v0 name Hlt Hi Hset Hflag) as [Hc Hv]. simpl in Hc, Hv.
  exists envFile, fs. split; [done|]. split; [done|].
  destruct (resolveAll_lookup ParseFloat _ _ 0%nat _ _ Hres) as [_ Hat'].
  { intros p c Hp. apply list_lookup_fmap_Some in Hp as (c0 & -> & Hc0).
    change (fieldValue (load fs c0)) with (fieldValue c0). by apply (Hfv p). }
  specialize (Hat' i (load fs (containerFor ParseFloat (Flag.parsed (flags w)) envFile
                                 i f name))).
  simpl in Hat'. rewrite Hat'.
  2: { by rewrite list_lookup_fmap, Hc. }
  2: { apply containerFor_fields. }
  rewrite Hv. unfold withDefault.
  destruct (supported (ToLower (TypeString f))).
  - rewrite Set_lookup_eq, Hi. done.
  - rewrite Hi. done.
Qed.


(** The accessors against the vocabulary of the claims. *)









Lemma FlagBool_source (c : Container) :
  found VBool (FlagBool c)
  = pointerSource ParseFloat "bool" (defaultValue c) (VBool <$> boolValue c).
Proof.
  unfold found, FlagBool, pointerSource, parsedDefault, parseAs, defaultValueToBool.
  destruct (boolValue c) as [v|]; [|done]. simpl.
  destruct (Strconv.ParseBool _); simpl; by destruct (negb _).
Qed.

Lemma FlagInt_source (c : Container) :
  found VInt (FlagInt c)
  = pointerSource ParseFloat "int" (defaultValue c) (VInt <$> intValue c).
Proof.
  unfold found, FlagInt, pointerSource, parsedDefault, parseAs, defaultValueToInt.
  destruct (intValue c) as [v|]; [|done]. simpl.
  destruct (Strconv.Atoi _); simpl; by destruct (negb _).
Qed.

Lemma FlagFloat_source (c : Container) :
  found VFloat (FlagFloat ParseFloat c)
  = pointerSource ParseFloat "float64" (defaultValue c) (VFloat <$> floatValue c).
Proof.
  unfold found, FlagFloat, pointerSource, parsedDefault, parseAs, defaultValueToFloat.
  destruct (floatValue c) as [v|]; [|done]. simpl.
  destruct (ParseFloat _); simpl; by destruct (negb _).
Qed.

Lemma FlagString_source (c : Container) :
  found VString (FlagString c)
  = pointerSource ParseFloat "string" (defaultValue c) (VString <$> stringValue c).
Proof.
  unfold found, FlagString, pointerSource, parsedDefault, parseAs, defaultValueToString.
  destruct (stringValue c) as [v|]; [|done]. simpl.
  by destruct (negb _).
Qed.




Lemma ofFlag_default (ty d : string) (v : Flag.Value) :
  ty ∈ resolvedTypes → defaultFlag ParseFloat ty d = Some v →
  ofFlag v = parsedDefault ParseFloat ty d.
Proof.
  intros Hty%in_resolvedTypes Hv. unfold defaultFlag, parsedDefault, parseAs in *.
  destruct Hty as [-> | [-> | [-> | ->]]]; simpl in Hv |- *; injection Hv as <-; simpl.
  - by destruct (Strconv.ParseBool d).
  - by destruct (Strconv.Atoi d).
  - by destruct (ParseFloat d).
  - done.
Qed.

End WithParseFloat.

End BeholdField.

(** * The claims about the containers and [Behold] *)

Module ConfiginatorTheorems.
Import Reflect Container Configinator ContainerSpec FlagSpec BeholdSpec.
Import ContainerFacts FlagFacts BeholdFacts BeholdField.
Import Samples.

#[local] Arguments parseTimeIn : simpl never.
#[local] Arguments Strconv.ParseBool : simpl never.
#[local] Arguments Strconv.Atoi : simpl never.
#[local] Arguments Strconv.ParseInt : simpl never.
#[local] Arguments Getenv : simpl never.






(** C3, at the input where the code departs from it.  A timestamp field
    with the default [2006-01-02] holds midnight of that day after
    [Behold] when nothing else is given; and it holds the same midnight
    when the environment variable is [2006-01-02T15:04:05Z], although
    [EnvTime] finds that instant: the resolution pass has no step for
    timestamps. *)
Theorem timestamp_override_not_applied (ParseFloat : string → option float) :
  Behold ParseFloat (mkWorld ∅ None Flag.CommandLine []) [(startField, VTime GoTime.zero)]
  = Some [(startField, VTime (GoTime.mkTime 2006 1 2 0 0 0 0 GoTime.UTC))]
  ∧ Behold ParseFloat
      (mkWorld {["START" := "2006-01-02T15:04:05Z"]} None Flag.CommandLine [])
      [(startField, VTime GoTime.zero)]
    = Some [(startField, VTime (GoTime.mkTime 2006 1 2 0 0 0 0 GoTime.UTC))]
  ∧ EnvTime {["START" := "2006-01-02T15:04:05Z"]}
      (containerFor ParseFloat false ∅ 0 startField "start")
    = (GoTime.mkTime 2006 1 2 15 4 5 0 GoTime.UTC, true).
Proof. repeat split; vm_compute; reflexivity. Qed.

(** Whatever the sources hold, [Behold] leaves the parsed default in a
    timestamp field. *)
Lemma Behold_timestamp_field (ParseFloat : string → option float) (w : World)
    (config config' : Struct) (i : nat) (f : StructField) (v0 : Value) (name : string) :
  Behold ParseFloat w config = Some config' →
  config !! i = Some (f, v0) → CanSet f = true →
  Lookup (Tag f) TagFlagName = Some name →
  ToLower (TypeString f) = "time.time" →
  config' !! i
  = Some (f, VTime (default GoTime.zero
                      (parseTimeIn timeFormats (Get (Tag f) TagDefaultValue)))).
Proof.
  intros HB Hi Hset Hflag Hty.
  destruct (Behold_field _ _ _ _ _ _ _ _ HB Hi Hset Hflag)
    as (envFile & fs & Henv & Hafter & Hv).
  rewrite Hv, Hty. f_equal. f_equal.
  unfold resolved, IsBool, IsFloat, IsInt, IsString.
  rewrite (proj1 (proj2 (load_fields _ _))),
    (proj1 (proj2 (containerFor_fields ParseFloat _ _ _ _ _))), Hty. simpl.
  unfold parsedDefault, parseAs. simpl. rewrite timestampOf_parseTimeIn.
  by destruct (parseTimeIn timeFormats _).
Qed.





End ConfiginatorTheorems.

(** * The claims about the accessors *)

Module AccessorTheorems.
Import Reflect Container Configinator ContainerSpec AccessorSpec FlagSpec.
Import ContainerFacts FlagFacts BeholdFacts BeholdField Samples.

#[local] Arguments parseTimeIn : simpl never.
#[local] Arguments Strconv.ParseBool : simpl never.
#[local] Arguments Strconv.Atoi : simpl never.
#[local] Arguments Getenv : simpl never.

(** What the accessors do with a value that is present, not empty and
    fails to parse as the type of the field.  The environment accessor
    and the env-file accessor of a bool, int or float64 field report
    not-found (the zero value and [false]), never an error.  No text
    fails to parse as a string: the string accessors report it found.
    The timestamp accessors do not check the parse: they report found,
    with the zero timestamp. *)
Theorem unparsable_values (ParseFloat : string → option float)
    (environ : gmap string string) (c : Container) (value : string) :
  value ≠ "" →
  (Getenv environ (envName c) = value →
     (Strconv.ParseBool value = None → EnvBool environ c = (false, false))
     ∧ (Strconv.Atoi value = None → EnvInt environ c = (0, false))
     ∧ (ParseFloat value = None → EnvFloat ParseFloat environ c = (0%float, false))
     ∧ EnvString environ c = (value, true)
     ∧ (parseTimeIn timeFormats value = None → EnvTime environ c = (GoTime.zero, true)))
  ∧ (envFile c !! envName c = Some value →
     (Strconv.ParseBool value = None → EnvFileBool c = (false, false))
     ∧ (Strconv.Atoi value = None → EnvFileInt c = (0, false))
     ∧ (ParseFloat value = None → EnvFileFloat ParseFloat c = (0%float, false))
     ∧ EnvFileString c = (value, true)
     ∧ (parseTimeIn timeFormats value = None → EnvFileTime c = (GoTime.zero, true))).
Proof.
  intros Hne. apply String.eqb_neq in Hne. split.
  - intros He.
    unfold EnvBool, EnvInt, EnvFloat, EnvString, EnvTime, parseTime.
    rewrite He, Hne. simpl.
    repeat split; by intros ->.
  - intros Hf.
    unfold EnvFileBool, EnvFileInt, EnvFileFloat, EnvFileString, EnvFileTime, parseTime.
    rewrite Hf.
    repeat split; by intros ->.
Qed.

Lemma unparsable_values_witness :
  EnvInt {["HOST_PORT" := "80b"]} (containerFor ParseFloat_literals false ∅ 0 portField "port")
  = (0, false).
Proof.
  destruct (unparsable_values ParseFloat_literals {["HOST_PORT" := "80b"]}
              (containerFor ParseFloat_literals false ∅ 0 portField "port") "80b")
    as [Henv _]; [discriminate|].
  destruct Henv as (_ & Hint & _); [vm_compute; reflexivity|].
  apply Hint. vm_compute. reflexivity.
Defined.

(** C2, at an input where the code departs from it.  The text [garbage]
    matches none of the layouts, and yet the environment accessor and
    the env-file accessor of a timestamp field both report it found,
    with the zero timestamp, where those of the other types report an
    unparsable value not-found. *)
Lemma unparsable_timestamp_found :
  parseTimeIn timeFormats "garbage" = None
  ∧ EnvTime {["START" := "garbage"]}
      (containerFor ParseFloat_literals false ∅ 0 startField "start")
    = (GoTime.zero, true)
  ∧ EnvFileTime
      (containerFor ParseFloat_literals false {["START" := "garbage"]} 0 startField "start")
    = (GoTime.zero, true).
Proof. repeat split; vm_compute; reflexivity. Qed.

(** C5, as amended.  With the environment variable and the env-file entry
    of the declared name both holding [v]: for a [v] that is not empty the
    env-file accessor and the environment accessor of every field type
    return the same pair; for the empty [v] those of bool and int fields
    (and of float64 fields, the empty text being no number) agree on
    not-found, while the env-file accessor of a string field reports the
    empty string found where the environment accessor reports
    not-found. *)
Theorem env_file_against_environment (ParseFloat : string → option float)
    (environ : gmap string string) (c : Container) (v : string) :
  Getenv environ (envName c) = v → envFile c !! envName c = Some v →
  (v ≠ "" →
     EnvFileBool c = EnvBool environ c
     ∧ EnvFileInt c = EnvInt environ c
     ∧ EnvFileFloat ParseFloat c = EnvFloat ParseFloat environ c
     ∧ EnvFileString c = EnvString environ c
     ∧ EnvFileTime c = EnvTime environ c)
  ∧ (v = "" →
     EnvFileBool c = EnvBool environ c
     ∧ EnvFileInt c = EnvInt environ c
     ∧ (ParseFloat "" = None → EnvFileFloat ParseFloat c = EnvFloat ParseFloat environ c)
     ∧ EnvFileString c = ("", true) ∧ EnvString environ c = ("", false)).
Proof.
  intros He Hf.
  unfold EnvFileBool, EnvFileInt, EnvFileFloat, EnvFileString, EnvFileTime,
    EnvBool, EnvInt, EnvFloat, EnvString, EnvTime, parseTime.
  rewrite He, Hf. split.
  - intros Hne%String.eqb_neq. rewrite Hne. simpl. done.
  - intros ->. simpl. repeat split; try done. by intros ->.
Qed.

Lemma env_file_against_environment_witness :
  EnvFileInt (containerFor ParseFloat_literals false {["HOST_PORT" := "7070"]} 0
                portField "port")
  = EnvInt {["HOST_PORT" := "7070"]}
      (containerFor ParseFloat_literals false {["HOST_PORT" := "7070"]} 0 portField "port").
Proof.
  destruct (env_file_against_environment ParseFloat_literals {["HOST_PORT" := "7070"]}
              (containerFor ParseFloat_literals false {["HOST_PORT" := "7070"]} 0
                 portField "port") "7070") as [H _];
    [vm_compute; reflexivity|vm_compute; reflexivity|].
  destruct H as (_ & Hint & _); [discriminate|]. exact Hint.
Defined.

(** C5 as stated fails at the empty string: the env-file accessor of a
    string field reports it found, the environment accessor does not. *)
Lemma empty_value_found_in_file_only :
  EnvFileString (mkContainer None "" "" {["HOST" := ""]} "HOST"
                   (mkStructField "Host" "string" [] true) "Host" "string" (Some 0%nat)
                   "host" None None None None)
  = ("", true)
  ∧ EnvString {["HOST" := ""]}
      (mkContainer None "" "" {["HOST" := ""]} "HOST"
         (mkStructField "Host" "string" [] true) "Host" "string" (Some 0%nat)
         "host" None None None None)
    = ("", false).
Proof. split; vm_compute; reflexivity. Qed.

(** C4, as amended.  For a bool, int, float64 or string field the flag
    accessor reports found, with the value of the flag variable, exactly
    when that value differs (Go's [!=]; a NaN differs from itself) from the
    type-appropriate parse of the default.  For a timestamp field it
    reports found, with the parse of the flag's text, exactly when that
    text differs from the text of the default.  With no flag variable it
    reports not-found.  In particular a flag given on the command line
    with exactly the default (for a timestamp: the same text; for a
    float64: not a NaN) is reported not-found, as a flag that is not
    given. *)
Theorem flag_accessor_reports (ParseFloat : string → option float) :
  (∀ c ty v, ty ∈ resolvedTypes → pointerOf ty c = Some v →
     flagAccessor ParseFloat ty c
     = if differs v (parsedDefault ParseFloat ty (defaultValue c)) then Some v else None)
  ∧ (∀ c s, timeValue c = Some s →
       flagAccessor ParseFloat "time.time" c
       = if negb (String.eqb s (defaultValue c)) then Some (VTime (parseTime c s))
         else None)
  ∧ (∀ c ty, ty ∈ resolvedTypes → pointerOf ty c = None →
       flagAccessor ParseFloat ty c = None)
  ∧ (∀ c, timeValue c = None → flagAccessor ParseFloat "time.time" c = None)
  ∧ (∀ envFile i f name fs arguments fs1 v a,
       ToLower (TypeString f) ∈ resolvedTypes →
       defaultFlag ParseFloat (ToLower (TypeString f)) (Get (Tag f) TagDefaultValue)
       = Some v →
       Flag.formal fs !! name = Some v →
       Flag.Parse ParseFloat arguments fs = Some fs1 →
       Flag.formal fs1 !! name = Some a →
       ofFlag a
       = parsedDefault ParseFloat (ToLower (TypeString f)) (Get (Tag f) TagDefaultValue) →
       differs (ofFlag a) (ofFlag a) = false →
       flagAccessor ParseFloat (ToLower (TypeString f))
         (load fs1 (containerFor ParseFloat false envFile i f name)) = None
       ∧ flagAccessor ParseFloat (ToLower (TypeString f))
           (load fs (containerFor ParseFloat false envFile i f name)) = None)
  ∧ (∀ envFile i f name fs arguments fs1,
       ToLower (TypeString f) = "time.time" →
       Flag.formal fs !! name = Some (Flag.String_ (Get (Tag f) TagDefaultValue)) →
       Flag.Parse ParseFloat arguments fs = Some fs1 →
       Flag.formal fs1 !! name = Some (Flag.String_ (Get (Tag f) TagDefaultValue)) →
       flagAccessor ParseFloat "time.time"
         (load fs1 (containerFor ParseFloat false envFile i f name)) = None
       ∧ flagAccessor ParseFloat "time.time"
           (load fs (containerFor ParseFloat false envFile i f name)) = None).
Proof.
  assert (Hreg : ∀ c ty p, ty ∈ resolvedTypes → pointerOf ty c = p →
            flagAccessor ParseFloat ty c
            = pointerSource ParseFloat ty (defaultValue c) p).
  { intros c ty p Hty%in_resolvedTypes <-. unfold flagAccessor, pointerOf.
    destruct Hty as [-> | [-> | [-> | ->]]]; simpl.
    - apply FlagBool_source.
    - apply FlagInt_source.
    - apply FlagFloat_source.
    - apply FlagString_source. }
  assert (Htime : ∀ c, flagAccessor ParseFloat "time.time" c
            = s ← timeValue c;
              if negb (String.eqb s (defaultValue c)) then Some (VTime (parseTime c s))
              else None).
  { intros c. unfold flagAccessor, found, FlagTime. simpl.
    destruct (timeValue c) as [s|]; [|done]. simpl. by destruct (negb _). }
  split; [|split; [|split; [|split; [|split]]]].
  - intros c ty v Hty Hp. by rewrite (Hreg _ _ _ Hty Hp).
  - intros c s Hs. by rewrite Htime, Hs.
  - intros c ty Hty Hp. by rewrite (Hreg _ _ _ Hty Hp).
  - intros c Hs. by rewrite Htime, Hs.
  - intros envFile i f name fs arguments fs1 v a Hty Hv Hfs Hparse Hfs1 Ha Hself.
    apply Parse_keeps in Hparse as [Hkeeps _].
    destruct (keeps_lookup _ _ _ _ Hkeeps Hfs) as (a' & Ha' & Hk).
    rewrite Hfs1 in Ha'. injection Ha' as <-.
    pose proof (load_pointer ParseFloat fs1 envFile i f name v a Hty Hv Hfs1 Hk) as Hp1.
    pose proof (load_pointer ParseFloat fs envFile i f name v v Hty Hv Hfs
                  (sameKind_refl v)) as Hp0.
    rewrite (Hreg _ _ _ Hty Hp1), (Hreg _ _ _ Hty Hp0).
    rewrite (ofFlag_default ParseFloat _ _ _ Hty Hv), <- Ha.
    unfold pointerSource. simpl.
    change (defaultValue (load fs1 (containerFor ParseFloat false envFile i f name)))
      with (Get (Tag f) TagDefaultValue).
    change (defaultValue (load fs (containerFor ParseFloat false envFile i f name)))
      with (Get (Tag f) TagDefaultValue).
    rewrite <- Ha. by rewrite Hself.
  - intros envFile i f name fs arguments fs1 Hty Hfs _ Hfs1.
    rewrite !Htime.
    unfold load, containerFor, withFlag, IsBool, IsFloat, IsInt, IsString, IsTime.
    cbn [negb fieldType flagName timeValue defaultValue].
    rewrite Hty, Hfs, Hfs1. simpl.
    unfold defaultValueToString. simpl. by rewrite String.eqb_refl.
Qed.

Lemma flag_accessor_reports_witness :
  flagAccessor ParseFloat_literals "int"
    (mkContainer None "8080" "" ∅ "HOST_PORT" portField "Port" "int" (Some 0%nat) "port"
       None (Some 6060) None None)
  = Some (VInt 6060).
Proof.
  destruct (flag_accessor_reports ParseFloat_literals) as (H & _).
  rewrite (H _ "int" (VInt 6060)).
  - reflexivity.
  - apply (proj2 (in_resolvedTypes _)). right; left. reflexivity.
  - reflexivity.
Defined.

(** C4 as stated fails for timestamps: with the default [2006-01-02] and
    the flag given as [2006-01-02T00:00:00], the value of the flag is the
    parse of the default, midnight of that day, and yet the accessor
    reports it found. *)
Lemma flag_equal_to_default_reported_found :
  ∃ c config' fs fs',
    New ParseFloat_literals Flag.CommandLine [(startField, VTime GoTime.zero)] 0 ∅
    = Some (c, None, config', fs)
    ∧ Flag.Parse ParseFloat_literals ["-start=2006-01-02T00:00:00"] fs = Some fs'
    ∧ FlagTime (load fs' c) = (GoTime.mkTime 2006 1 2 0 0 0 0 GoTime.UTC, true)
    ∧ parseTime (load fs' c) "2006-01-02T00:00:00" = defaultValueToTime (load fs' c).
Proof.
  eexists _, _, _, _. split; [vm_compute; reflexivity|].
  split; [vm_compute; reflexivity|]. split; vm_compute; reflexivity.
Qed.

End AccessorTheorems.

(** * Further properties of the containers and of [Behold] *)

Module NewFacts.
Import Reflect Container Configinator ContainerSpec NewSpec FlagSpec BeholdSpec.
Import ContainerFacts FlagFacts BeholdFacts BeholdField.

#[local] Arguments parseTimeIn : simpl never.
#[local] Arguments Strconv.ParseBool : simpl never.
#[local] Arguments Strconv.Atoi : simpl never.
#[local] Arguments Getenv : simpl never.

Lemma Set_fst (i : nat) (v : Value) (config : Struct) :
  map fst (Set_ i v config) = map fst config.
Proof.
  unfold Set_. revert i.
  induction config as [|fv config IH]; intros [|i]; simpl; [done..|].
  f_equal. apply IH.
Qed.

Section WithParseFloat.

Variable ParseFloat : string -> option float.

Lemma withDefault_fst (ty d : string) (i : nat) (config : Struct) :
  map fst (withDefault ParseFloat ty d i config) = map fst config.
Proof. unfold withDefault. destruct (supported ty); [apply Set_fst|done]. Qed.

Lemma New_fst (fs fs' : Flag.FlagSet) (config config' : Struct) (i : nat)
    (envFile : gmap string string) (c : Container) (e : option error) :
  New ParseFloat fs config i envFile = Some (c, e, config', fs') →
  map fst config' = map fst config.
Proof.
  intros H. destruct (New_cases _ _ _ _ _ _ _ _ _ H) as (f & v0 & Hi & Hcases).
  destruct Hcases as [(_ & _ & _ & -> & _)|[(_ & _ & _ & _ & -> & _)
                     |(_ & _ & name & _ & _ & -> & _)]];
    [done|done|apply withDefault_fst].
Qed.

Lemma newContainers_fst (envFile : gmap string string) (indexes : list nat) :
  ∀ (fs fs1 : Flag.FlagSet) (config config1 : Struct) (cs : list Container),
    newContainers ParseFloat fs envFile indexes config = Some (cs, config1, fs1) →
    map fst config1 = map fst config.
Proof.
  induction indexes as [|i indexes IH]; intros fs fs1 config config1 cs Hnew.
  - simpl in Hnew. by injection Hnew as <- <- <-.
  - simpl in Hnew.
    destruct (New ParseFloat fs config i envFile) as [[[[c0 e0] configA] fsA]|] eqn:HN;
      [|done].
    simpl in Hnew.
    destruct (newContainers ParseFloat fsA envFile indexes configA)
      as [[[cs' configB] fsB]|] eqn:Hrest; [|done].
    simpl in Hnew. injection Hnew as <- <- <-.
    rewrite (IH _ _ _ _ _ Hrest). by apply New_fst in HN.
Qed.

Lemma resolve_fst (environ : gmap string string) (c : Container)
    (config config' : Struct) :
  resolve ParseFloat environ c config = Some config' →
  map fst config' = map fst config.
Proof.
  intros H. destruct (fieldValue c) as [i|] eqn:Hi.
  - rewrite (resolve_set _ _ _ i) in H by done. injection H as <-.
    destruct (resolved _ _ _); [apply Set_fst|done].
  - by apply resolve_zero in H as ->.
Qed.

Lemma resolveAll_fst (environ : gmap string string) (cs : list Container) :
  ∀ config config' : Struct,
    resolveAll ParseFloat environ cs config = Some config' →
    map fst config' = map fst config.
Proof.
  induction cs as [|c cs IH]; intros config config' H.
  - simpl in H. by injection H as <-.
  - simpl in H.
    destruct (resolve ParseFloat environ c config) as [configA|] eqn:Hc; [|done].
    simpl in H. rewrite (IH _ _ H). by apply resolve_fst in Hc.
Qed.

(** The second loop leaves alone a field that no container refers to. *)
Lemma resolveAll_frame (environ : gmap string string) (cs : list Container) (j : nat) :
  ∀ config config' : Struct,
    resolveAll ParseFloat environ cs config = Some config' →
    (∀ p c, cs !! p = Some c → fieldValue c ≠ Some j) →
    config' !! j = config !! j.
Proof.
  induction cs as [|c cs IH]; intros config config' H Hcs.
  - simpl in H. by injection H as <-.
  - simpl in H.
    destruct (resolve ParseFloat environ c config) as [configA|] eqn:Hc; [|done].
    simpl in H. rewrite (IH _ _ H).
    + apply (resolve_frame _ _ _ _ _ _ Hc). by apply (Hcs 0%nat).
    + intros p c' Hp. by apply (Hcs (S p)).
Qed.

(** Every container of a second loop that returned was resolved. *)
Lemma resolveAll_each (environ : gmap string string) (cs : list Container) :
  ∀ config config' : Struct,
    resolveAll ParseFloat environ cs config = Some config' →
    ∀ c, c ∈ cs → ∃ cfg, is_Some (resolve ParseFloat environ c cfg).
Proof.
  induction cs as [|c0 cs IH]; intros config config' H c Hin.
  - by apply elem_of_nil in Hin.
  - simpl in H.
    destruct (resolve ParseFloat environ c0 config) as [configA|] eqn:Hc; [|done].
    simpl in H. apply elem_of_cons in Hin as [-> | Hin].
    + exists config. by rewrite Hc.
    + by apply (IH _ _ H).
Qed.

(** The first loop on a field that cannot be set or has no flag name:
    the container refers to no field and the field is left as it is. *)
Lemma newContainers_skip (envFile : gmap string string) (n : nat) :
  ∀ (off : nat) (fs fs1 : Flag.FlagSet) (config config1 : Struct) (cs : list Container),
    newContainers ParseFloat fs envFile (seq off n) config = Some (cs, config1, fs1) →
    ∀ p f v0,
      (p < n)%nat → config !! (off + p)%nat = Some (f, v0) →
      CanSet f = false ∨ Lookup (Tag f) TagFlagName = None →
      cs !! p = Some (errorContainer envFile f)
      ∧ config1 !! (off + p)%nat = Some (f, v0).
Proof.
  induction n as [|n IH]; intros off fs fs1 config config1 cs Hnew p f v0 Hp Hi Hskip;
    [lia|].
  simpl in Hnew.
  destruct (New ParseFloat fs config off envFile) as [[[[c0 e0] configA] fsA]|] eqn:HN;
    [|done].
  simpl in Hnew.
  destruct (newContainers ParseFloat fsA envFile (seq (S off) n) configA)
    as [[[cs' configB] fsB]|] eqn:Hrest; [|done].
  simpl in Hnew. injection Hnew as <- <- <-.
  destruct (newContainers_lookup ParseFloat _ _ _ _ _ _ _ _ Hrest) as (_ & Hlow & _).
  destruct (New_frame _ _ _ _ _ _ _ _ _ HN) as [_ HframeA].
  destruct p as [|p].
  - rewrite Nat.add_0_r in *. rewrite Hlow by lia.
    destruct (New_cases _ _ _ _ _ _ _ _ _ HN) as (f' & v0' & Hi' & Hcases).
    rewrite Hi in Hi'. injection Hi' as <- <-.
    destruct Hcases as [(_ & _ & -> & -> & _)|[(_ & _ & _ & -> & -> & _)
                       |(Hset & _ & name & Hflag & _)]];
      [done|done|].
    destruct Hskip; congruence.
  - replace (off + S p)%nat with (S off + p)%nat in * by lia.
    simpl. apply (IH _ _ _ _ _ _ Hrest); [lia| |done].
    rewrite HframeA by lia. done.
Qed.

Lemma resolved_unsupported (environ : gmap string string) (c : Container) :
  supported (fieldType c) = false → resolved ParseFloat environ c = None.
Proof.
  intros H. unfold resolved, IsBool, IsFloat, IsInt, IsString.
  repeat match goal with
  | |- context [String.eqb (fieldType c) ?name] =>
      destruct (String.eqb_spec (fieldType c) name) as [E|_];
        [rewrite E in H; by vm_compute in H|]
  end.
  done.
Qed.

Lemma sources_panics {A} (c : Container) (inj : A → Value)
    (env file flag : A * bool) (config : Struct) :
  fieldValue c = None → file.2 = true →
  sources (λ a, setField c (inj a)) env file flag config = None.
Proof.
  intros Hc Hfile. unfold sources, whenOk, setField. rewrite Hc, Hfile.
  by destruct env as [e [|]].
Qed.

(** The second loop panics on a container that refers to no field when
    the env file has an entry of the empty name that parses as the type
    of the field. *)
Lemma resolve_errorContainer (environ envFile : gmap string string) (f : StructField)
    (s : string) (config : Struct) :
  envFile !! "" = Some s →
  ToLower (TypeString f) ∈ resolvedTypes →
  is_Some (parseAs ParseFloat (ToLower (TypeString f)) s) →
  resolve ParseFloat environ (errorContainer envFile f) config = None.
Proof.
  intros Hs Hty [v Hv].
  unfold resolve, IsBool, IsFloat, IsInt, IsString,
    SetConfigBool, SetConfigFloat, SetConfigInt, SetConfigString.
  unfold parseAs in Hv.
  apply in_resolvedTypes in Hty.
  cbn [fieldType errorContainer].
  destruct Hty as [Hty | [Hty | [Hty | Hty]]]; rewrite Hty in *; simpl in Hv |- *.
  - rewrite (sources_panics _ VBool); [done|done|].
    unfold EnvFileBool. simpl. rewrite Hs.
    by destruct (Strconv.ParseBool s).
  - rewrite (sources_panics _ VInt); [done|done|].
    unfold EnvFileInt. simpl. rewrite Hs.
    by destruct (Strconv.Atoi s).
  - rewrite (sources_panics _ VFloat); [done|done|].
    unfold EnvFileFloat. simpl. rewrite Hs.
    by destruct (ParseFloat s).
  - rewrite (sources_panics _ VString); [done|done|].
    unfold EnvFileString. simpl. by rewrite Hs.
Qed.

End WithParseFloat.

End NewFacts.

Module BeholdTheorems.
Import Reflect Container Configinator ContainerSpec NewSpec FlagSpec BeholdSpec.
Import ContainerFacts FlagFacts BeholdFacts BeholdField NewFacts Samples MoreSamples.

#[local] Arguments parseTimeIn : simpl never.
#[local] Arguments Strconv.ParseBool : simpl never.
#[local] Arguments Strconv.Atoi : simpl never.
#[local] Arguments Getenv : simpl never.

(** [New] never changes the descriptors of the struct and writes to no
    field but the one of its index; when it returns an error it has
    written nothing, defined no flag, and its container refers to no
    field. *)
Theorem New_touches_own_field (ParseFloat : string → option float) (fs fs' : Flag.FlagSet)
    (config config' : Struct) (i : nat) (envFile : gmap string string)
    (c : Container) (e : option error) :
  New ParseFloat fs config i envFile = Some (c, e, config', fs') →
  map fst config' = map fst config
  ∧ (∀ j, j ≠ i → config' !! j = config !! j)
  ∧ (e ≠ None →
     config' = config ∧ fs' = fs ∧ fieldValue c = None
     ∧ boolValue c = None ∧ floatValue c = None ∧ intValue c = None
     ∧ stringValue c = None ∧ timeValue c = None).
Proof.
  intros H. split; [by apply New_fst in H|].
  split; [by apply New_frame in H as [_ ?]|].
  intros He. destruct (New_cases _ _ _ _ _ _ _ _ _ H) as (f & v0 & Hi & Hcases).
  destruct Hcases as [(_ & _ & -> & -> & ->)|[(_ & _ & _ & -> & -> & ->)|(_ & -> & _)]];
    done.
Qed.

Lemma New_touches_own_field_witness :
  map fst config1 = map fst config1
  ∧ (∀ j, j ≠ 1%nat → config1 !! j = config1 !! j)
  ∧ (Some ErrCantSet ≠ None →
     config1 = config1 ∧ Flag.CommandLine = Flag.CommandLine
     ∧ fieldValue (errorContainer ∅ secretField) = None
     ∧ boolValue (errorContainer ∅ secretField) = None
     ∧ floatValue (errorContainer ∅ secretField) = None
     ∧ intValue (errorContainer ∅ secretField) = None
     ∧ stringValue (errorContainer ∅ secretField) = None
     ∧ timeValue (errorContainer ∅ secretField) = None).
Proof.
  apply (New_touches_own_field ParseFloat_literals Flag.CommandLine Flag.CommandLine
           config1 config1 1%nat ∅ (errorContainer ∅ secretField) (Some ErrCantSet)).
  vm_compute. reflexivity.
Defined.

(** A flag that [New] has just defined is not reported as given: the
    flag accessors of the new container report not-found, whatever the
    default is.  The one exception is a [float64] field whose default
    parses to a NaN, which differs from itself: when [New] defined its
    flag, [FlagFloat] reports it found, with the NaN.  When the flags
    were parsed before, [New] defines no flag and nothing is reported. *)
Theorem fresh_flag_not_found (ParseFloat : string → option float) (fs fs' : Flag.FlagSet)
    (config config' : Struct) (i : nat) (envFile : gmap string string) (c : Container) :
  New ParseFloat fs config i envFile = Some (c, None, config', fs') →
  FlagBool c = (false, false) ∧ FlagInt c = (0, false)
  ∧ FlagString c = (EmptyString, false) ∧ FlagTime c = (GoTime.zero, false)
  ∧ (∀ x, Flag.parsed fs = false → fieldType c = "float64" →
          ParseFloat (defaultValue c) = Some x → PrimFloat.eqb x x = false →
          FlagFloat ParseFloat c = (x, true))
  ∧ (Flag.parsed fs = true ∨ fieldType c ≠ "float64"
     ∨ ParseFloat (defaultValue c) = None
     ∨ (∃ x, ParseFloat (defaultValue c) = Some x ∧ PrimFloat.eqb x x = true) →
     FlagFloat ParseFloat c = (0%float, false)).
Proof.
  intros H. destruct (New_cases _ _ _ _ _ _ _ _ _ H) as (f & v0 & Hi & Hcases).
  destruct Hcases as [(_ & ? & _)|[(_ & _ & ? & _)|(_ & _ & name & _ & -> & _)]];
    [done|done|].
  unfold containerFor, withFlag, FlagBool, FlagInt, FlagString, FlagTime, FlagFloat,
    IsBool, IsFloat, IsInt, IsString, IsTime, defaultValueToBool, defaultValueToInt,
    defaultValueToString, defaultValueToFloat.
  destruct (Flag.parsed fs); simpl.
  { repeat split; try done. }
  type_cases (ToLower (TypeString f)); simpl;
    rewrite ?Bool.eqb_reflx, ?Z.eqb_refl, ?String.eqb_refl; simpl;
    repeat (split; [done|]); try done.
  split.
  - intros x _ _ Hx Hn. rewrite Hx. simpl. by rewrite Hn.
  - intros [?|[?|[Hnone|(x & Hx & Hxx)]]]; try done.
    + by rewrite Hnone.
    + rewrite Hx. simpl. by rewrite Hxx.
Qed.

Lemma fresh_flag_not_found_witness :
  ∃ c config' fs',
    New ParseFloat_literals Flag.CommandLine [(ratioField, VFloat 0)] 0%nat ∅
    = Some (c, None, config', fs')
    ∧ FlagFloat ParseFloat_literals c = (nan, true)
    ∧ FlagBool c = (false, false).
Proof.
  eexists _, _, _. split; [vm_compute; reflexivity|].
  destruct (fresh_flag_not_found ParseFloat_literals Flag.CommandLine _
              [(ratioField, VFloat 0)] _ 0%nat ∅ _ eq_refl)
    as (Hbool & _ & _ & _ & Hnan & _).
  split; [|exact Hbool].
  apply Hnan; reflexivity.
Defined.

(** [Behold] changes the values of fields only: when it returns, the
    struct has the fields it had, in the same order and with the same
    descriptors. *)
Theorem Behold_keeps_shape (ParseFloat : string → option float) (w : World)
    (config config' : Struct) :
  Behold ParseFloat w config = Some config' →
  map fst config' = map fst config ∧ length config' = length config.
Proof.
  intros HB.
  destruct (Behold_passes _ _ _ _ HB)
    as (envFile & cs & config1 & fs1 & fs & _ & Hnew & _ & _ & Hres).
  assert (Hfst : map fst config' = map fst config).
  { rewrite (resolveAll_fst _ _ _ _ _ Hres). by apply newContainers_fst in Hnew. }
  split; [done|].
  by rewrite <- (length_map fst config'), Hfst, length_map.
Qed.

Lemma Behold_keeps_shape_witness :
  map fst [(portField, VInt 7070);
           (startField, VTime (GoTime.mkTime 2006 1 2 0 0 0 0 GoTime.UTC))]
  = map fst config0
  ∧ length [(portField, VInt 7070);
            (startField, VTime (GoTime.mkTime 2006 1 2 0 0 0 0 GoTime.UTC))]
    = length config0.
Proof.
  apply (Behold_keeps_shape ParseFloat_literals
           (mkWorld ∅ (Some "HOST_PORT=7070") Flag.CommandLine [])).
  vm_compute. reflexivity.
Defined.

(** [Behold] leaves alone every field that cannot be set, has no flag
    name, or has a type that is not one of the five supported ones: when
    it returns, such a field holds the value it held before. *)
Theorem Behold_skips_field (ParseFloat : string → option float) (w : World)
    (config config' : Struct) (i : nat) (f : StructField) (v0 : Value) :
  Behold ParseFloat w config = Some config' →
  config !! i = Some (f, v0) →
  CanSet f = false ∨ Lookup (Tag f) TagFlagName = None
  ∨ supported (ToLower (TypeString f)) = false →
  config' !! i = Some (f, v0).
Proof.
  intros HB Hi Hskip.
  assert (Hcase : (CanSet f = false ∨ Lookup (Tag f) TagFlagName = None)
                  ∨ ∃ name, CanSet f = true ∧ Lookup (Tag f) TagFlagName = Some name
                            ∧ supported (ToLower (TypeString f)) = false).
  { destruct (CanSet f); [|by left; left].
    destruct (Lookup (Tag f) TagFlagName) as [name|]; [|by left; right].
    right. exists name. by destruct Hskip as [?|[?|?]]. }
  clear Hskip. destruct Hcase as [Hskip|(name & Hset & Hflag & Hty)].
  - destruct (Behold_passes _ _ _ _ HB)
      as (envFile & cs & config1 & fs1 & fs & _ & Hnew & _ & _ & Hres).
    pose proof (lookup_lt_Some _ _ _ Hi) as Hlt.
    destruct (newContainers_skip _ _ _ _ _ _ _ _ _ Hnew i f v0 Hlt Hi Hskip) as [Hc H1].
    destruct (newContainers_lookup ParseFloat _ _ _ _ _ _ _ _ Hnew) as (Hfv & _ & _).
    simpl in H1. rewrite <- H1.
    apply (resolveAll_frame _ _ _ _ _ _ Hres).
    intros p c' Hp. apply list_lookup_fmap_Some in Hp as (c & -> & Hcp).
    change (fieldValue (load fs c)) with (fieldValue c).
    destruct (Hfv p c Hcp) as [-> | Hsome]; [done|].
    rewrite Hsome. simpl. intros [= ->].
    rewrite Hc in Hcp. injection Hcp as <-. done.
  - destruct (Behold_field _ _ _ _ _ _ _ _ HB Hi Hset Hflag)
      as (envFile & fs & _ & _ & ->).
    rewrite Hty, resolved_unsupported; [done|].
    by rewrite (proj1 (proj2 (load_fields _ _))),
      (proj1 (proj2 (containerFor_fields _ _ _ _ _ _))).
Qed.

Lemma Behold_skips_field_witness :
  [(hostField, VString "example.org"); (secretField, VString "kept");
   (labelField, VString "as is"); (countField, VOther)] !! 1%nat
  = Some (secretField, VString "kept").
Proof.
  apply (Behold_skips_field ParseFloat_literals
           (mkWorld {["HOST" := "example.org"; "LABEL" := "new"]}
              (Some "secret=file") Flag.CommandLine []) config1).
  - vm_compute. reflexivity.
  - reflexivity.
  - left. reflexivity.
Defined.

(** [Behold] panics on the env file entry of the empty name.  A field
    that cannot be set, or has no flag name, gets a container that refers
    to no field and looks its values up under the empty name; when the
    field is a bool, int, float64 or string and the env file has an entry
    of the empty name (the line [=value] makes one) that parses as that
    type, the second loop stores through the zero [reflect.Value], unless
    the process has ended before. *)
Theorem Behold_panics_on_empty_key (ParseFloat : string → option float) (w : World)
    (config : Struct) (i : nat) (f : StructField) (v0 : Value)
    (envFile : gmap string string) (s : string) :
  readEnvFile (dotenv w) = Some envFile → envFile !! "" = Some s →
  config !! i = Some (f, v0) →
  CanSet f = false ∨ Lookup (Tag f) TagFlagName = None →
  ToLower (TypeString f) ∈ resolvedTypes →
  is_Some (parseAs ParseFloat (ToLower (TypeString f)) s) →
  Behold ParseFloat w config = None.
Proof.
  intros Henv Hs Hi Hskip Hty Hparse.
  destruct (Behold ParseFloat w config) as [config'|] eqn:HB; [exfalso|done].
  destruct (Behold_passes _ _ _ _ HB)
    as (envFile' & cs & config1 & fs1 & fs & Henv' & Hnew & _ & _ & Hres).
  rewrite Henv in Henv'. injection Henv' as <-.
  pose proof (lookup_lt_Some _ _ _ Hi) as Hlt.
  destruct (newContainers_skip _ _ _ _ _ _ _ _ _ Hnew i f v0 Hlt Hi Hskip) as [Hc _].
  assert (Hc' : errorContainer envFile f ∈ load fs <$> cs).
  { apply list_elem_of_lookup. exists i.
    by rewrite list_lookup_fmap, Hc, <- (load_errorContainer fs). }
  destruct (resolveAll_each _ _ _ _ _ Hres _ Hc') as [cfg Hsome].
  rewrite (resolve_errorContainer _ _ _ _ s) in Hsome by done.
  by destruct Hsome.
Qed.

Lemma Behold_panics_on_empty_key_witness :
  Behold ParseFloat_literals (mkWorld ∅ (Some "=value") Flag.CommandLine []) config1 = None.
Proof.
  apply (Behold_panics_on_empty_key ParseFloat_literals _ config1 2%nat labelField
           (VString "as is") {["" := "value"]} "value").
  - vm_compute. reflexivity.
  - vm_compute. reflexivity.
  - reflexivity.
  - right. reflexivity.
  - apply (proj2 (in_resolvedTypes _)). do 3 right. reflexivity.
  - vm_compute. by eexists.
Defined.

(** [Behold] panics on an env file that does not parse, whatever the
    struct: a line too long for the scanner, or a line that is not
    ignored and has no [=] left of its comment. *)
Theorem Behold_panics_on_bad_env_file (ParseFloat : string → option float) (w : World)
    (config : Struct) (text : string) :
  dotenv w = Some text →
  Env.scanLines text = None
  ∨ (∃ lines bad,
       Env.scanLines text = Some lines ∧ bad ∈ lines ∧ Env.isIgnoredLine bad = false
       ∧ GoStrings.Contains (Env.stripComment bad) Chars.EQUALS = false) →
  Behold ParseFloat w config = None.
Proof.
  intros Hdot Hbad. unfold Behold, readEnvFile. rewrite Hdot.
  destruct (Env.parse text) as [m [e|]] eqn:Hp; [done|]. exfalso.
  unfold Env.parse in Hp.
  destruct Hbad as [Hscan|(lines & bad & Hscan & Hin & Hig & Heq)];
    rewrite Hscan in Hp; [done|].
  by rewrite (ParseFacts.parseLines_ok_all _ _ _ Hp _ Hin Hig) in Heq.
Qed.

Lemma Behold_panics_on_bad_env_file_witness :
  Behold ParseFloat_literals
    (mkWorld ∅ (Some ("HOST=example.org" +:+ String Chars.LF "no separator"))
       Flag.CommandLine [])
    config1
  = None.
Proof.
  apply (Behold_panics_on_bad_env_file ParseFloat_literals _ config1
           ("HOST=example.org" +:+ String Chars.LF "no separator")).
  - reflexivity.
  - right. exists ["HOST=example.org"; "no separator"], "no separator".
    split; [vm_compute; reflexivity|].
    split; [apply elem_of_cons; right; apply elem_of_cons; by left|].
    split; reflexivity.
Defined.

End BeholdTheorems.

(** * When [Behold] returns *)

Module BeholdReturns.
Import Reflect Container Configinator ContainerSpec FlagSpec BeholdSpec.
Import ContainerFacts FlagFacts BeholdFacts BeholdField Samples.


Section WithParseFloat.

Variable ParseFloat : string -> option float.



Lemma define_parsed (name : string) (v : Flag.Value) (fs : Flag.FlagSet) :
  Flag.parsed (define name v fs) = Flag.parsed fs.
Proof. done. Qed.









End WithParseFloat.



End BeholdReturns.

(** * The earlier [New]: what [getValue] does *)

Module LegacyTheorems.
Import Reflect Legacy ContainerSpec FlagSpec LegacySpec FlagFacts.

#[local] Arguments Strconv.ParseBool : simpl never.
#[local] Arguments Strconv.Atoi : simpl never.

(** [getValue] panics in two cases: the default of a [bool], an [int64]
    or a [float64] field does not parse; or it has a flag to define, as
    it has for every type but [int], [int32] and [float], and the flag
    set refuses the name.  When it returns it has bound the environment
    variable, last.  For the field types [int], [int32] and [float] it
    does nothing else: no default is set and no flag is defined.  For
    every other type it has set a default and defined a flag whose
    variable holds the same value: the parse of the default for [bool],
    [int64] and [float64], the text of the default otherwise. *)
Theorem getValue_calls (ParseFloat : string → option float)
    (fieldType flagName envName defaultValue description : string) (fs : Flag.FlagSet) :
  let r := getValue ParseFloat fieldType flagName envName defaultValue description fs in
  (r = None
   ↔ (fieldType = "bool" ∧ Strconv.ParseBool defaultValue = None)
     ∨ (fieldType = "int64" ∧ Strconv.Atoi defaultValue = None)
     ∨ (fieldType = "float64" ∧ ParseFloat defaultValue = None)
     ∨ ((fieldType ∉ ["int"; "int32"; "float"]) ∧ refused flagName fs))
  ∧ ∀ calls fs',
      r = Some (calls, fs') →
      (fieldType ∈ ["int"; "int32"; "float"] →
       calls = [BindEnv flagName envName] ∧ fs' = fs)
      ∧ (fieldType ∉ ["int"; "int32"; "float"] →
         ∃ a, variableFor ParseFloat fieldType defaultValue a
              ∧ calls = [SetDefault flagName (ofFlag a); BindEnv flagName envName]
              ∧ ¬ refused flagName fs ∧ fs' = define flagName a fs).
Proof.
  assert (Hin : ∀ ty : string, ty ∈ ["int"; "int32"; "float"]
                 ↔ ty = "int" ∨ ty = "int32" ∨ ty = "float").
  { intros ty. rewrite !elem_of_cons, elem_of_nil. tauto. }
  intros r. subst r. unfold getValue. rewrite Hin.
  (* a type for which a flag is defined, with the variable [a] *)
  assert (Hdefines : ∀ a : Flag.Value,
            variableFor ParseFloat fieldType defaultValue a →
            fieldType ≠ "int" → fieldType ≠ "int32" → fieldType ≠ "float" →
            let r := '(calls, fs0) ← (fs0 ← Flag.Var a flagName fs;
                                      Some ([SetDefault flagName (ofFlag a)], fs0));
                     Some (calls ++ [BindEnv flagName envName], fs0) in
            (r = None ↔ refused flagName fs)
            ∧ ∀ calls fs',
                r = Some (calls, fs') →
                (fieldType ∈ ["int"; "int32"; "float"] →
                 calls = [BindEnv flagName envName] ∧ fs' = fs)
                ∧ (fieldType ∉ ["int"; "int32"; "float"] →
                   ∃ a, variableFor ParseFloat fieldType defaultValue a
                        ∧ calls = [SetDefault flagName (ofFlag a); BindEnv flagName envName]
                        ∧ ¬ refused flagName fs ∧ fs' = define flagName a fs)).
  { intros a Ha H1 H2 H3 r. subst r. rewrite <- (Var_None a).
    destruct (Flag.Var a flagName fs) as [fs0|] eqn:Hv; simpl; [|done].
    split; [done|]. intros calls fs' [= <- <-]. rewrite Hin.
    split; [intuition congruence|]. intros _. exists a. split; [exact Ha|].
    split; [done|].
    split; [rewrite <- (Var_None a); congruence|].
    by apply Var_inv in Hv as (_ & _ & _ & ->). }
  destruct (String.eqb_spec fieldType "bool") as [->|Hbool].
  { destruct (Strconv.ParseBool defaultValue) as [b|] eqn:Hb; simpl.
    - destruct (Hdefines (Flag.Bool b)) as [Hnone Hsome]; [done..|].
      split; [rewrite Hnone; intuition congruence|exact Hsome].
    - split; [intuition congruence|]. done. }
  destruct (String.eqb_spec fieldType "int") as [->|Hint].
  { simpl. split; [intuition congruence|].
    intros calls fs' [= <- <-]. rewrite Hin. split; [done|]. tauto. }
  destruct (String.eqb_spec fieldType "int32") as [->|Hint32].
  { simpl. split; [intuition congruence|].
    intros calls fs' [= <- <-]. rewrite Hin. split; [done|]. tauto. }
  destruct (String.eqb_spec fieldType "int64") as [->|Hint64].
  { destruct (Strconv.Atoi defaultValue) as [n|] eqn:Hn; simpl.
    - destruct (Hdefines (Flag.Int n)) as [Hnone Hsome]; [done..|].
      split; [rewrite Hnone; intuition congruence|exact Hsome].
    - split; [intuition congruence|]. done. }
  destruct (String.eqb_spec fieldType "float") as [->|Hfloat].
  { simpl. split; [intuition congruence|].
    intros calls fs' [= <- <-]. rewrite Hin. split; [done|]. tauto. }
  destruct (String.eqb_spec fieldType "float64") as [->|Hfloat64].
  { destruct (ParseFloat defaultValue) as [x|] eqn:Hx; simpl.
    - destruct (Hdefines (Flag.Float64 x)) as [Hnone Hsome]; [done..|].
      split; [rewrite Hnone; intuition congruence|exact Hsome].
    - split; [intuition congruence|]. done. }
  simpl. destruct (Hdefines (Flag.String_ defaultValue)) as [Hnone Hsome]; [done..|].
  split; [rewrite Hnone; intuition congruence|exact Hsome].
Qed.

(** Two fields with no [flag] tag both use the empty name: the second
    call of [getValue] panics. *)
Example getValue_twice :
  ∃ calls fs,
    getValue Samples.ParseFloat_literals "string" "" "HOST" "localhost" "" Flag.CommandLine
    = Some (calls, fs)
    ∧ getValue Samples.ParseFloat_literals "string" "" "NAME" "none" "" fs = None.
Proof. eexists _, _. split; vm_compute; reflexivity. Qed.

End LegacyTheorems.
